(** * demvib: the clinical-records backend of [src/index.js]

    A shallow embedding of the route handlers of the Express application
    (the second, current revision of [index.js]: record CRUD, exam
    attachments, the exam summary and the AI triage route) together with
    the pieces of the JavaScript runtime they rely on: strings as
    sequences of UTF-16 code units, [String.prototype.trim], truthiness,
    [JSON.parse] and [JSON.stringify].

    The SQLite database is an explicit state threaded through the
    handlers; the remote model endpoint is a function handed to the
    triage route, and every call made to it is logged in the result. *)

From Stdlib Require Import List NArith ZArith Bool Lia String Ascii.
From Stdlib Require Import Sorted Permutation DecimalString DecimalZ.
Import ListNotations.

Set Warnings "-register-all".

Local Open Scope N_scope.
Local Open Scope list_scope.

(* ================================================================== *)
(** * Strings *)

(** A JavaScript string is a sequence of 16-bit code units. *)
Definition jsstring := list N.

(** The code unit of an ASCII character. *)
Definition ch (a : ascii) : N := N_of_ascii a.
Arguments ch _%_char : simpl never.

(** The double quote, U+0022. *)
Definition dquote : N := 34.
Arguments dquote : simpl never.

(** String literals.  The file is UTF-8; [js] decodes the one-, two- and
    three-byte sequences of a literal into code units, which covers the
    accented letters of the messages. *)
Fixpoint utf16 (bs : list N) : jsstring :=
  match bs with
  | [] => []
  | b :: t =>
    if b <? 128 then b :: utf16 t
    else if b <? 224 then
      match t with
      | b2 :: t' => (N.land b 31 * 64 + N.land b2 63) :: utf16 t'
      | [] => [b]
      end
    else
      match t with
      | b2 :: b3 :: t' =>
        (N.land b 15 * 4096 + N.land b2 63 * 64 + N.land b3 63) :: utf16 t'
      | _ => b :: utf16 t
      end
  end.

Definition js (s : string) : jsstring :=
  utf16 (map N_of_ascii (list_ascii_of_string s)).
Arguments js _%_string.

(** JSON texts are full of double quotes; [jq] writes them with
    apostrophes: [jq "{'a':['b']}"] is the text [{"a":["b"]}]. *)
Definition jq (s : string) : jsstring :=
  map (fun c => if c =? ch "'" then dquote else c) (js s).
Arguments jq _%_string.

(** [a === b] on strings. *)
Definition str_eqb (a b : jsstring) : bool :=
  if list_eq_dec N.eq_dec a b then true else false.

(** [Array.prototype.join]. *)
Fixpoint join (sep : jsstring) (parts : list jsstring) : jsstring :=
  match parts with
  | [] => []
  | [p] => p
  | p :: rest => p ++ sep ++ join sep rest
  end.

(** WhiteSpace and LineTerminator code units, the ones
    [String.prototype.trim] strips. *)
Definition is_js_space (c : N) : bool :=
  (c =? 9) || (c =? 10) || (c =? 11) || (c =? 12) || (c =? 13) ||
  (c =? 32) || (c =? 160) || (c =? 5760) ||
  ((8192 <=? c) && (c <=? 8202)) ||
  (c =? 8232) || (c =? 8233) || (c =? 8239) || (c =? 8287) ||
  (c =? 12288) || (c =? 65279).

Fixpoint trim_start (s : jsstring) : jsstring :=
  match s with
  | c :: t => if is_js_space c then trim_start t else s
  | [] => []
  end.

Definition trim (s : jsstring) : jsstring :=
  rev (trim_start (rev (trim_start s))).

(** Decimal rendering of an integer, as [Number::toString] prints an
    integer below 10^21 and as SQLite prints an INTEGER. *)
Definition dec (z : Z) : jsstring :=
  js (NilZero.string_of_int (Z.to_int z)).

(* ================================================================== *)
(** * Values *)

(** The values a JSON text denotes, which are the values a request body
    parsed by [express.json()] is made of.  A number is kept as a decimal
    token denoting it: the handlers only ask whether a number is zero and
    print it, never compute with it.  [undefined] is not a value here: an
    absent property is the [None] of a lookup.  Properties are kept in
    insertion order. *)
Inductive value : Type :=
| VNull
| VBool (b : bool)
| VNum (tok : jsstring)
| VStr (s : jsstring)
| VArr (items : list value)
| VObj (props : list (jsstring * value)).

(** Set a property: replace it where it is, else add it at the end. *)
Fixpoint obj_set (props : list (jsstring * value)) (k : jsstring) (v : value)
  : list (jsstring * value) :=
  match props with
  | [] => [(k, v)]
  | (k', v') :: rest =>
    if str_eqb k' k then (k, v) :: rest else (k', v') :: obj_set rest k v
  end.

Fixpoint obj_get (props : list (jsstring * value)) (k : jsstring)
  : option value :=
  match props with
  | [] => None
  | (k', v) :: rest => if str_eqb k' k then Some v else obj_get rest k
  end.

(** [v.k] for one of the property names the handlers read (none of them
    is a built-in property of strings, arrays or numbers); [None] is
    [undefined]. *)
Definition get (v : value) (k : jsstring) : option value :=
  match v with
  | VObj props => obj_get props k
  | _ => None
  end.

Definition is_digit (c : N) : bool := (ch "0" <=? c) && (c <=? ch "9").

(** The digits of a number token before its exponent. *)
Fixpoint mantissa (tok : jsstring) : jsstring :=
  match tok with
  | [] => []
  | c :: t => if (c =? ch "e") || (c =? ch "E") then [] else c :: mantissa t
  end.

(** The number the digits of [s] write, read after [acc]; a sign or a
    dot among them is skipped. *)
Fixpoint digits_value (acc : Z) (s : jsstring) : Z :=
  match s with
  | [] => acc
  | c :: t =>
    if is_digit c then digits_value (10 * acc + Z.of_N (c - ch "0"))%Z t
    else digits_value acc t
  end.

(** The number of digits after the dot. *)
Fixpoint fraction_digits (s : jsstring) : Z :=
  match s with
  | [] => 0%Z
  | c :: t =>
    if c =? ch "." then Z.of_nat (List.length t) else fraction_digits t
  end.

(** The exponent of a number token: what follows [e] or [E], zero when
    there is none. *)
Fixpoint exponent (tok : jsstring) : Z :=
  match tok with
  | [] => 0%Z
  | c :: t =>
    if (c =? ch "e") || (c =? ch "E") then
      match t with
      | s :: u =>
        if s =? ch "-" then (- digits_value 0 u)%Z else digits_value 0 t
      | [] => 0%Z
      end
    else exponent t
  end.

(** A number is falsy when it is zero.  The number a token denotes is
    the binary64 nearest to its decimal value [m * 10^e], ties to even:
    it is zero when [m] is, and also when the value is at most
    [2^-1075], half the smallest binary64 above zero, as for [1e-400]. *)
Definition num_truthy (tok : jsstring) : bool :=
  let m := digits_value 0 (mantissa tok) in
  let e := (exponent tok - fraction_digits (mantissa tok))%Z in
  if (0 <=? e)%Z then (0 <? m)%Z
  else (10 ^ (- e) <? m * 2 ^ 1075)%Z.

(** ToBoolean. *)
Definition truthy (v : value) : bool :=
  match v with
  | VNull => false
  | VBool b => b
  | VNum tok => num_truthy tok
  | VStr s => negb (str_eqb s [])
  | VArr _ | VObj _ => true
  end.

(** ToBoolean of a possibly absent property. *)
Definition truthy_opt (o : option value) : bool :=
  match o with
  | Some v => truthy v
  | None => false
  end.

(** A destructuring default, [{ k = d } = obj]: the default is taken
    only when the property is absent, not when it is [null]. *)
Definition default (o : option value) (d : value) : value :=
  match o with
  | Some v => v
  | None => d
  end.

(** [a || b] on values. *)
Definition or_else (a b : value) : value := if truthy a then a else b.

(** Whether [ToString] throws on a value, as when a template literal
    prints it.  An object that has a property [toString] of its own has
    lost the conversion it inherits, and what a JSON text puts there is
    not a function; an array prints its elements, [null] as nothing. *)
Fixpoint to_string_throws (v : value) : bool :=
  match v with
  | VObj props => existsb (fun kv => str_eqb (fst kv) (js "toString")) props
  | VArr items => existsb to_string_throws items
  | _ => false
  end.

(* ================================================================== *)
(** * Exceptions *)

(** What a handler can throw.  The message of a [TypeError] or of a
    [SyntaxError] is the engine's own and is not spelled out. *)
Inductive exn : Type :=
| TypeError
| SyntaxError
| Error (message : jsstring).

Inductive result (A : Type) : Type :=
| Ok (a : A)
| Throw (e : exn).
Arguments Ok {A} a.
Arguments Throw {A} e.

(** [v.trim()]: only a string has the method. *)
Definition call_trim (v : value) : result jsstring :=
  match v with
  | VStr s => Ok (trim s)
  | _ => Throw TypeError
  end.

(* ================================================================== *)
(** * JSON.parse *)

Module JSON.

(** JSON white space: tab, line feed, carriage return, space. *)
Definition is_ws (c : N) : bool :=
  (c =? 9) || (c =? 10) || (c =? 13) || (c =? 32).

Fixpoint skip_ws (s : jsstring) : jsstring :=
  match s with
  | c :: t => if is_ws c then skip_ws t else s
  | [] => []
  end.

Definition hex_val (c : N) : option N :=
  if is_digit c then Some (c - ch "0")
  else if (ch "a" <=? c) && (c <=? ch "f") then Some (c - ch "a" + 10)
  else if (ch "A" <=? c) && (c <=? ch "F") then Some (c - ch "A" + 10)
  else None.

Definition hex4 (h1 h2 h3 h4 : N) : option N :=
  match hex_val h1, hex_val h2, hex_val h3, hex_val h4 with
  | Some a, Some b, Some c, Some d => Some (a * 4096 + b * 256 + c * 16 + d)
  | _, _, _, _ => None
  end.

(** The character a one-letter escape stands for. *)
Definition simple_escape (e : N) : option N :=
  if e =? dquote then Some (dquote)
  else if e =? ch "\" then Some (ch "\")
  else if e =? ch "/" then Some (ch "/")
  else if e =? ch "b" then Some 8
  else if e =? ch "f" then Some 12
  else if e =? ch "n" then Some 10
  else if e =? ch "r" then Some 13
  else if e =? ch "t" then Some 9
  else None.

Definition cons_char (c : N) (r : option (jsstring * jsstring))
  : option (jsstring * jsstring) :=
  match r with
  | Some (s, rest) => Some (c :: s, rest)
  | None => None
  end.

(** The characters of a string after its opening quote, up to and
    including the closing quote. *)
Fixpoint parse_chars (s : jsstring) : option (jsstring * jsstring) :=
  match s with
  | [] => None
  | c :: t =>
    if c =? dquote then Some ([], t)
    else if c =? ch "\" then
      match t with
      | [] => None
      | e :: t' =>
        if e =? ch "u" then
          match t' with
          | h1 :: h2 :: h3 :: h4 :: t'' =>
            match hex4 h1 h2 h3 h4 with
            | Some u => cons_char u (parse_chars t'')
            | None => None
            end
          | _ => None
          end
        else
          match simple_escape e with
          | Some u => cons_char u (parse_chars t')
          | None => None
          end
      end
    else if c <? 32 then None
    else cons_char c (parse_chars t)
  end.

(** The longest prefix of digits, and what follows it. *)
Fixpoint digits (s : jsstring) : jsstring * jsstring :=
  match s with
  | c :: t =>
    if is_digit c then let (ds, rest) := digits t in (c :: ds, rest)
    else ([], s)
  | [] => ([], [])
  end.

(** An optional minus sign, then [0] or a digit from 1 to 9 followed by
    any digits. *)
Definition parse_int (s : jsstring) : option (jsstring * jsstring) :=
  let (sign, s1) :=
    match s with
    | c :: t => if c =? ch "-" then ([c], t) else ([], s)
    | [] => ([], s)
    end in
  match s1 with
  | d :: t =>
    if d =? ch "0" then Some (sign ++ [d], t)
    else if is_digit d then
      let (ds, rest) := digits t in Some (sign ++ d :: ds, rest)
    else None
  | [] => None
  end.

(** An optional fraction: a dot and at least one digit. *)
Definition parse_frac (s : jsstring) : option (jsstring * jsstring) :=
  match s with
  | c :: t =>
    if c =? ch "." then
      match digits t with
      | ([], _) => None
      | (ds, rest) => Some (c :: ds, rest)
      end
    else Some ([], s)
  | [] => Some ([], s)
  end.

(** An optional exponent: [e] or [E], an optional sign, at least one
    digit. *)
Definition parse_exp (s : jsstring) : option (jsstring * jsstring) :=
  match s with
  | c :: t =>
    if (c =? ch "e") || (c =? ch "E") then
      let (sign, t') :=
        match t with
        | g :: u =>
          if (g =? ch "+") || (g =? ch "-") then ([g], u) else ([], t)
        | [] => ([], t)
        end in
      match digits t' with
      | ([], _) => None
      | (ds, rest) => Some (c :: sign ++ ds, rest)
      end
    else Some ([], s)
  | [] => Some ([], s)
  end.

(** A number token and what follows it. *)
Definition parse_number (s : jsstring) : option (jsstring * jsstring) :=
  match parse_int s with
  | Some (i, s1) =>
    match parse_frac s1 with
    | Some (f, s2) =>
      match parse_exp s2 with
      | Some (e, s3) => Some (i ++ f ++ e, s3)
      | None => None
      end
    | None => None
    end
  | None => None
  end.

(** A word such as [true]: the text must start with it. *)
Fixpoint strip_prefix (w s : jsstring) : option jsstring :=
  match w, s with
  | [], _ => Some s
  | a :: w', b :: s' => if a =? b then strip_prefix w' s' else None
  | _ :: _, [] => None
  end.

Inductive parsed (A : Type) : Type :=
| Parsed (a : A) (rest : jsstring)
| Invalid
| OutOfFuel.
Arguments Parsed {A} a rest.
Arguments Invalid {A}.
Arguments OutOfFuel {A}.

(** One JSON value and the text after it.  Nesting is bounded by the
    fuel; [parse] below supplies enough of it for any text. *)
Fixpoint parse_value (fuel : nat) (s : jsstring) : parsed value :=
  match fuel with
  | O => OutOfFuel
  | S f =>
    match skip_ws s with
    | [] => Invalid
    | c :: t =>
      if c =? ch "{" then
        match skip_ws t with
        | c' :: t' =>
          if c' =? ch "}" then Parsed (VObj []) t'
          else parse_members f (c' :: t') []
        | [] => Invalid
        end
      else if c =? ch "[" then
        match skip_ws t with
        | c' :: t' =>
          if c' =? ch "]" then Parsed (VArr []) t'
          else parse_elements f (c' :: t') []
        | [] => Invalid
        end
      else if c =? dquote then
        match parse_chars t with
        | Some (str, rest) => Parsed (VStr str) rest
        | None => Invalid
        end
      else if c =? ch "t" then
        match strip_prefix (js "rue") t with
        | Some rest => Parsed (VBool true) rest
        | None => Invalid
        end
      else if c =? ch "f" then
        match strip_prefix (js "alse") t with
        | Some rest => Parsed (VBool false) rest
        | None => Invalid
        end
      else if c =? ch "n" then
        match strip_prefix (js "ull") t with
        | Some rest => Parsed VNull rest
        | None => Invalid
        end
      else
        match parse_number (c :: t) with
        | Some (tok, rest) => Parsed (VNum tok) rest
        | None => Invalid
        end
    end
  end

(** The elements of an array after its opening bracket, [acc] being the
    ones already read. *)
with parse_elements (fuel : nat) (s : jsstring) (acc : list value)
  : parsed value :=
  match fuel with
  | O => OutOfFuel
  | S f =>
    match parse_value f s with
    | Parsed v rest =>
      match skip_ws rest with
      | c :: t =>
        if c =? ch "," then parse_elements f t (acc ++ [v])
        else if c =? ch "]" then Parsed (VArr (acc ++ [v])) t
        else Invalid
      | [] => Invalid
      end
    | Invalid => Invalid
    | OutOfFuel => OutOfFuel
    end
  end

(** The members of an object after its opening brace. *)
with parse_members (fuel : nat) (s : jsstring) (acc : list (jsstring * value))
  : parsed value :=
  match fuel with
  | O => OutOfFuel
  | S f =>
    match skip_ws s with
    | q :: t =>
      if q =? dquote then
        match parse_chars t with
        | Some (key, rest) =>
          match skip_ws rest with
          | c :: t' =>
            if c =? ch ":" then
              match parse_value f t' with
              | Parsed v rest' =>
                match skip_ws rest' with
                | c' :: t'' =>
                  if c' =? ch "," then parse_members f t'' (obj_set acc key v)
                  else if c' =? ch "}" then
                    Parsed (VObj (obj_set acc key v)) t''
                  else Invalid
                | [] => Invalid
                end
              | Invalid => Invalid
              | OutOfFuel => OutOfFuel
              end
            else Invalid
          | [] => Invalid
          end
        | None => Invalid
        end
      else Invalid
    | [] => Invalid
    end
  end.

(** [JSON.parse(text)]: one value, white space around it, nothing else.
    [None] is the [SyntaxError]. *)
Definition parse (text : jsstring) : option value :=
  match parse_value (2 * List.length text + 2) text with
  | Parsed v rest =>
    match skip_ws rest with
    | [] => Some v
    | _ :: _ => None
    end
  | Invalid | OutOfFuel => None
  end.

(** ** JSON.stringify *)

Definition is_high_surrogate (c : N) : bool := (55296 <=? c) && (c <=? 56319).
Definition is_low_surrogate (c : N) : bool := (56320 <=? c) && (c <=? 57343).

Definition hex_digit (d : N) : N :=
  if d <? 10 then ch "0" + d else ch "a" + (d - 10).

(** UnicodeEscape: a backslash, [u] and four lowercase hexadecimal
    digits. *)
Definition unicode_escape (c : N) : jsstring :=
  [ch "\"; ch "u"; hex_digit ((c / 4096) mod 16); hex_digit ((c / 256) mod 16);
   hex_digit ((c / 16) mod 16); hex_digit (c mod 16)].

(** One code unit that is not the first half of a surrogate pair. *)
Definition quote_unit (c : N) : jsstring :=
  if c =? 8 then [ch "\"; ch "b"]
  else if c =? 9 then [ch "\"; ch "t"]
  else if c =? 10 then [ch "\"; ch "n"]
  else if c =? 12 then [ch "\"; ch "f"]
  else if c =? 13 then [ch "\"; ch "r"]
  else if c =? dquote then [ch "\"; dquote]
  else if c =? ch "\" then [ch "\"; ch "\"]
  else if (c <? 32) || is_high_surrogate c || is_low_surrogate c
       then unicode_escape c
  else [c].

(** QuoteJSONString walks the code points of the string: a surrogate
    pair is copied, a lone surrogate is escaped. *)
Fixpoint quote_chars (s : jsstring) : jsstring :=
  match s with
  | [] => []
  | c :: t =>
    if is_high_surrogate c then
      match t with
      | d :: t' =>
        if is_low_surrogate d then c :: d :: quote_chars t'
        else unicode_escape c ++ quote_chars t
      | [] => unicode_escape c
      end
    else quote_unit c ++ quote_chars t
  end.

Definition quote (s : jsstring) : jsstring :=
  dquote :: quote_chars s ++ [dquote].

(** [JSON.stringify(v)], without indentation. *)
Fixpoint stringify (v : value) : jsstring :=
  match v with
  | VNull => js "null"
  | VBool b => if b then js "true" else js "false"
  | VNum tok => tok
  | VStr s => quote s
  | VArr items =>
    ch "[" :: join [ch ","] (map stringify items) ++ [ch "]"]
  | VObj props =>
    ch "{" ::
    join [ch ","]
      (map (fun kv => let (k, x) := kv : jsstring * value in
                      quote k ++ ch ":" :: stringify x) props)
    ++ [ch "}"]
  end.

End JSON.

(* ================================================================== *)
(** * The database *)

(** A TEXT column holds a text or NULL. *)
Definition column := option jsstring.

(** Truthiness of a column read back from a row: NULL and the empty
    text are falsy. *)
Definition col_truthy (c : column) : bool :=
  match c with
  | Some s => negb (str_eqb s [])
  | None => false
  end.

(** [`${c}`] *)
Definition col_text (c : column) : jsstring :=
  match c with
  | Some s => s
  | None => js "null"
  end.

(** [a || b] on columns. *)
Definition col_or (a b : column) : column := if col_truthy a then a else b.

(** What a bound parameter becomes in a TEXT column: a string is stored
    as it is and [null] as NULL; the driver binds a boolean as 0 or 1,
    which the column keeps as its text, and any other object as the text
    [[object Object]].  A number is bound as a number and the column
    keeps the text the engine prints for it, which is not NULL; the
    token stands here for that text, whose spelling is the engine's (it
    prints [1.50] as [1.5]).  The properties of the routes below do
    not rely on that spelling: where they name the text of a stored
    field, the field was sent as a string. *)
Definition sql_text (v : value) : column :=
  match v with
  | VNull => None
  | VStr s => Some s
  | VNum tok => Some tok
  | VBool b => Some (if b then js "1" else js "0")
  | VArr _ | VObj _ => Some (js "[object Object]")
  end.

Module Prontuario.

(** A row of [prontuarios]. *)
Record row : Type := {
  id : Z;
  nome : column;
  cpf : column;
  data_consulta : column;
  diagnostico : column;
  sintomas : column;
  anamnese : column;
  exames_solicitados : column
}.

End Prontuario.

Module Exame.

(** A row of [exames].  The foreign key is enforced, so [prontuario_id]
    is the key of a record; [created_at] is the text of
    [datetime('now')] at insertion. *)
Record row : Type := {
  id : Z;
  prontuario_id : Z;
  tipo : column;
  observacoes : column;
  arquivo_path : column;
  resultado_texto : column;
  data_resultado : column;
  created_at : jsstring
}.

End Exame.

(** The two tables and, for each, the largest key ever given out (the
    table's entry in [sqlite_sequence]). *)
Record database : Type := {
  prontuarios : list Prontuario.row;
  exames : list Exame.row;
  seq_prontuarios : Z;
  seq_exames : Z
}.

(** What [db.run] hands to its callback: an error, or [this.lastID] and
    [this.changes] with the new state. *)
Inductive run_result : Type :=
| Done (lastID : Z) (changes : nat) (d : database)
| Failed (message : jsstring).

(** AUTOINCREMENT: one more than the largest key the table holds or has
    ever held. *)
Definition next_id (seq : Z) (ids : list Z) : Z :=
  Z.max seq (fold_right Z.max 0%Z ids) + 1.

(** ORDER BY ... DESC: [before a b] says that [a] may come before [b]. *)
Fixpoint insert_desc {A} (before : A -> A -> bool) (x : A) (l : list A)
  : list A :=
  match l with
  | [] => [x]
  | y :: t => if before x y then x :: l else y :: insert_desc before x t
  end.

Definition order_by_desc {A} (before : A -> A -> bool) (l : list A) : list A :=
  fold_right (insert_desc before) [] l.

(** The order of two texts, code unit by code unit. *)
Fixpoint text_leb (a b : jsstring) : bool :=
  match a, b with
  | [], _ => true
  | _ :: _, [] => false
  | x :: a', y :: b' => (x <? y) || ((x =? y) && text_leb a' b')
  end.

Definition NOT_NULL_failed : jsstring :=
  js "SQLITE_CONSTRAINT: NOT NULL constraint failed".
Definition FOREIGN_KEY_failed : jsstring :=
  js "SQLITE_CONSTRAINT: FOREIGN KEY constraint failed".

Definition is_null (c : column) : bool :=
  match c with
  | Some _ => false
  | None => true
  end.

Section Store.

(** How SQLite compares a bound parameter with an INTEGER key, in
    [WHERE id = ?] and in the foreign-key check.  The model does not fix
    it: a key can be written as a number or as a text, in more than one
    spelling. *)
Variable key_eq : value -> Z -> bool.

(** [INSERT INTO prontuarios (nome, cpf, data_consulta, diagnostico,
    sintomas, anamnese, exames_solicitados) VALUES (?,?,?,?,?,?,?)] *)
Definition insert_prontuario (d : database)
    (nome cpf data_consulta diagnostico sintomas anamnese : value)
    (examesStr : jsstring) : run_result :=
  if is_null (sql_text nome) || is_null (sql_text cpf) ||
     is_null (sql_text data_consulta) || is_null (sql_text diagnostico)
  then Failed NOT_NULL_failed
  else
    let id := next_id (seq_prontuarios d)
                      (map Prontuario.id (prontuarios d)) in
    let r := {| Prontuario.id := id;
                Prontuario.nome := sql_text nome;
                Prontuario.cpf := sql_text cpf;
                Prontuario.data_consulta := sql_text data_consulta;
                Prontuario.diagnostico := sql_text diagnostico;
                Prontuario.sintomas := sql_text sintomas;
                Prontuario.anamnese := sql_text anamnese;
                Prontuario.exames_solicitados := Some examesStr |} in
    Done id 1
      {| prontuarios := prontuarios d ++ [r];
         exames := exames d;
         seq_prontuarios := id;
         seq_exames := seq_exames d |}.

(** [UPDATE prontuarios SET nome = ?, ... , exames_solicitados = ?
    WHERE id = ?] *)
Definition update_prontuario (d : database)
    (nome cpf data_consulta diagnostico sintomas anamnese : value)
    (examesStr : jsstring) (id : value) : run_result :=
  let hit (r : Prontuario.row) := key_eq id (Prontuario.id r) in
  let changes := List.length (filter hit (prontuarios d)) in
  if negb (Nat.eqb changes 0) &&
     (is_null (sql_text nome) || is_null (sql_text cpf) ||
      is_null (sql_text data_consulta) || is_null (sql_text diagnostico))
  then Failed NOT_NULL_failed
  else
    let set (r : Prontuario.row) :=
      if hit r then
        {| Prontuario.id := Prontuario.id r;
           Prontuario.nome := sql_text nome;
           Prontuario.cpf := sql_text cpf;
           Prontuario.data_consulta := sql_text data_consulta;
           Prontuario.diagnostico := sql_text diagnostico;
           Prontuario.sintomas := sql_text sintomas;
           Prontuario.anamnese := sql_text anamnese;
           Prontuario.exames_solicitados := Some examesStr |}
      else r in
    Done (seq_prontuarios d) changes
      {| prontuarios := map set (prontuarios d);
         exames := exames d;
         seq_prontuarios := seq_prontuarios d;
         seq_exames := seq_exames d |}.

(** [DELETE FROM prontuarios WHERE id = ?], with the cascade of the
    foreign key of [exames]. *)
Definition delete_prontuario (d : database) (id : value) : run_result :=
  let hit (r : Prontuario.row) := key_eq id (Prontuario.id r) in
  let gone := map Prontuario.id (filter hit (prontuarios d)) in
  let orphan (e : Exame.row) :=
    existsb (Z.eqb (Exame.prontuario_id e)) gone in
  Done (seq_prontuarios d) (List.length gone)
    {| prontuarios := filter (fun r => negb (hit r)) (prontuarios d);
       exames := filter (fun e => negb (orphan e)) (exames d);
       seq_prontuarios := seq_prontuarios d;
       seq_exames := seq_exames d |}.

(** [INSERT INTO exames (prontuario_id, tipo, observacoes, arquivo_path,
    resultado_texto, data_resultado) VALUES (?,?,?,?,?,?)]; [now] is
    [datetime('now')]. *)
Definition insert_exame (now : jsstring) (d : database)
    (prontuario_id tipo observacoes arquivo_path resultado_texto
     data_resultado : value) : run_result :=
  match find (fun r => key_eq prontuario_id (Prontuario.id r))
             (prontuarios d) with
  | None => Failed FOREIGN_KEY_failed
  | Some parent =>
    let id := next_id (seq_exames d) (map Exame.id (exames d)) in
    let e := {| Exame.id := id;
                Exame.prontuario_id := Prontuario.id parent;
                Exame.tipo := sql_text tipo;
                Exame.observacoes := sql_text observacoes;
                Exame.arquivo_path := sql_text arquivo_path;
                Exame.resultado_texto := sql_text resultado_texto;
                Exame.data_resultado := sql_text data_resultado;
                Exame.created_at := now |} in
    Done id 1
      {| prontuarios := prontuarios d;
         exames := exames d ++ [e];
         seq_prontuarios := seq_prontuarios d;
         seq_exames := id |}
  end.

(** [SELECT ... FROM exames WHERE prontuario_id = ? ORDER BY created_at
    DESC] *)
Definition select_exames (d : database) (prontuario_id : value)
  : list Exame.row :=
  order_by_desc
    (fun a b => text_leb (Exame.created_at b) (Exame.created_at a))
    (filter (fun e => key_eq prontuario_id (Exame.prontuario_id e))
            (exames d)).

(** [SELECT * FROM prontuarios ORDER BY id DESC] *)
Definition select_prontuarios (d : database) : list Prontuario.row :=
  order_by_desc (fun a b => Z.leb (Prontuario.id b) (Prontuario.id a))
                (prontuarios d).

End Store.

(* ================================================================== *)
(** * Responses and effects *)

(** What a handler sends.  [Json v] is [res.json(v)] and [Text s] is
    [res.send(s)].  Two bodies hold a part the model keeps as it is in
    the source: [Number(id)] and [e.message].  [Unhandled e] is the
    answer of Express to an exception no handler caught. *)
Inductive payload : Type :=
| Text (s : jsstring)
| Json (v : value)
| JsonNumberId (message id : jsstring)
| JsonIAError (detail : exn) (model host : jsstring)
| Unhandled (e : exn).

Record response : Type := { status : Z; body : payload }.

Definition send (code : Z) (s : jsstring) : response :=
  {| status := code; body := Text s |}.
Definition json (code : Z) (v : value) : response :=
  {| status := code; body := Json v |}.
Definition json_error (code : Z) (message : jsstring) : response :=
  json code (VObj [(js "error", VStr message)]).

(** The values given to the three holes of the prompt template.  The
    text around them is fixed: the text that is sent is the template
    with the three values printed in it, trimmed, and so is a function
    of these values, which stand for it here. *)
Record prompt : Type := {
  SINTOMAS : value;
  ANAMNESE : value;
  EXAMES : jsstring
}.

(** Filling the template prints the values of the first two holes with
    [ToString], which can throw; the third is a text. *)
Definition template (p : prompt) : result prompt :=
  if to_string_throws (SINTOMAS p) || to_string_throws (ANAMNESE p)
  then Throw TypeError else Ok p.

(** The outcome of [fetch]: the promise is rejected, or a response comes
    back with a status and a body text. *)
Inductive fetch_result : Type :=
| Rejected (message : jsstring)
| Responded (status : Z) (text : jsstring).

(** A computation that may throw and that logs the prompts it sends to
    the model endpoint. *)
Definition io (A : Type) : Type := list prompt -> result A * list prompt.

Definition ret {A} (a : A) : io A := fun log => (Ok a, log).
Definition lift {A} (r : result A) : io A := fun log => (r, log).
Definition bind {A B} (m : io A) (k : A -> io B) : io B :=
  fun log =>
    match m log with
    | (Ok a, log') => k a log'
    | (Throw e, log') => (Throw e, log')
    end.
Definition try_catch {A} (m : io A) (handler : exn -> io A) : io A :=
  fun log =>
    match m log with
    | (Ok a, log') => (Ok a, log')
    | (Throw e, log') => handler e log'
    end.

Notation "x <- m ;; k" := (bind m (fun x => k))
  (at level 61, m at next level, right associativity).

(** [req.body || {}] *)
Definition body_of (req_body : option value) : value :=
  match req_body with
  | Some b => if truthy b then b else VObj []
  | None => VObj []
  end.

(** A parameter handed to the driver; an [undefined] one is left
    unbound, which is NULL. *)
Definition bound (o : option value) : value := default o VNull.

Definition Array_isArray (v : value) : bool :=
  match v with
  | VArr _ => true
  | _ => false
  end.

Definition is_empty (s : jsstring) : bool := str_eqb s [].

(* ================================================================== *)
(** * Upload names *)

(** [\w] *)
Definition is_word (c : N) : bool :=
  ((ch "a" <=? c) && (c <=? ch "z")) || ((ch "A" <=? c) && (c <=? ch "Z")) ||
  is_digit c || (c =? ch "_").

(** A character the class [[^\w.\-]] does not match. *)
Definition is_safe (c : N) : bool :=
  is_word c || (c =? ch ".") || (c =? ch "-").

(** [s.replace(/[^\w.\-]+/g, '_')]: the scan copies a character outside
    the class, and writes one underscore where a match of the class
    starts; [in_match] says that the scan is inside a match. *)
Fixpoint replace_unsafe (in_match : bool) (s : jsstring) : jsstring :=
  match s with
  | [] => []
  | c :: t =>
    if is_safe c then c :: replace_unsafe false t
    else if in_match then replace_unsafe true t
    else ch "_" :: replace_unsafe true t
  end.

Record file : Type := { originalname : jsstring; filename : jsstring }.

(** The [filename] callback of the disk storage; [ts] is [Date.now()]. *)
Definition storage_filename (ts : Z) (originalname : jsstring) : jsstring :=
  let safe := replace_unsafe false originalname in
  dec ts ++ js "__" ++ safe.

(** [upload.single('arquivo')]: [req.file] when the request carries a
    file in that field, whose original name is [part]. *)
Definition upload_single (ts : Z) (part : option jsstring) : option file :=
  match part with
  | Some name =>
    Some {| originalname := name; filename := storage_filename ts name |}
  | None => None
  end.

(* ================================================================== *)
(** * The exam summary *)

Definition push (parts : list jsstring) (p : jsstring) : list jsstring :=
  parts ++ [p].

Definition laudo_note : jsstring :=
  js "Sem laudo textual: interpretar arquivo anexado.".

(** The parts of the line of one row, pushed in the order of the
    source.  The query does not select a column [archivo_path], so that
    property of the row is [undefined]. *)
Definition summary_parts (r : Exame.row) : list jsstring :=
  let data_anexo := Exame.data_resultado r in
  let archivo_path : column := None in
  let parts := [] in
  let parts :=
    if col_truthy (Exame.tipo r)
    then push parts (js "Tipo: " ++ col_text (Exame.tipo r)) else parts in
  let parts :=
    if col_truthy data_anexo
    then push parts (js "Data de anexo: " ++ col_text data_anexo)
    else parts in
  let parts :=
    if col_truthy (Exame.resultado_texto r)
    then push parts
           (js "Resultado textual: " ++ col_text (Exame.resultado_texto r))
    else parts in
  let parts :=
    if col_truthy (Exame.observacoes r)
    then push parts (js "Obs: " ++ col_text (Exame.observacoes r))
    else parts in
  if col_truthy (col_or archivo_path (Exame.arquivo_path r)) then
    let p := col_or archivo_path (Exame.arquivo_path r) in
    let parts := push parts (js "Arquivo: " ++ col_text p) in
    if negb (col_truthy (Exame.resultado_texto r))
    then push parts laudo_note else parts
  else parts.

Definition summary_line (r : Exame.row) : jsstring :=
  js "- " ++ join (js " | ") (summary_parts r).

(* ================================================================== *)
(** * The response interpreter *)

Fixpoint ends_with (c : N) (s : jsstring) : bool :=
  match s with
  | [] => false
  | [x] => x =? c
  | _ :: t => ends_with c t
  end.

(** [raw.match(/\{[\s\S]*\}$/)]: the match starts at the first brace
    that has a closing brace at the very end of the text after it, and
    runs to the end. *)
Fixpoint match_braces (s : jsstring) : option jsstring :=
  match s with
  | [] => None
  | c :: t =>
    if (c =? ch "{") && ends_with (ch "}") t then Some s else match_braces t
  end.

(** The [try]/[catch] that turns the raw answer into [sugestao]. *)
Definition interpret (raw : jsstring) : result value :=
  match JSON.parse raw with
  | Some v => Ok v
  | None =>
    match match_braces raw with
    | Some m0 =>
      match JSON.parse m0 with
      | Some v => Ok v
      | None => Throw SyntaxError
      end
    | None =>
      Ok (VObj [(js "texto",
                 VStr (if is_empty raw then js "sem resposta" else raw))])
    end
  end.

(* ================================================================== *)
(** * Routes *)

Section Routes.

Variable key_eq : value -> Z -> bool.

(** The configuration read from the environment. *)
Variables OLLAMA_HOST OLLAMA_MODEL : jsstring.

(** The remote endpoint, as [fetch] sees it. *)
Variable fetch : prompt -> fetch_result.

(** ** fetchExamsSummary *)

Definition fetchExamsSummary (d : database) (prontuario_id : value)
  : jsstring :=
  let rows := select_exames key_eq d prontuario_id in
  let lines := map summary_line rows in
  join [10] lines.

(** ** askOllama *)

Definition resp_ok (status : Z) : bool :=
  (200 <=? status)%Z && (status <=? 299)%Z.

Definition askOllama (p : prompt) : io jsstring :=
  fun log =>
    let log := log ++ [p] in
    match fetch p with
    | Rejected message => (Throw (Error message), log)
    | Responded status txt =>
      if negb (resp_ok status) then
        (Throw (Error (js "Ollama HTTP " ++ dec status ++ js " - " ++ txt)),
         log)
      else
        match JSON.parse txt with
        | None => (Throw SyntaxError, log)
        | Some VNull => (Throw TypeError, log)
        | Some data =>
          (call_trim (or_else (default (get data (js "response")) VNull)
                              (VStr [])),
           log)
        end
    end.

(** ** POST /ai-diagnostico *)

Definition ai_diagnostico (d : database) (req_body : option value)
  : response * list prompt :=
  let attempt : io response :=
    let body := body_of req_body in
    let sintomas := default (get body (js "sintomas")) (VStr []) in
    let anamnese := default (get body (js "anamnese")) (VStr []) in
    let prontuario_id := default (get body (js "prontuario_id")) VNull in
    let exames_resumo := default (get body (js "exames_resumo")) (VStr []) in
    s <- lift (call_trim sintomas) ;;
    missing <-
      (if is_empty s
       then a <- lift (call_trim anamnese) ;; ret (is_empty a)
       else ret false) ;;
    if missing : bool then
      ret (json_error 400 (js "Informe ao menos sintomas ou anamnese."))
    else
      sent <-
        (if truthy exames_resumo
         then t <- lift (call_trim exames_resumo) ;; ret (negb (is_empty t))
         else ret false) ;;
      examesBloco <-
        (if sent : bool then lift (call_trim exames_resumo)
         else if truthy prontuario_id
              then ret (fetchExamsSummary d prontuario_id)
              else ret []) ;;
      prompt <-
        lift (template
          {| SINTOMAS := or_else sintomas (VStr (js "(não informado)"));
             ANAMNESE := or_else anamnese (VStr (js "(não informada)"));
             EXAMES := if is_empty examesBloco
                       then js "(sem exames disponíveis)"
                       else examesBloco |}) ;;
      raw <- askOllama prompt ;;
      sugestao <- lift (interpret raw) ;;
      ret (json 200 (VObj [(js "sugestao", sugestao);
                           (js "model", VStr OLLAMA_MODEL);
                           (js "host", VStr OLLAMA_HOST)])) in
  let handled :=
    try_catch attempt
      (fun e => ret {| status := 502;
                       body := JsonIAError e OLLAMA_MODEL OLLAMA_HOST |}) in
  match handled [] with
  | (Ok r, log) => (r, log)
  | (Throw e, log) => ({| status := 500; body := Unhandled e |}, log)
  end.

(** ** POST /prontuario *)

Definition required_msg : jsstring :=
  js "Campos obrigatórios: nome, cpf, data_consulta, diagnostico".

Definition post_prontuario (d : database) (req_body : option value)
  : response * database :=
  let body := body_of req_body in
  let nome := get body (js "nome") in
  let cpf := get body (js "cpf") in
  let data_consulta := get body (js "data_consulta") in
  let diagnostico := get body (js "diagnostico") in
  let sintomas := default (get body (js "sintomas")) (VStr []) in
  let anamnese := default (get body (js "anamnese")) (VStr []) in
  let exames_solicitados :=
    default (get body (js "exames_solicitados")) (VArr []) in
  if negb (truthy_opt nome) || negb (truthy_opt cpf) ||
     negb (truthy_opt data_consulta) || negb (truthy_opt diagnostico)
  then (send 400 required_msg, d)
  else
    let examesStr :=
      if Array_isArray exames_solicitados
      then JSON.stringify exames_solicitados else js "[]" in
    match insert_prontuario d (bound nome) (bound cpf) (bound data_consulta)
                            (bound diagnostico) sintomas anamnese examesStr
    with
    | Failed message => (send 500 message, d)
    | Done lastID _ d' =>
      (json 201 (VObj [(js "message", VStr (js "Prontuário salvo!"));
                       (js "id", VNum (dec lastID))]), d')
    end.

(** ** PUT /prontuario/:id *)

Definition put_prontuario (d : database) (id : jsstring)
                          (req_body : option value) : response * database :=
  let body := body_of req_body in
  let nome := get body (js "nome") in
  let cpf := get body (js "cpf") in
  let data_consulta := get body (js "data_consulta") in
  let diagnostico := get body (js "diagnostico") in
  let sintomas := default (get body (js "sintomas")) (VStr []) in
  let anamnese := default (get body (js "anamnese")) (VStr []) in
  let exames_solicitados :=
    default (get body (js "exames_solicitados")) (VArr []) in
  if is_empty id then (send 400 (js "ID obrigatório para atualização"), d)
  else if negb (truthy_opt nome) || negb (truthy_opt cpf) ||
          negb (truthy_opt data_consulta) || negb (truthy_opt diagnostico)
  then (send 400 required_msg, d)
  else
    let examesStr :=
      if Array_isArray exames_solicitados
      then JSON.stringify exames_solicitados else js "[]" in
    match update_prontuario key_eq d (bound nome) (bound cpf)
            (bound data_consulta) (bound diagnostico) sintomas anamnese
            examesStr (VStr id)
    with
    | Failed message => (send 500 message, d)
    | Done _ changes d' =>
      if Nat.eqb changes 0
      then (send 404 (js "Prontuário não encontrado"), d')
      else ({| status := 200;
               body := JsonNumberId (js "Prontuário atualizado!") id |}, d')
    end.

(** ** DELETE /prontuario/:id *)

Definition delete_prontuario_route (d : database) (id : jsstring)
  : response * database :=
  if is_empty id then (send 400 (js "ID obrigatório para exclusão"), d)
  else
    match delete_prontuario key_eq d (VStr id) with
    | Failed message => (send 500 message, d)
    | Done _ changes d' =>
      if Nat.eqb changes 0
      then (send 404 (js "Prontuário não encontrado"), d')
      else ({| status := 200;
               body := JsonNumberId (js "Prontuário excluído!") id |}, d')
    end.

(** ** GET /prontuarios *)

Definition col_value (c : column) : value :=
  match c with
  | Some s => VStr s
  | None => VNull
  end.

(** A row as the driver hands it over. *)
Definition prontuario_props (r : Prontuario.row) : list (jsstring * value) :=
  [(js "id", VNum (dec (Prontuario.id r)));
   (js "nome", col_value (Prontuario.nome r));
   (js "cpf", col_value (Prontuario.cpf r));
   (js "data_consulta", col_value (Prontuario.data_consulta r));
   (js "diagnostico", col_value (Prontuario.diagnostico r));
   (js "sintomas", col_value (Prontuario.sintomas r));
   (js "anamnese", col_value (Prontuario.anamnese r));
   (js "exames_solicitados", col_value (Prontuario.exames_solicitados r))].

(** [JSON.parse(r.exames_solicitados || '[]')], or [[]] when it throws. *)
Definition decode_exames (c : column) : value :=
  match JSON.parse (col_text (col_or c (Some (js "[]")))) with
  | Some v => v
  | None => VArr []
  end.

Definition prontuario_view (r : Prontuario.row) : value :=
  VObj (obj_set (prontuario_props r) (js "exames_solicitados")
                (decode_exames (Prontuario.exames_solicitados r))).

Definition get_prontuarios (d : database) : response :=
  json 200 (VArr (map prontuario_view (select_prontuarios d))).

(** ** POST /exames/upload *)

Definition post_exames_upload (ts : Z) (now : jsstring) (d : database)
    (req_body : option value) (part : option jsstring)
  : response * database :=
  let req_file := upload_single ts part in
  let body := body_of req_body in
  let prontuario_id := get body (js "prontuario_id") in
  let tipo := default (get body (js "tipo")) (VStr []) in
  let observacoes := default (get body (js "observacoes")) (VStr []) in
  let data_anexo := default (get body (js "data_anexo")) (VStr []) in
  let data_resultado := default (get body (js "data_resultado")) (VStr []) in
  if negb (truthy_opt prontuario_id)
  then (json_error 400 (js "Informe prontuario_id"), d)
  else
    match req_file with
    | None =>
      (json_error 400 (jq "Arquivo não enviado (campo 'arquivo')"), d)
    | Some f =>
      let arquivo_path := js "/uploads/" ++ filename f in
      let dataFinal := or_else (or_else data_anexo data_resultado) (VStr []) in
      match insert_exame key_eq now d (bound prontuario_id) tipo observacoes
              (VStr arquivo_path) VNull (or_else dataFinal VNull)
      with
      | Failed message => (json_error 500 message, d)
      | Done lastID _ d' =>
        (json 201
           (VObj [(js "message", VStr (js "Exame anexado com sucesso"));
                  (js "id", VNum (dec lastID));
                  (js "arquivo_path", VStr arquivo_path);
                  (js "data_anexo", or_else dataFinal VNull)]), d')
      end
    end.

(** ** POST /exames/texto *)

Definition post_exames_texto (now : jsstring) (d : database)
    (req_body : option value) : response * database :=
  let body := body_of req_body in
  let prontuario_id := get body (js "prontuario_id") in
  let tipo := default (get body (js "tipo")) (VStr []) in
  let observacoes := default (get body (js "observacoes")) (VStr []) in
  let resultado_texto := default (get body (js "resultado_texto")) (VStr []) in
  let data_anexo := default (get body (js "data_anexo")) (VStr []) in
  let data_resultado := default (get body (js "data_resultado")) (VStr []) in
  if negb (truthy_opt prontuario_id)
  then (json_error 400 (js "Informe prontuario_id"), d)
  else
    match call_trim resultado_texto with
    | Throw e => ({| status := 500; body := Unhandled e |}, d)
    | Ok trimmed =>
      if is_empty trimmed
      then (json_error 400 (js "resultado_texto vazio"), d)
      else
        let dataFinal :=
          or_else (or_else data_anexo data_resultado) (VStr []) in
        match insert_exame key_eq now d (bound prontuario_id) tipo observacoes
                VNull resultado_texto (or_else dataFinal VNull)
        with
        | Failed message => (json_error 500 message, d)
        | Done lastID _ d' =>
          (json 201
             (VObj [(js "message", VStr (js "Resultado registrado"));
                    (js "id", VNum (dec lastID));
                    (js "data_anexo", or_else dataFinal VNull)]), d')
        end
    end.

End Routes.

(* ================================================================== *)
(** * The vocabulary of the specification *)

(** ** The response interpreter *)

(** [m] starts at the first opening brace of [raw] and runs to its last
    character, which is a closing brace. *)
Definition brace_suffix (raw m : jsstring) : Prop :=
  exists pre mid,
    raw = pre ++ m /\ m = ch "{" :: mid ++ [ch "}"] /\ ~ In (ch "{") pre.

(** ** The validation of the triage route *)

(** A field that is absent, or a string of white space only. *)
Definition blank_or_absent (o : option value) : Prop :=
  match o with
  | None => True
  | Some (VStr s) => forallb is_js_space s = true
  | Some _ => False
  end.

(** A field that is present and is not a string. *)
Definition non_string (o : option value) : Prop :=
  match o with
  | None | Some (VStr _) => False
  | Some _ => True
  end.

(** The answer to a request without symptoms and without anamnesis. *)
Definition missing_input : response :=
  json_error 400 (js "Informe ao menos sintomas ou anamnese.").

Section TriageAnswers.

Variables OLLAMA_HOST OLLAMA_MODEL : jsstring.
Variable fetch : prompt -> fetch_result.

(** The answer of the [catch] of the route. *)
Definition bad_gateway (e : exn) : response :=
  {| status := 502; body := JsonIAError e OLLAMA_MODEL OLLAMA_HOST |}.

(** The answer that carries a suggestion. *)
Definition reply (sugestao : value) : response :=
  json 200 (VObj [(js "sugestao", sugestao);
                  (js "model", VStr OLLAMA_MODEL);
                  (js "host", VStr OLLAMA_HOST)]).

(** What the route answers once the prompt [p] is built. *)
Definition after_prompt (p : prompt) : response * list prompt :=
  match askOllama fetch p [] with
  | (Ok raw, log) =>
    match interpret raw with
    | Ok v => (reply v, log)
    | Throw e => (bad_gateway e, log)
    end
  | (Throw e, log) => (bad_gateway e, log)
  end.

End TriageAnswers.

(** ** The exam summary *)

(** An attribute is present when its column holds a text that is not
    empty. *)
Definition present (c : column) : bool :=
  match c with
  | Some (_ :: _) => true
  | _ => false
  end.

(** The part of a line for one attribute: nothing when it is absent. *)
Definition labelled (label : jsstring) (c : column) : list jsstring :=
  match c with
  | Some ((_ :: _) as s) => [label ++ s]
  | _ => []
  end.

(** The parts of the line of an exam: the attributes that are present,
    in the fixed order, then the note when there is a file and no
    textual result. *)
Definition line_parts (r : Exame.row) : list jsstring :=
  labelled (js "Tipo: ") (Exame.tipo r) ++
  labelled (js "Data de anexo: ") (Exame.data_resultado r) ++
  labelled (js "Resultado textual: ") (Exame.resultado_texto r) ++
  labelled (js "Obs: ") (Exame.observacoes r) ++
  labelled (js "Arquivo: ") (Exame.arquivo_path r) ++
  (if present (Exame.arquivo_path r) &&
      negb (present (Exame.resultado_texto r))
   then [laudo_note] else []).

(** The line of an exam. *)
Definition line_spec (r : Exame.row) : jsstring :=
  js "- " ++ join (js " | ") (line_parts r).

(** [sub] occurs in [s]. *)
Definition contains (s sub : jsstring) : Prop :=
  exists pre post, s = pre ++ sub ++ post.

(** ** Records *)

(** The four fields every creation and update must carry. *)
Definition required_fields (req_body : option value) : Prop :=
  let body := body_of req_body in
  truthy_opt (get body (js "nome")) = true /\
  truthy_opt (get body (js "cpf")) = true /\
  truthy_opt (get body (js "data_consulta")) = true /\
  truthy_opt (get body (js "diagnostico")) = true.

(** A sequence of POST /prontuario requests, one after the other. *)
Fixpoint create_all (d : database) (reqs : list (option value))
  : list response * database :=
  match reqs with
  | [] => ([], d)
  | req :: rest =>
    let (answer, d1) := post_prontuario d req in
    let (answers, d2) := create_all d1 rest in
    (answer :: answers, d2)
  end.

(** The answer to a creation that got the key [id]. *)
Definition created (id : Z) : response :=
  json 201 (VObj [(js "message", VStr (js "Prontuário salvo!"));
                  (js "id", VNum (dec id))]).

(** The largest key the table holds or has ever held. *)
Definition high_water (d : database) : Z :=
  Z.max (seq_prontuarios d)
        (fold_right Z.max 0%Z (map Prontuario.id (prontuarios d))).

(** The answer to an update or a deletion that touched no record. *)
Definition not_found : response := send 404 (js "Prontuário não encontrado").

(** The answer to an update that touched a record. *)
Definition updated (id : jsstring) : response :=
  {| status := 200; body := JsonNumberId (js "Prontuário atualizado!") id |}.

(** ** Upload names *)

(** The characters of a decimal text. *)
Definition digit_or_minus (c : N) : Prop := is_digit c = true \/ c = ch "-".

(** The maximal runs of a text: its characters grouped while they stay
    on the same side of the class, each run with its side ([true] for
    the characters the class does not match). *)
Fixpoint runs (s : jsstring) : list (bool * jsstring) :=
  match s with
  | [] => []
  | c :: t =>
    match runs t with
    | (k, r) :: rest =>
      if Bool.eqb k (is_safe c) then (k, c :: r) :: rest
      else (is_safe c, [c]) :: (k, r) :: rest
    | [] => [(is_safe c, [c])]
    end
  end.

(** A run outside the class is kept, a run inside it becomes one
    underscore. *)
Definition replace_run (kr : bool * jsstring) : jsstring :=
  if fst kr then snd kr else [ch "_"].

(** The original name with every maximal run of characters outside
    word characters, dots and hyphens replaced by one underscore. *)
Definition replace_runs (s : jsstring) : jsstring :=
  List.concat (map replace_run (runs s)).

(** Two runs in a row lie on different sides of the class. *)
Fixpoint alternate (l : list (bool * jsstring)) : Prop :=
  match l with
  | a :: ((b :: _) as t) => fst a <> fst b /\ alternate t
  | _ => True
  end.

(* ================================================================== *)
(** * A sample deployment *)

(** Keys written in plain decimal, as a number or as a text. *)
Definition key_eq_decimal (v : value) (z : Z) : bool :=
  match v with
  | VNum tok | VStr tok => str_eqb tok (dec z)
  | _ => false
  end.

(** The host and the model the source falls back to. *)
Definition default_host : jsstring := js "http://127.0.0.1:11434".
Definition default_model : jsstring := js "deepseek-r1:8b".

Definition empty_db : database :=
  {| prontuarios := []; exames := []; seq_prontuarios := 0; seq_exames := 0 |}.

(** An endpoint that answers every prompt with status 200 and the given
    text as the [response] of its JSON body. *)
Definition answering (text : jsstring) (_ : prompt) : fetch_result :=
  Responded 200 (JSON.stringify (VObj [(js "response", VStr text)])).

(** The prompt built for a request with the symptom [febre] alone. *)
Definition febre_body : value := VObj [(js "sintomas", VStr (js "febre"))].
Definition febre_prompt : prompt :=
  {| SINTOMAS := VStr (js "febre");
     ANAMNESE := VStr (js "(não informada)");
     EXAMES := js "(sem exames disponíveis)" |}.

(** An exam that has a file and no textual result. *)
Definition upload_row : Exame.row :=
  {| Exame.id := 1; Exame.prontuario_id := 1;
     Exame.tipo := Some (js "RX"); Exame.observacoes := Some [];
     Exame.arquivo_path := Some (js "/uploads/1700000000000__rx.png");
     Exame.resultado_texto := None; Exame.data_resultado := None;
     Exame.created_at := js "2024-05-01 10:00:00" |}.

(** Two creation requests, each with the list of exams it asks for. *)
Definition two_creations : list (option value * list jsstring) :=
  [(Some (VObj [(js "nome", VStr (js "Ana")); (js "cpf", VStr (js "1"));
                (js "data_consulta", VStr (js "2024-05-01"));
                (js "diagnostico", VStr (js "gripe"));
                (js "exames_solicitados",
                 VArr [VStr (js "Hemograma"); VStr (js "RX tórax")])]),
    [js "Hemograma"; js "RX tórax"]);
   (Some (VObj [(js "nome", VStr (js "Bia")); (js "cpf", VStr (js "2"));
                (js "data_consulta", VStr (js "2024-05-02"));
                (js "diagnostico", VStr (js "asma"));
                (js "exames_solicitados", VArr [])]),
    [])].

(** A request with the required fields and a string where the list of
    exams is expected. *)
Definition string_exams_body : value :=
  VObj [(js "nome", VStr (js "Ana")); (js "cpf", VStr (js "1"));
        (js "data_consulta", VStr (js "2024-05-01"));
        (js "diagnostico", VStr (js "gripe"));
        (js "exames_solicitados", VStr (js "Hemograma"))].

(** A database with one record, whose key is 1. *)
Definition one_record_db : database :=
  snd (post_prontuario empty_db (Some string_exams_body)).

(* ================================================================== *)
(** * The other routes *)

Section MoreRoutes.

Variable key_eq : value -> Z -> bool.

(** ** GET /exames *)

(** A row of the query of GET /exames, as the driver hands it over. *)
Definition exame_props (r : Exame.row) : list (jsstring * value) :=
  [(js "id", VNum (dec (Exame.id r)));
   (js "tipo", col_value (Exame.tipo r));
   (js "observacoes", col_value (Exame.observacoes r));
   (js "arquivo_path", col_value (Exame.arquivo_path r));
   (js "resultado_texto", col_value (Exame.resultado_texto r));
   (js "data_resultado", col_value (Exame.data_resultado r));
   (js "created_at", VStr (Exame.created_at r))].

(** [{ ...r, data_anexo: r.data_resultado }] *)
Definition exame_view (r : Exame.row) : value :=
  VObj (obj_set (exame_props r) (js "data_anexo")
                (col_value (Exame.data_resultado r))).

(** [req_query] is [req.query]. *)
Definition get_exames (d : database) (req_query : option value) : response :=
  let query := body_of req_query in
  let prontuario_id := get query (js "prontuario_id") in
  if negb (truthy_opt prontuario_id)
  then json_error 400 (js "Informe prontuario_id")
  else json 200 (VArr (map exame_view
                           (select_exames key_eq d (bound prontuario_id)))).

(** ** The routes that write, as one step *)

Inductive request : Type :=
| POST_prontuario (req_body : option value)
| PUT_prontuario (id : jsstring) (req_body : option value)
| DELETE_prontuario (id : jsstring)
| POST_exames_upload (ts : Z) (now : jsstring) (req_body : option value)
                     (part : option jsstring)
| POST_exames_texto (now : jsstring) (req_body : option value).

Definition dispatch (req : request) (d : database) : response * database :=
  match req with
  | POST_prontuario req_body => post_prontuario d req_body
  | PUT_prontuario id req_body => put_prontuario key_eq d id req_body
  | DELETE_prontuario id => delete_prontuario_route key_eq d id
  | POST_exames_upload ts now req_body part =>
    post_exames_upload key_eq ts now d req_body part
  | POST_exames_texto now req_body => post_exames_texto key_eq now d req_body
  end.

(** The database after a sequence of requests. *)
Fixpoint run (reqs : list request) (d : database) : database :=
  match reqs with
  | [] => d
  | req :: rest => run rest (snd (dispatch req d))
  end.

End MoreRoutes.

(** ** GET /health *)

Definition health : response := json 200 (VObj [(js "ok", VBool true)]).

(** ** The 404 middleware *)

(** [s.startsWith(prefix)] *)
Fixpoint starts_with (prefix s : jsstring) : bool :=
  match prefix, s with
  | [], _ => true
  | a :: prefix', b :: s' => (a =? b) && starts_with prefix' s'
  | _ :: _, [] => false
  end.

(** The last middleware: [None] is [next()], which hands the request to
    the rest of the stack. *)
Definition not_found_middleware (method path : jsstring) : option response :=
  if starts_with (js "/api") path ||
     starts_with (js "/prontuario") path ||
     starts_with (js "/prontuarios") path ||
     starts_with (js "/ai-") path ||
     starts_with (js "/exames") path
  then Some (send 404 (js "Rota não encontrada: " ++ method ++ js " " ++ path))
  else None.

(* ================================================================== *)
(** * The first revision of the triage route *)

(** [index.js] opens with an earlier revision of the application; its
    triage route and its [askOllama] differ from the current ones. *)
Module Rev1.

(** [resp.ok] *)
Definition resp_ok (status : Z) : bool :=
  (200 <=? status)%Z && (status <=? 299)%Z.

Definition unavailable : jsstring := js "IA não disponível (DeepSeek offline).".
Definition no_answer : jsstring := js "Não foi possível gerar uma resposta.".

(** The body of the [try] of [askOllama]. *)
Definition ask (outcome : fetch_result) : result jsstring :=
  match outcome with
  | Rejected message => Throw (Error message)
  | Responded status txt =>
    if negb (resp_ok status) then Throw (Error (js "HTTP " ++ dec status))
    else
      match JSON.parse txt with
      | None => Throw SyntaxError
      | Some VNull => Throw TypeError
      | Some data =>
        match get data (js "response") with
        | None | Some VNull => Ok no_answer
        | Some (VStr s) => Ok (if is_empty (trim s) then no_answer else trim s)
        | Some _ => Throw TypeError
        end
      end
  end.

(** [askOllama]: whatever is thrown is caught. *)
Definition askOllama (fetch : jsstring -> fetch_result) (prompt : jsstring)
  : jsstring :=
  match ask (fetch prompt) with
  | Ok answer => answer
  | Throw _ => unavailable
  end.

(** [String.prototype.trimEnd], through [trim_start]. *)
Definition trim_end (s : jsstring) : jsstring := rev (trim_start (rev s)).

(** The [try]/[catch] around [JSON.parse]. *)
Definition interpret (resposta : jsstring) : value :=
  match JSON.parse resposta with
  | Some v => v
  | None => VObj [(js "texto", VStr resposta)]
  end.

(** POST /ai-diagnostico.  The handler is an [async] function with no
    [try] of its own: [Throw] is its promise rejected, with no answer
    sent.  The prompt is the fixed text followed by the symptoms, the
    whole trimmed; it is modelled by the symptoms it ends with. *)
Definition ai_diagnostico (fetch : jsstring -> fetch_result)
    (req_body : option value) : result response :=
  match req_body with
  | None | Some VNull => Throw TypeError
  | Some body =>
    let sintomas := default (get body (js "sintomas")) (VStr []) in
    match call_trim sintomas with
    | Throw e => Throw e
    | Ok trimmed =>
      if is_empty trimmed
      then Ok (json_error 400 (js "Informe os sintomas para análise."))
      else
        match sintomas with
        | VStr s =>
          let prompt := trim_end s in
          let resposta := askOllama fetch prompt in
          let sugestao := interpret resposta in
          Ok (json 200 (VObj [(js "sugestao", sugestao)]))
        | _ => Throw TypeError
        end
    end
  end.

End Rev1.

(* ================================================================== *)
(** * More vocabulary *)

(** ** Databases the routes can produce *)

(** Keys are given once, none is above the table's entry in
    [sqlite_sequence], and every exam belongs to a stored record. *)
Definition wf_db (d : database) : Prop :=
  NoDup (map Prontuario.id (prontuarios d)) /\
  Forall (fun r => Prontuario.id r <= seq_prontuarios d)%Z (prontuarios d) /\
  NoDup (map Exame.id (exames d)) /\
  Forall (fun e => Exame.id e <= seq_exames d)%Z (exames d) /\
  Forall (fun e => In (Exame.prontuario_id e)
                      (map Prontuario.id (prontuarios d))) (exames d) /\
  (0 <= seq_prontuarios d)%Z /\ (0 <= seq_exames d)%Z.

(** The answer to a deletion that removed a record. *)
Definition deleted (id : jsstring) : response :=
  {| status := 200; body := JsonNumberId (js "Prontuário excluído!") id |}.

(** The query of GET /exames?prontuario_id=[id]. *)
Definition exames_query (id : jsstring) : option value :=
  Some (VObj [(js "prontuario_id", VStr id)]).

(** ** JSON values that print and read back *)

(** What may follow a value inside a JSON text: nothing, a comma or a
    closing bracket or brace. *)
Definition sep (rest : jsstring) : Prop :=
  match rest with
  | [] => True
  | c :: _ => c = ch "," \/ c = ch "]" \/ c = ch "}"
  end.

(** An integer token as [Number::toString] prints it: no leading zero, no
    minus zero, at most 15 digits.  [JSON.stringify] prints the number
    such a token denotes digit for digit. *)
Definition canonical_integer (tok : jsstring) : bool :=
  let body :=
    match tok with
    | c :: t => if c =? ch "-" then t else tok
    | [] => []
    end in
  match body with
  | [] => false
  | h :: ds =>
    if h =? ch "0" then
      match tok with
      | [_] => true
      | _ => false
      end
    else is_digit h && forallb is_digit ds && (List.length body <=? 15)%nat
  end.

(** A key made of digits only.  The engine lists the keys that are array
    indices before the others, whatever the order of insertion; they are
    among these. *)
Definition index_like (k : jsstring) : bool :=
  negb (is_empty k) && forallb is_digit k.

(** A value that [JSON.stringify] prints as it is modelled: its numbers
    are canonical integers and its objects hold no key twice and no
    key made of digits. *)
Fixpoint wf_value (v : value) : Prop :=
  match v with
  | VNum tok => canonical_integer tok = true
  | VArr items =>
    (fix all (l : list value) : Prop :=
       match l with
       | [] => True
       | x :: t => wf_value x /\ all t
       end) items
  | VObj props =>
    NoDup (map fst props) /\
    Forall (fun k => index_like k = false) (map fst props) /\
    (fix all (l : list (jsstring * value)) : Prop :=
       match l with
       | [] => True
       | (_, x) :: t => wf_value x /\ all t
       end) props
  | _ => True
  end.

(** The text of a value, followed by a separator, is read back as the
    value, and the separator is left. *)
Definition reads_back (v : value) : Prop :=
  forall rest, sep rest ->
  exists f0, forall f, (f0 <= f)%nat ->
    JSON.parse_value f (JSON.stringify v ++ rest) = JSON.Parsed v rest.

(** The text of a property. *)
Definition member (kv : jsstring * value) : jsstring :=
  let (k, x) := kv in JSON.quote k ++ ch ":" :: JSON.stringify x.

(** ** Upload names *)

(** A name that needs no replacement. *)
Definition all_safe (s : jsstring) : Prop := Forall (fun c => is_safe c = true) s.

(* ================================================================== *)
(** * More of the sample deployment *)

(** An endpoint that cannot be reached. *)
Definition refusing (message : jsstring) (_ : prompt) : fetch_result :=
  Rejected message.

(** A triage request that carries its own summary of exams, and the
    prompt built for it. *)
Definition resumo_body : value :=
  VObj [(js "sintomas", VStr (js "febre"));
        (js "exames_resumo", VStr (js "  Hb 12  "))].
Definition resumo_prompt : prompt :=
  {| SINTOMAS := VStr (js "febre");
     ANAMNESE := VStr (js "(não informada)");
     EXAMES := js "Hb 12" |}.

(** A textual result and an upload for the record 1. *)
Definition texto_body : value :=
  VObj [(js "prontuario_id", VStr (js "1"));
        (js "resultado_texto", VStr (js " Hb 12 "))].
Definition upload_body : value := VObj [(js "prontuario_id", VStr (js "1"))].
Definition sample_now : jsstring := js "2024-05-01 10:00:00".

(** A creation whose [nome] is a number that binary64 rounds to zero. *)
Definition tiny_nome_body : value :=
  VObj [(js "nome", VNum (js "1e-400")); (js "cpf", VStr (js "1"));
        (js "data_consulta", VStr (js "2024-05-01"));
        (js "diagnostico", VStr (js "gripe"))].

(** A creation with the required fields alone, and a sequence of
    creations: two with a list of strings, one with a string where the
    list is expected, one without the field. *)
Definition plain_body : value :=
  VObj [(js "nome", VStr (js "Caio")); (js "cpf", VStr (js "3"));
        (js "data_consulta", VStr (js "2024-05-03"));
        (js "diagnostico", VStr (js "rinite"))].
Definition four_creations : list (option value) :=
  map fst two_creations ++ [Some string_exams_body; Some plain_body].

(** Two textual results for the record 1. *)
Definition primeiro_body : value :=
  VObj [(js "prontuario_id", VStr (js "1"));
        (js "resultado_texto", VStr (js "primeiro"))].
Definition segundo_body : value :=
  VObj [(js "prontuario_id", VStr (js "1"));
        (js "resultado_texto", VStr (js "segundo"))].

(** The record 1 with the two results, stored in the same second. *)
Definition two_exams_db : database :=
  run key_eq_decimal
    [POST_prontuario (Some string_exams_body);
     POST_exames_texto sample_now (Some primeiro_body);
     POST_exames_texto sample_now (Some segundo_body)] empty_db.

(** An exam whose textual result is the text of the note. *)
Definition note_row : Exame.row :=
  {| Exame.id := 1; Exame.prontuario_id := 1;
     Exame.tipo := None; Exame.observacoes := None;
     Exame.arquivo_path := None;
     Exame.resultado_texto := Some laudo_note; Exame.data_resultado := None;
     Exame.created_at := js "2024-05-01 10:00:00" |}.

(** A creation whose list of exams holds more than strings. *)
Definition mixed_list : list value :=
  [VStr (js "Hemograma"); VNum (js "3"); VNull; VArr [VBool true];
   VObj [(js "tipo", VStr (js "RX")); (js "urgente", VBool false)]].
Definition mixed_exams_body : value :=
  VObj [(js "nome", VStr (js "Ana")); (js "cpf", VStr (js "1"));
        (js "data_consulta", VStr (js "2024-05-01"));
        (js "diagnostico", VStr (js "gripe"));
        (js "exames_solicitados", VArr mixed_list)].

(* ================================================================== *)
(** * Facts about the runtime *)

Ltac bprop :=
  repeat rewrite ?andb_true_iff, ?orb_true_iff, ?negb_true_iff,
    ?andb_false_iff, ?orb_false_iff, ?negb_false_iff,
    ?N.eqb_eq, ?N.eqb_neq, ?N.leb_le, ?N.ltb_lt, ?N.leb_gt, ?N.ltb_ge in *.

Lemma str_eqb_eq a b : str_eqb a b = true <-> a = b.
Proof.
  unfold str_eqb. destruct (list_eq_dec N.eq_dec a b); split; congruence.
Qed.

Lemma str_eqb_refl a : str_eqb a a = true.
Proof. now apply str_eqb_eq. Qed.

(** Character constants as numbers, for [lia]. *)
Ltac charvals := unfold ch, dquote in *; simpl N_of_ascii in *.

Module JSONFacts.
Import JSON.

(** ** Strings survive [stringify] then [parse] *)

Lemma hex_val_hex_digit d : d < 16 -> hex_val (hex_digit d) = Some d.
Proof.
  intros H.
  assert (E : d = 0 \/ d = 1 \/ d = 2 \/ d = 3 \/ d = 4 \/ d = 5 \/ d = 6 \/
              d = 7 \/ d = 8 \/ d = 9 \/ d = 10 \/ d = 11 \/ d = 12 \/
              d = 13 \/ d = 14 \/ d = 15) by lia.
  repeat (destruct E as [-> | E]; [reflexivity|]). subst d. reflexivity.
Qed.

Lemma parse_chars_unicode h1 h2 h3 h4 r :
  parse_chars (ch "\" :: ch "u" :: h1 :: h2 :: h3 :: h4 :: r) =
  match hex4 h1 h2 h3 h4 with
  | Some u => cons_char u (parse_chars r)
  | None => None
  end.
Proof. reflexivity. Qed.

Lemma parse_unicode_escape c r :
  c < 65536 ->
  parse_chars (unicode_escape c ++ r) = cons_char c (parse_chars r).
Proof.
  intros H. unfold unicode_escape.
  change ([?a; ?b; ?h1; ?h2; ?h3; ?h4] ++ r)
    with (a :: b :: h1 :: h2 :: h3 :: h4 :: r).
  rewrite parse_chars_unicode. unfold hex4.
  rewrite !hex_val_hex_digit by (apply N.mod_lt; discriminate).
  f_equal.
  replace (c / 4096) with (c / 16 / 16 / 16)
    by (rewrite !N.Div0.div_div; reflexivity).
  replace (c / 256) with (c / 16 / 16)
    by (rewrite !N.Div0.div_div; reflexivity).
  pose proof (N.div_mod c 16 ltac:(discriminate)).
  pose proof (N.div_mod (c / 16) 16 ltac:(discriminate)).
  pose proof (N.div_mod (c / 16 / 16) 16 ltac:(discriminate)).
  pose proof (N.div_mod (c / 16 / 16 / 16) 16 ltac:(discriminate)).
  assert (c / 16 / 16 / 16 / 16 = 0)
    by (rewrite !N.Div0.div_div; now apply N.div_small).
  lia.
Qed.

Lemma parse_chars_plain c r :
  32 <= c -> c <> dquote -> c <> ch "\" ->
  parse_chars (c :: r) = cons_char c (parse_chars r).
Proof.
  intros H1 H2 H3. simpl.
  apply N.eqb_neq in H2, H3. rewrite H2, H3.
  apply N.ltb_ge in H1. now rewrite H1.
Qed.

Lemma parse_quote_unit c r :
  is_high_surrogate c = false ->
  parse_chars (quote_unit c ++ r) = cons_char c (parse_chars r).
Proof.
  intros Hh. unfold quote_unit.
  destruct (c =? 8) eqn:E1; [apply N.eqb_eq in E1; subst; reflexivity|].
  destruct (c =? 9) eqn:E2; [apply N.eqb_eq in E2; subst; reflexivity|].
  destruct (c =? 10) eqn:E3; [apply N.eqb_eq in E3; subst; reflexivity|].
  destruct (c =? 12) eqn:E4; [apply N.eqb_eq in E4; subst; reflexivity|].
  destruct (c =? 13) eqn:E5; [apply N.eqb_eq in E5; subst; reflexivity|].
  destruct (c =? dquote) eqn:E6; [apply N.eqb_eq in E6; subst; reflexivity|].
  destruct (c =? ch "\") eqn:E7; [apply N.eqb_eq in E7; subst; reflexivity|].
  rewrite Hh.
  destruct ((c <? 32) || false || is_low_surrogate c) eqn:E8.
  - apply parse_unicode_escape.
    unfold is_low_surrogate in E8. bprop. lia.
  - apply parse_chars_plain; unfold is_low_surrogate in E8; bprop;
      try assumption; lia.
Qed.

Lemma quote_chars_cons c t :
  quote_chars (c :: t) =
  if is_high_surrogate c then
    match t with
    | d :: t' =>
      if is_low_surrogate d then c :: d :: quote_chars t'
      else unicode_escape c ++ quote_chars t
    | [] => unicode_escape c
    end
  else quote_unit c ++ quote_chars t.
Proof. reflexivity. Qed.

Lemma parse_quote_chars s :
  forall rest, parse_chars (quote_chars s ++ dquote :: rest) = Some (s, rest).
Proof.
  enough (H : forall n s, (List.length s <= n)%nat -> forall rest,
             parse_chars (quote_chars s ++ dquote :: rest) = Some (s, rest))
    by (intros; eapply H; reflexivity).
  clear s. induction n as [|n IH]; intros s Hn rest;
    destruct s as [|c t]; simpl in Hn; try reflexivity; try lia.
  rewrite quote_chars_cons. destruct (is_high_surrogate c) eqn:Hh.
  - assert (Hc : 32 <= c /\ c <> dquote /\ c <> ch "\" /\ c < 65536)
      by (unfold is_high_surrogate in *; bprop; charvals; lia).
    destruct t as [|d t'].
    + rewrite parse_unicode_escape by apply Hc. reflexivity.
    + destruct (is_low_surrogate d) eqn:Hl.
      * assert (Hd : 32 <= d /\ d <> dquote /\ d <> ch "\")
          by (unfold is_low_surrogate in *; bprop; charvals; lia).
        simpl app. rewrite parse_chars_plain by apply Hc.
        rewrite parse_chars_plain by apply Hd.
        rewrite IH by (simpl in Hn; lia). reflexivity.
      * rewrite <- app_assoc, parse_unicode_escape by apply Hc.
        rewrite IH by lia. reflexivity.
  - rewrite <- app_assoc, parse_quote_unit by exact Hh.
    rewrite IH by lia. reflexivity.
Qed.

Lemma parse_value_quote f s rest :
  parse_value (S f) (quote s ++ rest) = Parsed (VStr s) rest.
Proof.
  unfold quote.
  change (parse_value (S f) ((dquote :: quote_chars s ++ [dquote]) ++ rest))
    with (match parse_chars ((quote_chars s ++ [dquote]) ++ rest) with
          | Some (str, r) => Parsed (VStr str) r
          | None => Invalid
          end).
  rewrite <- app_assoc. simpl app. now rewrite parse_quote_chars.
Qed.

Lemma parse_elements_S f s acc :
  parse_elements (S f) s acc =
  match parse_value f s with
  | Parsed v rest =>
    match skip_ws rest with
    | c :: t =>
      if c =? ch "," then parse_elements f t (acc ++ [v])
      else if c =? ch "]" then Parsed (VArr (acc ++ [v])) t
      else Invalid
    | [] => Invalid
    end
  | Invalid => Invalid
  | OutOfFuel => OutOfFuel
  end.
Proof. reflexivity. Qed.

(** The elements of a printed array of strings are read back, with one
    unit of fuel for each and one to spare. *)
Lemma parse_elements_strings l :
  forall f acc rest, l <> [] -> (List.length l < f)%nat ->
  parse_elements f (join [ch ","] (map quote l) ++ ch "]" :: rest) acc =
  Parsed (VArr (acc ++ map VStr l)) rest.
Proof.
  induction l as [|s l IH]; intros f acc rest Hne Hf; [congruence|].
  destruct f as [|f]; [simpl in Hf; lia|].
  destruct f as [|f]; [simpl in Hf; lia|].
  rewrite parse_elements_S.
  destruct l as [|s' l].
  - simpl join. rewrite parse_value_quote. reflexivity.
  - change (join [ch ","] (map quote (s :: s' :: l)))
      with (quote s ++ [ch ","] ++ join [ch ","] (map quote (s' :: l))).
    rewrite <- !app_assoc. rewrite parse_value_quote.
    change (skip_ws ([ch ","] ++
              join [ch ","] (map quote (s' :: l)) ++ ch "]" :: rest))
      with (ch "," :: (join [ch ","] (map quote (s' :: l)) ++ ch "]" :: rest)).
    cbv beta iota. rewrite N.eqb_refl.
    rewrite IH by (simpl in *; try congruence; lia).
    now rewrite <- app_assoc.
Qed.

Lemma quote_join_length l :
  (2 * List.length l <= List.length (join [ch ","] (map quote l)) + 1)%nat.
Proof.
  induction l as [|s l IH]; [simpl; lia|].
  destruct l as [|s' l].
  - simpl. rewrite length_app. simpl. lia.
  - change (join [ch ","] (map quote (s :: s' :: l)))
      with (quote s ++ [ch ","] ++ join [ch ","] (map quote (s' :: l))).
    change (List.length (s :: s' :: l)) with (S (List.length (s' :: l))).
    generalize dependent (join [ch ","] (map quote (s' :: l))).
    intros rest IH. unfold quote. simpl List.length.
    rewrite !length_app. simpl List.length in *. lia.
Qed.

(** The round trip of a list of strings through [stringify] and
    [parse]. *)
Lemma parse_stringify_strings l :
  parse (stringify (VArr (map VStr l))) = Some (VArr (map VStr l)).
Proof.
  destruct l as [|s l]; [reflexivity|].
  unfold parse.
  change (stringify (VArr (map VStr (s :: l))))
    with (ch "[" :: join [ch ","] (map stringify (map VStr (s :: l)))
                 ++ [ch "]"]).
  rewrite map_map. change (fun x => stringify (VStr x)) with quote.
  set (text := join [ch ","] (map quote (s :: l))).
  assert (Hlen : (2 * List.length (s :: l) <= List.length text + 1)%nat)
    by apply quote_join_length.
  assert (Hq : exists t, text = dquote :: t).
  { unfold text. destruct l; simpl; unfold quote; simpl; eauto. }
  destruct Hq as [t Ht].
  replace (2 * List.length (ch "[" :: text ++ [ch "]"]) + 2)%nat
    with (S (2 * List.length (ch "[" :: text ++ [ch "]"]) + 1))%nat by lia.
  set (f := (2 * List.length (ch "[" :: text ++ [ch "]"]) + 1)%nat).
  assert (Hf : (List.length (s :: l) < f)%nat).
  { unfold f. simpl List.length in *. rewrite length_app. simpl. lia. }
  change (parse_value (S f) (ch "[" :: text ++ [ch "]"]))
    with (match skip_ws (text ++ [ch "]"]) with
          | c' :: t' =>
            if c' =? ch "]" then Parsed (VArr []) t'
            else parse_elements f (c' :: t') []
          | [] => Invalid
          end).
  rewrite Ht.
  change (skip_ws ((dquote :: t) ++ [ch "]"])) with (dquote :: t ++ [ch "]"]).
  change (dquote =? ch "]") with false. cbv iota.
  change (dquote :: t ++ [ch "]"]) with ((dquote :: t) ++ [ch "]"]).
  rewrite <- Ht. unfold text.
  rewrite parse_elements_strings by (congruence || exact Hf).
  reflexivity.
Qed.

(** ** The fuel of [parse] is enough *)

Lemma skip_ws_length s : (List.length (skip_ws s) <= List.length s)%nat.
Proof.
  induction s as [|c t IH]; simpl; [lia|].
  destruct (is_ws c); simpl; lia.
Qed.

Lemma parse_chars_length s :
  forall k rest, parse_chars s = Some (k, rest) ->
  (List.length rest < List.length s)%nat.
Proof.
  enough (H : forall n s, (List.length s <= n)%nat -> forall k rest,
             parse_chars s = Some (k, rest) ->
             (List.length rest < List.length s)%nat)
    by (intros; eapply H; eauto).
  clear s. induction n as [|n IH]; intros s Hn k rest H;
    destruct s as [|c t]; simpl in Hn; try discriminate; try lia.
  simpl in H.
  destruct (c =? dquote); [injection H as <- <-; simpl; lia|].
  destruct (c =? ch "\").
  - destruct t as [|e t']; [discriminate|].
    destruct (e =? ch "u").
    + destruct t' as [|h1 [|h2 [|h3 [|h4 t'']]]]; try discriminate.
      destruct (hex4 h1 h2 h3 h4); [|discriminate].
      destruct (parse_chars t'') as [[k' r']|] eqn:E; [|discriminate].
      injection H as <- <-. apply IH in E; simpl in *; lia.
    + destruct (simple_escape e); [|discriminate].
      destruct (parse_chars t') as [[k' r']|] eqn:E; [|discriminate].
      injection H as <- <-. apply IH in E; simpl in *; lia.
  - destruct (c <? 32); [discriminate|].
    destruct (parse_chars t) as [[k' r']|] eqn:E; [|discriminate].
    injection H as <- <-. apply IH in E; simpl in *; lia.
Qed.

Lemma digits_length s :
  forall ds rest, digits s = (ds, rest) ->
  (List.length rest <= List.length s)%nat.
Proof.
  induction s as [|c t IH]; intros ds rest H; simpl in H.
  - injection H as <- <-. simpl; lia.
  - destruct (is_digit c).
    + destruct (digits t) as [ds' r'] eqn:E. injection H as <- <-.
      specialize (IH _ _ eq_refl). simpl; lia.
    + injection H as <- <-. simpl; lia.
Qed.

Lemma parse_int_length s tok rest :
  parse_int s = Some (tok, rest) -> (List.length rest < List.length s)%nat.
Proof.
  unfold parse_int. intros H.
  assert (G : forall sign s1, (List.length s1 <= List.length s)%nat ->
            match s1 with
            | d :: t =>
              if d =? ch "0" then Some (sign ++ [d], t)
              else if is_digit d then
                let (ds, rest) := digits t in Some (sign ++ d :: ds, rest)
              else None
            | [] => None
            end = Some (tok, rest) ->
            (List.length rest < List.length s)%nat).
  { intros sign s1 Hl G. destruct s1 as [|d t]; [discriminate|].
    simpl in Hl. destruct (d =? ch "0").
    - injection G as <- <-. lia.
    - destruct (is_digit d); [|discriminate].
      destruct (digits t) as [ds r] eqn:E. injection G as <- <-.
      apply digits_length in E. lia. }
  destruct s as [|c t]; [discriminate|].
  destruct (c =? ch "-").
  - apply (G [c] t); [simpl; lia | exact H].
  - apply (G [] (c :: t)); [simpl; lia | exact H].
Qed.

Lemma parse_frac_length s f rest :
  parse_frac s = Some (f, rest) -> (List.length rest <= List.length s)%nat.
Proof.
  unfold parse_frac. intros H. destruct s as [|c t].
  - injection H as <- <-. lia.
  - destruct (c =? ch ".").
    + destruct (digits t) as [[|d ds] r] eqn:E; [discriminate|].
      injection H as <- <-. apply digits_length in E. simpl; lia.
    + injection H as <- <-. lia.
Qed.

Lemma parse_exp_length s e rest :
  parse_exp s = Some (e, rest) -> (List.length rest <= List.length s)%nat.
Proof.
  unfold parse_exp. intros H. destruct s as [|c t].
  - injection H as <- <-. lia.
  - destruct ((c =? ch "e") || (c =? ch "E")).
    + destruct t as [|g u].
      * simpl in H. discriminate.
      * destruct ((g =? ch "+") || (g =? ch "-")).
        -- destruct (digits u) as [[|d ds] r] eqn:E; [discriminate|].
           injection H as <- <-. apply digits_length in E. simpl; lia.
        -- destruct (digits (g :: u)) as [[|d ds] r] eqn:E; [discriminate|].
           injection H as <- <-. apply digits_length in E. simpl in *; lia.
    + injection H as <- <-. lia.
Qed.

Lemma parse_number_length s tok rest :
  parse_number s = Some (tok, rest) -> (List.length rest < List.length s)%nat.
Proof.
  unfold parse_number. intros H.
  destruct (parse_int s) as [[i s1]|] eqn:E1; [|discriminate].
  destruct (parse_frac s1) as [[f s2]|] eqn:E2; [|discriminate].
  destruct (parse_exp s2) as [[e s3]|] eqn:E3; [|discriminate].
  injection H as <- <-.
  apply parse_int_length in E1. apply parse_frac_length in E2.
  apply parse_exp_length in E3. lia.
Qed.

Lemma strip_prefix_length w :
  forall s rest, strip_prefix w s = Some rest ->
  (List.length rest <= List.length s)%nat.
Proof.
  induction w as [|a w IH]; intros s rest H; simpl in H.
  - injection H as <-. lia.
  - destruct s as [|b s']; [discriminate|].
    destruct (a =? b); [|discriminate]. apply IH in H. simpl; lia.
Qed.

Lemma parse_value_S f s :
  parse_value (S f) s =
  match skip_ws s with
  | [] => Invalid
  | c :: t =>
    if c =? ch "{" then
      match skip_ws t with
      | c' :: t' =>
        if c' =? ch "}" then Parsed (VObj []) t'
        else parse_members f (c' :: t') []
      | [] => Invalid
      end
    else if c =? ch "[" then
      match skip_ws t with
      | c' :: t' =>
        if c' =? ch "]" then Parsed (VArr []) t'
        else parse_elements f (c' :: t') []
      | [] => Invalid
      end
    else if c =? dquote then
      match parse_chars t with
      | Some (str, rest) => Parsed (VStr str) rest
      | None => Invalid
      end
    else if c =? ch "t" then
      match strip_prefix (js "rue") t with
      | Some rest => Parsed (VBool true) rest
      | None => Invalid
      end
    else if c =? ch "f" then
      match strip_prefix (js "alse") t with
      | Some rest => Parsed (VBool false) rest
      | None => Invalid
      end
    else if c =? ch "n" then
      match strip_prefix (js "ull") t with
      | Some rest => Parsed VNull rest
      | None => Invalid
      end
    else
      match parse_number (c :: t) with
      | Some (tok, rest) => Parsed (VNum tok) rest
      | None => Invalid
      end
  end.
Proof. reflexivity. Qed.

Lemma parse_members_S f s acc :
  parse_members (S f) s acc =
  match skip_ws s with
  | q :: t =>
    if q =? dquote then
      match parse_chars t with
      | Some (key, rest) =>
        match skip_ws rest with
        | c :: t' =>
          if c =? ch ":" then
            match parse_value f t' with
            | Parsed v rest' =>
              match skip_ws rest' with
              | c' :: t'' =>
                if c' =? ch "," then parse_members f t'' (obj_set acc key v)
                else if c' =? ch "}" then
                  Parsed (VObj (obj_set acc key v)) t''
                else Invalid
              | [] => Invalid
              end
            | Invalid => Invalid
            | OutOfFuel => OutOfFuel
            end
          else Invalid
        | [] => Invalid
        end
      | None => Invalid
      end
    else Invalid
  | [] => Invalid
  end.
Proof. reflexivity. Qed.

(** Case analysis on the tests of a hypothesis, keeping the equations. *)
Ltac break H :=
  repeat match type of H with
         | context [match ?x with _ => _ end] =>
           destruct x eqn:?; try discriminate H
         end.

(** What the equations collected by [break] say about lengths. *)
Ltac lengths :=
  repeat match goal with
         | E : skip_ws ?s = _ |- _ =>
           let L := fresh "L" in
           pose proof (skip_ws_length s) as L; rewrite E in L; clear E
         | E : parse_chars _ = Some _ |- _ => apply parse_chars_length in E
         | E : parse_number _ = Some _ |- _ => apply parse_number_length in E
         | E : strip_prefix _ _ = Some _ |- _ => apply strip_prefix_length in E
         end;
  simpl List.length in *.

(** Every parser consumes at least one character. *)
Lemma parse_consumes fuel :
  (forall s v rest, parse_value fuel s = Parsed v rest ->
      (List.length rest < List.length s)%nat) /\
  (forall s acc v rest, parse_elements fuel s acc = Parsed v rest ->
      (List.length rest < List.length s)%nat) /\
  (forall s acc v rest, parse_members fuel s acc = Parsed v rest ->
      (List.length rest < List.length s)%nat).
Proof.
  induction fuel as [|f (IHv & IHe & IHm)];
    [repeat split; intros; discriminate|].
  repeat split.
  - intros s v rest H. rewrite parse_value_S in H. break H;
      try (injection H as <- <-); try apply IHe in H; try apply IHm in H;
      lengths; lia.
  - intros s acc v rest H. rewrite parse_elements_S in H. break H;
      try (injection H as <- <-); try apply IHe in H;
      match goal with E : parse_value _ _ = _ |- _ => apply IHv in E end;
      lengths; lia.
  - intros s acc v rest H. rewrite parse_members_S in H. break H;
      try (injection H as <- <-); try apply IHm in H;
      match goal with E : parse_value _ _ = _ |- _ => apply IHv in E end;
      lengths; lia.
Qed.

Lemma parse_value_consumes fuel s v rest :
  parse_value fuel s = Parsed v rest -> (List.length rest < List.length s)%nat.
Proof. apply parse_consumes. Qed.

(** With more fuel than twice the length of the text, no parser stops
    for lack of fuel. *)
Lemma parse_fuel fuel :
  (forall s, (2 * List.length s < fuel)%nat ->
      parse_value fuel s <> OutOfFuel) /\
  (forall s acc, (2 * List.length s + 1 < fuel)%nat ->
      parse_elements fuel s acc <> OutOfFuel) /\
  (forall s acc, (2 * List.length s + 1 < fuel)%nat ->
      parse_members fuel s acc <> OutOfFuel).
Proof.
  induction fuel as [|f (IHv & IHe & IHm)];
    [repeat split; intros; lia|].
  repeat split.
  - intros s Hf H. rewrite parse_value_S in H. break H.
    + apply IHm in H; [exact H|]. lengths. lia.
    + apply IHe in H; [exact H|]. lengths. lia.
  - intros s acc Hf H. rewrite parse_elements_S in H. break H.
    + match goal with E : parse_value _ _ = _ |- _ =>
        apply parse_value_consumes in E end.
      apply IHe in H; [exact H|]. lengths. lia.
    + match goal with E : parse_value _ _ = _ |- _ =>
        apply IHv in E; [exact E|] end. lia.
  - intros s acc Hf H. rewrite parse_members_S in H. break H.
    + match goal with E : parse_value _ _ = _ |- _ =>
        apply parse_value_consumes in E end.
      apply IHm in H; [exact H|]. lengths. lia.
    + match goal with E : parse_value _ _ = _ |- _ =>
        apply IHv in E; [exact E|] end. lengths. lia.
Qed.

(** [parse] never fails for lack of fuel: when it gives [None], the
    text is not a JSON text. *)
Lemma parse_fuel_enough text :
  parse_value (2 * List.length text + 2) text <> OutOfFuel.
Proof. apply parse_fuel. lia. Qed.

(** So when [parse] gives [None], the text does not start with a JSON
    value or something other than white space follows the value. *)
Lemma parse_none text :
  parse text = None ->
  parse_value (2 * List.length text + 2) text = Invalid \/
  exists v rest,
    parse_value (2 * List.length text + 2) text = Parsed v rest /\
    skip_ws rest <> [].
Proof.
  unfold parse. pose proof (parse_fuel_enough text) as Hf.
  destruct (parse_value (2 * List.length text + 2) text) as [v rest| |];
    [|now left | congruence].
  destruct (skip_ws rest) as [|c t] eqn:E; [discriminate|].
  intros _. right. exists v, rest. split; [reflexivity|]. now rewrite E.
Qed.

Example parse_nested :
  parse (jq " {'a' : [1, -2.5e+3, true, null, {}], 'a\u0062' : 'x\ny'} ") =
  Some (VObj [(js "a", VArr [VNum (js "1"); VNum (js "-2.5e+3"); VBool true;
                             VNull; VObj []]);
              (js "ab", VStr [ch "x"; 10; ch "y"])]).
Proof. vm_compute. reflexivity. Qed.

Example parse_duplicate_key :
  parse (jq "{'a':1,'b':2,'a':3}") =
  Some (VObj [(js "a", VNum (js "3")); (js "b", VNum (js "2"))]).
Proof. vm_compute. reflexivity. Qed.

Example parse_rejects :
  parse [] = None /\ parse (jq "{abc}") = None /\ parse (jq "[1,]") = None /\
  parse (js "01") = None /\ parse (jq "{'a':1} x") = None /\
  parse [dquote; 9; dquote] = None.
Proof. vm_compute. repeat split. Qed.

Example stringify_escapes :
  stringify (VArr [VStr (jq "a'b\c"); VStr [10; 55357; 56832; 55357; 1]]) =
  jq "['a\'b\\c','\n" ++ [55357; 56832] ++ jq "\ud83d\u0001']".
Proof. vm_compute. reflexivity. Qed.

End JSONFacts.

(** ** trim *)

Lemma trim_start_blank s :
  trim_start s = [] <-> forallb is_js_space s = true.
Proof.
  induction s as [|c t IH]; simpl; [tauto|].
  destruct (is_js_space c); simpl; [exact IH|].
  split; discriminate.
Qed.

Lemma trim_start_suffix s :
  forallb is_js_space (trim_start s) = true -> forallb is_js_space s = true.
Proof.
  induction s as [|c t IH]; simpl; [trivial|].
  destruct (is_js_space c) eqn:E; simpl; [exact IH|].
  rewrite E. discriminate.
Qed.

Lemma forallb_rev {A} (f : A -> bool) l :
  forallb f (rev l) = forallb f l.
Proof.
  induction l as [|a l IH]; simpl; [reflexivity|].
  rewrite forallb_app, IH. simpl. rewrite andb_true_r. apply andb_comm.
Qed.

(** A text trims to the empty text exactly when it is made of white
    space only. *)
Lemma trim_blank s : trim s = [] <-> forallb is_js_space s = true.
Proof.
  unfold trim. split; intros H.
  - apply trim_start_suffix.
    rewrite <- forallb_rev. apply trim_start_blank.
    destruct (trim_start (rev (trim_start s))) as [|c l]; [reflexivity|].
    simpl in H. destruct (rev l); discriminate.
  - apply trim_start_blank in H. rewrite H. reflexivity.
Qed.

(** ** ORDER BY *)

Section OrderBy.

Context {A : Type} (before : A -> A -> bool).

Lemma insert_desc_perm x l : Permutation (insert_desc before x l) (x :: l).
Proof.
  induction l as [|y t IH]; simpl; [reflexivity|].
  destruct (before x y); [reflexivity|].
  rewrite IH. apply perm_swap.
Qed.

Lemma order_by_desc_perm l : Permutation (order_by_desc before l) l.
Proof.
  induction l as [|x t IH]; simpl; [reflexivity|].
  rewrite insert_desc_perm. now constructor.
Qed.

(** The sort is stable: rows that may each come before the other keep
    the order they had. *)
Lemma insert_desc_stable (p : A -> bool) x l :
  (forall y, p x = true -> p y = true -> before x y = true) ->
  filter p (insert_desc before x l) = filter p (x :: l).
Proof.
  intros H. induction l as [|y t IH]; [reflexivity|].
  cbn [insert_desc]. destruct (before x y) eqn:E; [reflexivity|].
  cbn [filter] in *. rewrite IH.
  destruct (p x) eqn:Px, (p y) eqn:Py; try reflexivity.
  rewrite (H y eq_refl Py) in E. discriminate.
Qed.

Lemma order_by_desc_stable (p : A -> bool) l :
  (forall x y, p x = true -> p y = true -> before x y = true) ->
  filter p (order_by_desc before l) = filter p l.
Proof.
  intros H. induction l as [|x t IH]; [reflexivity|].
  cbn [order_by_desc fold_right].
  change (fold_right (insert_desc before) [] t) with (order_by_desc before t).
  rewrite insert_desc_stable by (intros y; apply H).
  cbn [filter]. now rewrite IH.
Qed.

Hypothesis before_total : forall a b, before a b = false -> before b a = true.
Hypothesis before_trans :
  forall a b c, before a b = true -> before b c = true -> before a c = true.

Lemma insert_desc_sorted x l :
  StronglySorted (fun a b => before a b = true) l ->
  StronglySorted (fun a b => before a b = true) (insert_desc before x l).
Proof.
  induction 1 as [|y t Hs IH Hy]; simpl; [repeat constructor|].
  destruct (before x y) eqn:E.
  - constructor; [now constructor|].
    constructor; [exact E|].
    eapply Forall_impl; [|exact Hy]. intros z Hz. eauto.
  - constructor; [exact IH|].
    eapply Permutation_Forall; [symmetry; apply insert_desc_perm|].
    constructor; [now apply before_total | exact Hy].
Qed.

Lemma order_by_desc_sorted l :
  StronglySorted (fun a b => before a b = true) (order_by_desc before l).
Proof.
  induction l as [|x t IH]; simpl; [constructor|].
  now apply insert_desc_sorted.
Qed.

End OrderBy.

(** A row that no other row may come before lands first. *)
Lemma order_by_desc_newest {A} (before : A -> A -> bool) x l :
  Forall (fun y => before y x = false) l ->
  order_by_desc before (l ++ [x]) = x :: order_by_desc before l.
Proof.
  intros H. unfold order_by_desc. rewrite fold_right_app. simpl.
  generalize (@nil A). induction H as [|y t Hy Ht IH]; intros acc; simpl.
  - reflexivity.
  - rewrite IH. simpl. now rewrite Hy.
Qed.

Lemma text_leb_total a : forall b, text_leb a b = false -> text_leb b a = true.
Proof.
  induction a as [|x a IH]; intros [|y b] H; simpl in *;
    try discriminate; try reflexivity.
  bprop. destruct H as [H1 [H2 | H2]].
  - left. lia.
  - destruct (N.eq_dec x y) as [->|Hn]; [|left; lia].
    right. split; [reflexivity|]. now apply IH.
Qed.

Lemma text_leb_trans a :
  forall b c, text_leb a b = true -> text_leb b c = true ->
  text_leb a c = true.
Proof.
  induction a as [|x a IH]; intros [|y b] [|z c] H1 H2; simpl in *;
    try discriminate; try reflexivity.
  bprop. destruct H1 as [H1 | [-> H1]]; destruct H2 as [H2 | [-> H2]].
  - left. lia.
  - left. exact H1.
  - left. exact H2.
  - right. split; [reflexivity|]. eapply IH; eassumption.
Qed.

(** ** Decimal texts *)

Lemma utf16_ascii bs : Forall (fun b => b < 128) bs -> utf16 bs = bs.
Proof.
  induction 1 as [|b t Hb Ht IH]; simpl; [reflexivity|].
  apply N.ltb_lt in Hb. now rewrite Hb, IH.
Qed.

Lemma uint_chars d :
  Forall (fun c => is_digit c = true)
    (map N_of_ascii (list_ascii_of_string (NilEmpty.string_of_uint d))).
Proof. induction d; simpl; constructor; trivial. Qed.

Lemma dec_chars z : Forall digit_or_minus (dec z).
Proof.
  unfold dec, js.
  assert (H : Forall digit_or_minus
                (map N_of_ascii
                   (list_ascii_of_string
                      (NilZero.string_of_int (Z.to_int z))))).
  { assert (U : forall d, Forall digit_or_minus
                  (map N_of_ascii
                     (list_ascii_of_string (NilZero.string_of_uint d)))).
    { intros d.
      assert (G := uint_chars d).
      destruct d; simpl in *;
        try (constructor; [left; reflexivity|]);
        try (inversion G; subst);
        try (eapply Forall_impl; [|eassumption]; intros ? ?; now left);
        constructor. }
    destruct (Z.to_int z) as [d|d]; simpl.
    - apply U.
    - constructor; [right; reflexivity | apply U]. }
  rewrite utf16_ascii; [exact H|].
  eapply Forall_impl; [|exact H].
  intros c [Hc | ->]; [|reflexivity].
  unfold is_digit in Hc. bprop. charvals. lia.
Qed.

(** ** Upload names *)

(** The runs are a partition of the text... *)
Lemma runs_concat s : List.concat (map snd (runs s)) = s.
Proof.
  induction s as [|c t IH]; simpl; [reflexivity|].
  destruct (runs t) as [|[k r] rest]; simpl in *.
  - now subst.
  - destruct (Bool.eqb k (is_safe c)); simpl; now rewrite <- IH.
Qed.

(** ... each one is not empty and lies on one side of the class... *)
Lemma runs_uniform s :
  Forall (fun kr => snd kr <> [] /\
                    Forall (fun c => is_safe c = fst kr) (snd kr)) (runs s).
Proof.
  induction s as [|c t IH]; simpl; [constructor|].
  destruct (runs t) as [|[k r] rest]; simpl in *.
  - repeat constructor. discriminate.
  - inversion IH as [|? ? [Hne Hr] Hrest]; subst; simpl in *.
    destruct (Bool.eqb k (is_safe c)) eqn:E.
    + apply eqb_prop in E. constructor; [|exact Hrest]. simpl.
      split; [discriminate|]. constructor; [now symmetry | exact Hr].
    + constructor; [|exact IH]. simpl.
      split; [discriminate|]. now repeat constructor.
Qed.

(** ... and two runs in a row lie on different sides: a run is maximal. *)
Lemma runs_alternate s : alternate (runs s).
Proof.
  induction s as [|c t IH]; simpl; [trivial|].
  destruct (runs t) as [|[k r] rest] eqn:E; simpl; [trivial|].
  destruct (Bool.eqb k (is_safe c)) eqn:Ek.
  - exact IH.
  - split; [|exact IH]. simpl. apply eqb_false_iff in Ek. congruence.
Qed.

(** The scan of the regular expression does what the sentence says. *)
Lemma replace_unsafe_runs s :
  replace_unsafe false s = replace_runs s /\
  replace_unsafe true s =
    match runs s with
    | (false, _) :: rest => List.concat (map replace_run rest)
    | _ => replace_runs s
    end.
Proof.
  unfold replace_runs.
  induction s as [|c t [IH0 IH1]]; simpl; [split; reflexivity|].
  destruct (is_safe c) eqn:Ec.
  - rewrite IH0.
    destruct (runs t) as [|[[|] r] rest]; simpl; split; reflexivity.
  - rewrite IH1.
    destruct (runs t) as [|[[|] r] rest]; simpl; split; reflexivity.
Qed.

Lemma replace_unsafe_safe s :
  forall b, Forall (fun c => is_safe c = true) (replace_unsafe b s).
Proof.
  induction s as [|c t IH]; intros b; simpl; [constructor|].
  destruct (is_safe c) eqn:Ec; [constructor; auto|].
  destruct b; [apply IH|]. constructor; [reflexivity | apply IH].
Qed.

(** ** The triage route, case by case *)

Section TriageFacts.

Variable key_eq : value -> Z -> bool.
Variables OLLAMA_HOST OLLAMA_MODEL : jsstring.
Variable fetch : prompt -> fetch_result.

Lemma askOllama_log p log :
  snd (askOllama fetch p log) = log ++ [p].
Proof.
  unfold askOllama. destruct (fetch p) as [m|st txt]; [reflexivity|].
  destruct (negb (resp_ok st)); [reflexivity|].
  destruct (JSON.parse txt) as [[]|]; reflexivity.
Qed.

Lemma triage_unfold d req_body :
  let body := body_of req_body in
  let sintomas := default (get body (js "sintomas")) (VStr []) in
  let anamnese := default (get body (js "anamnese")) (VStr []) in
  let prontuario_id := default (get body (js "prontuario_id")) VNull in
  let exames_resumo := default (get body (js "exames_resumo")) (VStr []) in
  ai_diagnostico key_eq OLLAMA_HOST OLLAMA_MODEL fetch d req_body =
  match call_trim sintomas with
  | Throw e => (bad_gateway OLLAMA_HOST OLLAMA_MODEL e, [])
  | Ok s =>
    match (if is_empty s
           then match call_trim anamnese with
                | Ok a => Ok (is_empty a)
                | Throw e => Throw e
                end
           else Ok false) with
    | Throw e => (bad_gateway OLLAMA_HOST OLLAMA_MODEL e, [])
    | Ok true => (missing_input, [])
    | Ok false =>
      match (if truthy exames_resumo
             then match call_trim exames_resumo with
                  | Ok t => Ok (negb (is_empty t))
                  | Throw e => Throw e
                  end
             else Ok false) with
      | Throw e => (bad_gateway OLLAMA_HOST OLLAMA_MODEL e, [])
      | Ok sent =>
        match (if sent : bool then call_trim exames_resumo
               else Ok (if truthy prontuario_id
                        then fetchExamsSummary key_eq d prontuario_id
                        else [])) with
        | Throw e => (bad_gateway OLLAMA_HOST OLLAMA_MODEL e, [])
        | Ok examesBloco =>
          match template
                  {| SINTOMAS := or_else sintomas (VStr (js "(não informado)"));
                     ANAMNESE := or_else anamnese (VStr (js "(não informada)"));
                     EXAMES := if is_empty examesBloco
                               then js "(sem exames disponíveis)"
                               else examesBloco |} with
          | Throw e => (bad_gateway OLLAMA_HOST OLLAMA_MODEL e, [])
          | Ok p => after_prompt OLLAMA_HOST OLLAMA_MODEL fetch p
          end
        end
      end
    end
  end.
Proof.
  intros body sintomas anamnese prontuario_id exames_resumo.
  unfold ai_diagnostico, after_prompt, bind, lift, ret, try_catch.
  fold body; fold sintomas; fold anamnese; fold prontuario_id;
    fold exames_resumo.
  assert (rest : forall p,
    (let (r0, log) :=
       let (r, log') :=
         let (r1, log'1) := askOllama fetch p [] in
         match r1 with
         | Ok a2 =>
           match interpret a2 with
           | Ok a3 => (Ok (reply OLLAMA_HOST OLLAMA_MODEL a3), log'1)
           | Throw e => (Throw e, log'1)
           end
         | Throw e => (Throw e, log'1)
         end in
       match r with
       | Ok a0 => (Ok a0, log')
       | Throw e => (Ok (bad_gateway OLLAMA_HOST OLLAMA_MODEL e), log')
       end in
     match r0 with
     | Ok r => (r, log)
     | Throw e => ({| status := 500; body := Unhandled e |}, log)
     end) =
    (let (r, log) := askOllama fetch p [] in
     match r with
     | Ok raw =>
       match interpret raw with
       | Ok v => (reply OLLAMA_HOST OLLAMA_MODEL v, log)
       | Throw e => (bad_gateway OLLAMA_HOST OLLAMA_MODEL e, log)
       end
     | Throw e => (bad_gateway OLLAMA_HOST OLLAMA_MODEL e, log)
     end)).
  { intros p. destruct (askOllama fetch p []) as [[raw|e] log];
      [destruct (interpret raw)|]; reflexivity. }
  assert (filled : forall q,
    (let (r0, log) :=
       let (r, log') :=
         match template q with
         | Ok a =>
           let (r1, log'1) := askOllama fetch a [] in
           match r1 with
           | Ok a2 =>
             match interpret a2 with
             | Ok a3 => (Ok (reply OLLAMA_HOST OLLAMA_MODEL a3), log'1)
             | Throw e => (Throw e, log'1)
             end
           | Throw e => (Throw e, log'1)
           end
         | Throw e => (Throw e, [])
         end in
       match r with
       | Ok a0 => (Ok a0, log')
       | Throw e => (Ok (bad_gateway OLLAMA_HOST OLLAMA_MODEL e), log')
       end in
     match r0 with
     | Ok r => (r, log)
     | Throw e => ({| status := 500; body := Unhandled e |}, log)
     end) =
    match template q with
    | Throw e => (bad_gateway OLLAMA_HOST OLLAMA_MODEL e, [])
    | Ok p =>
      let (r, log) := askOllama fetch p [] in
      match r with
      | Ok raw =>
        match interpret raw with
        | Ok v => (reply OLLAMA_HOST OLLAMA_MODEL v, log)
        | Throw e => (bad_gateway OLLAMA_HOST OLLAMA_MODEL e, log)
        end
      | Throw e => (bad_gateway OLLAMA_HOST OLLAMA_MODEL e, log)
      end
    end).
  { intros q. destruct (template q) as [p|e]; [apply rest | reflexivity]. }
  destruct (call_trim sintomas) as [s|e]; [|reflexivity].
  destruct (is_empty s).
  - destruct (call_trim anamnese) as [a|e]; [|reflexivity].
    destruct (is_empty a); [reflexivity|].
    destruct (truthy exames_resumo).
    + destruct (call_trim exames_resumo) as [t|e]; [|reflexivity].
      destruct (negb (is_empty t)); [apply filled|].
      destruct (truthy prontuario_id); apply filled.
    + destruct (truthy prontuario_id); apply filled.
  - destruct (truthy exames_resumo).
    + destruct (call_trim exames_resumo) as [t|e]; [|reflexivity].
      destruct (negb (is_empty t)); [apply filled|].
      destruct (truthy prontuario_id); apply filled.
    + destruct (truthy prontuario_id); apply filled.
Qed.

Lemma snd_after_prompt p : snd (after_prompt OLLAMA_HOST OLLAMA_MODEL fetch p) = [p].
Proof.
  unfold after_prompt. pose proof (askOllama_log p []) as H.
  destruct (askOllama fetch p []) as [[raw|e] log]; simpl in *; subst;
    [destruct (interpret raw)|]; reflexivity.
Qed.

Lemma status_after_prompt p :
  status (fst (after_prompt OLLAMA_HOST OLLAMA_MODEL fetch p)) = 200%Z \/
  status (fst (after_prompt OLLAMA_HOST OLLAMA_MODEL fetch p)) = 502%Z.
Proof.
  unfold after_prompt.
  destruct (askOllama fetch p []) as [[raw|e] log];
    [destruct (interpret raw)|]; simpl; auto.
Qed.

(** A request that sent the prompt [p] is answered from there. *)
Lemma triage_sent d req_body p :
  snd (ai_diagnostico key_eq OLLAMA_HOST OLLAMA_MODEL fetch d req_body) = [p] ->
  ai_diagnostico key_eq OLLAMA_HOST OLLAMA_MODEL fetch d req_body =
  after_prompt OLLAMA_HOST OLLAMA_MODEL fetch p.
Proof.
  rewrite triage_unfold.
  repeat match goal with
         | |- context [match ?x with _ => _ end] =>
           lazymatch x with
           | after_prompt _ => fail
           | _ => destruct x
           end
         end;
    try discriminate;
    intros H; rewrite snd_after_prompt in H; injection H as <-; reflexivity.
Qed.

End TriageFacts.

(** ** The brace-delimited end of a text *)

Lemma ends_with_last c mid : ends_with c (mid ++ [c]) = true.
Proof.
  induction mid as [|x t IH]; simpl; [apply N.eqb_refl|].
  destruct (t ++ [c]) eqn:E; [destruct t; discriminate | exact IH].
Qed.

Lemma ends_with_spec c s : ends_with c s = true -> exists mid, s = mid ++ [c].
Proof.
  induction s as [|x t IH]; simpl; [discriminate|].
  destruct t as [|y t'].
  - intros H. apply N.eqb_eq in H. subst. now exists [].
  - intros H. destruct (IH H) as [mid ->]. now exists (x :: mid).
Qed.

Lemma ends_with_app c a b : b <> [] -> ends_with c (a ++ b) = ends_with c b.
Proof.
  intros Hb. induction a as [|x t IH]; [reflexivity|].
  simpl. destruct (t ++ b) eqn:E; [|exact IH].
  destruct t; simpl in E; [congruence | discriminate].
Qed.

Lemma match_braces_spec raw m :
  match_braces raw = Some m <-> brace_suffix raw m.
Proof.
  split.
  - revert m. induction raw as [|c t IH]; intros m H; simpl in H;
      [discriminate|].
    destruct ((c =? ch "{") && ends_with (ch "}") t) eqn:E.
    + injection H as <-. bprop. destruct E as [-> E].
      destruct (ends_with_spec _ _ E) as [mid ->].
      exists [], mid. repeat split. intros [].
    + destruct (IH _ H) as (pre & mid & -> & -> & Hpre).
      exists (c :: pre), mid. repeat split. intros [-> | Hin]; [|tauto].
      rewrite N.eqb_refl in E. simpl in E.
      rewrite ends_with_app in E by discriminate.
      change (ch "{" :: mid ++ [ch "}"])
        with ((ch "{" :: mid) ++ [ch "}"]) in E.
      now rewrite ends_with_last in E.
  - intros (pre & mid & -> & -> & Hpre).
    induction pre as [|c pre IH]; simpl.
    + now rewrite ends_with_last.
    + destruct (c =? ch "{") eqn:E.
      * apply N.eqb_eq in E. subst. simpl in Hpre. tauto.
      * simpl. apply IH. simpl in Hpre. tauto.
Qed.

Lemma match_braces_none raw :
  match_braces raw = None <-> forall m, ~ brace_suffix raw m.
Proof.
  split.
  - intros H m Hm. apply match_braces_spec in Hm. congruence.
  - intros H. destruct (match_braces raw) as [m|] eqn:E; [|reflexivity].
    apply match_braces_spec in E. now apply H in E.
Qed.

(* ================================================================== *)
(** * The response interpreter (C1, C2) *)

Section Interpreter.

Variable key_eq : value -> Z -> bool.
Variables OLLAMA_HOST OLLAMA_MODEL : jsstring.
Variable fetch : prompt -> fetch_result.

(** C1, as amended.  Once the endpoint has answered with the text [raw],
    the triage route answers 200 in each of these cases: [raw] is a JSON
    text, and the suggestion is its value; [raw] is not a JSON text but
    its brace-delimited end is one, and the suggestion is the value of
    that end; [raw] is not a JSON text and has no brace-delimited end,
    and the suggestion is the object whose only field [texto] is [raw],
    or [sem resposta] when [raw] is empty. *)
Theorem triage_interprets_answer d req_body p raw :
  snd (ai_diagnostico key_eq OLLAMA_HOST OLLAMA_MODEL fetch d req_body) = [p] ->
  askOllama fetch p [] = (Ok raw, [p]) ->
  let answer :=
    fst (ai_diagnostico key_eq OLLAMA_HOST OLLAMA_MODEL fetch d req_body) in
  (forall v, JSON.parse raw = Some v ->
     answer = reply OLLAMA_HOST OLLAMA_MODEL v) /\
  (forall m v, JSON.parse raw = None -> brace_suffix raw m ->
     JSON.parse m = Some v ->
     answer = reply OLLAMA_HOST OLLAMA_MODEL v) /\
  (JSON.parse raw = None -> (forall m, ~ brace_suffix raw m) ->
     (raw <> [] ->
      answer = reply OLLAMA_HOST OLLAMA_MODEL
                 (VObj [(js "texto", VStr raw)])) /\
     (raw = [] ->
      answer = reply OLLAMA_HOST OLLAMA_MODEL
                 (VObj [(js "texto", VStr (js "sem resposta"))]))).
Proof.
  intros Hsent Hask answer. subst answer.
  rewrite (triage_sent _ _ _ _ _ _ _ Hsent).
  unfold after_prompt. rewrite Hask. unfold interpret.
  split; [|split].
  - intros v Hv. now rewrite Hv.
  - intros m v Hraw Hm Hv. apply match_braces_spec in Hm.
    now rewrite Hraw, Hm, Hv.
  - intros Hraw Hnone. apply match_braces_none in Hnone.
    rewrite Hraw, Hnone. split.
    + intros Hne. destruct raw; [congruence | reflexivity].
    + intros ->. reflexivity.
Qed.

End Interpreter.

Lemma triage_interprets_answer_witness :
  fst (ai_diagnostico key_eq_decimal default_host default_model
         (answering (js "not json at all")) empty_db (Some febre_body)) =
  reply default_host default_model
    (VObj [(js "texto", VStr (js "not json at all"))]).
Proof.
  refine (proj1 (proj2 (proj2
    (triage_interprets_answer key_eq_decimal default_host default_model
       (answering (js "not json at all")) empty_db (Some febre_body)
       febre_prompt (js "not json at all") _ _)) _ _) _).
  - vm_compute. reflexivity.
  - vm_compute. reflexivity.
  - vm_compute. reflexivity.
  - apply match_braces_none. vm_compute. reflexivity.
  - discriminate.
Defined.

(** C1, as stated, fails on two answers of the endpoint.  On [{abc}] the
    strict parse fails, the pattern finds the whole text, parsing it
    fails as well, and the route answers 502.  On the empty text both
    attempts come to nothing and the suggestion is [sem resposta], not
    the raw text. *)
Lemma triage_answer_not_always_wrapped :
  (askOllama (answering (jq "{abc}")) febre_prompt [] =
     (Ok (jq "{abc}"), [febre_prompt]) /\
   JSON.parse (jq "{abc}") = None /\
   match_braces (jq "{abc}") = Some (jq "{abc}") /\
   ai_diagnostico key_eq_decimal default_host default_model
     (answering (jq "{abc}")) empty_db (Some febre_body) =
   (bad_gateway default_host default_model SyntaxError, [febre_prompt])) /\
  (askOllama (answering []) febre_prompt [] = (Ok [], [febre_prompt]) /\
   ai_diagnostico key_eq_decimal default_host default_model
     (answering []) empty_db (Some febre_body) =
   (reply default_host default_model
      (VObj [(js "texto", VStr (js "sem resposta"))]), [febre_prompt]) /\
   VObj [(js "texto", VStr (js "sem resposta"))] <>
   VObj [(js "texto", VStr [])]).
Proof.
  split.
  - vm_compute. repeat split.
  - split; [vm_compute; reflexivity|].
    split; [vm_compute; reflexivity | discriminate].
Qed.

(** C2, as amended: a JSON object is returned as it is; an object with
    text before it and nothing after it is extracted; with text after
    it, and for a text that is not JSON, the text is wrapped. *)
Theorem interpret_examples :
  interpret (jq "{'hipoteses':['a'],'gravidade':'baixa'}") =
    Ok (VObj [(js "hipoteses", VArr [VStr (js "a")]);
              (js "gravidade", VStr (js "baixa"))]) /\
  interpret (jq "noise {'hipoteses':['a']}") =
    Ok (VObj [(js "hipoteses", VArr [VStr (js "a")])]) /\
  interpret (jq "noise {'hipoteses':['a']} trailing") =
    Ok (VObj [(js "texto", VStr (jq "noise {'hipoteses':['a']} trailing"))]) /\
  interpret (js "not json at all") =
    Ok (VObj [(js "texto", VStr (js "not json at all"))]).
Proof. vm_compute. repeat split. Qed.

(** C2, as stated, fails on its second input: the object is followed by
    text, so the pattern, anchored at the end, finds nothing. *)
Lemma interpret_trailing_text_not_extracted :
  match_braces (jq "noise {'hipoteses':['a']} trailing") = None /\
  interpret (jq "noise {'hipoteses':['a']} trailing") <>
    Ok (VObj [(js "hipoteses", VArr [VStr (js "a")])]).
Proof. split; [vm_compute; reflexivity | vm_compute; discriminate]. Qed.

(* ================================================================== *)
(** * The validation of the triage route (C3, C10) *)

Lemma call_trim_blank o :
  blank_or_absent o -> call_trim (default o (VStr [])) = Ok [].
Proof.
  destruct o as [[]|]; simpl; try tauto.
  intros H. apply trim_blank in H. now rewrite H.
Qed.

Lemma call_trim_non_string o :
  non_string o -> call_trim (default o (VStr [])) = Throw TypeError.
Proof. destruct o as [[]|]; simpl; tauto. Qed.

Lemma call_trim_ok o s :
  call_trim (default o (VStr [])) = Ok s ->
  is_empty s = true -> blank_or_absent o.
Proof.
  destruct o as [[]|]; simpl; try discriminate; trivial.
  intros H E. injection H as <-. apply str_eqb_eq in E. now apply trim_blank.
Qed.

Section Validation.

Variable key_eq : value -> Z -> bool.
Variables OLLAMA_HOST OLLAMA_MODEL : jsstring.
Variable fetch : prompt -> fetch_result.

(** C3.  When [sintomas] and [anamnese] are each absent or a string of
    white space only, the route answers 400 with an error message and
    sends nothing to the endpoint. *)
Theorem triage_missing_input d req_body :
  blank_or_absent (get (body_of req_body) (js "sintomas")) ->
  blank_or_absent (get (body_of req_body) (js "anamnese")) ->
  ai_diagnostico key_eq OLLAMA_HOST OLLAMA_MODEL fetch d req_body =
  (json_error 400 (js "Informe ao menos sintomas ou anamnese."), []).
Proof.
  intros Hs Ha. rewrite triage_unfold.
  rewrite (call_trim_blank _ Hs). simpl.
  rewrite (call_trim_blank _ Ha). reflexivity.
Qed.

(** C10, as amended.  A [sintomas] that is not a string makes the
    validation throw, and so does an [anamnese] that is not a string
    when [sintomas] is absent or blank: the route answers 502 and sends
    nothing.  When [sintomas] is a string that is not blank the
    validation does not examine [anamnese]: whatever [anamnese] is, if
    it can be printed and [exames_resumo] is absent or a string, a
    prompt is sent that carries [sintomas] and that [anamnese] (the
    placeholder when it is falsy).  The answer 400 is given only when
    both fields are absent or blank strings. *)
Theorem triage_non_string_input d req_body :
  let sintomas := get (body_of req_body) (js "sintomas") in
  let anamnese := get (body_of req_body) (js "anamnese") in
  let exames_resumo := get (body_of req_body) (js "exames_resumo") in
  let answer :=
    ai_diagnostico key_eq OLLAMA_HOST OLLAMA_MODEL fetch d req_body in
  (non_string sintomas ->
     answer = (bad_gateway OLLAMA_HOST OLLAMA_MODEL TypeError, [])) /\
  (blank_or_absent sintomas -> non_string anamnese ->
     answer = (bad_gateway OLLAMA_HOST OLLAMA_MODEL TypeError, [])) /\
  (forall s, sintomas = Some (VStr s) -> trim s <> [] ->
     ~ non_string exames_resumo ->
     to_string_throws (default anamnese (VStr [])) = false ->
     exists p,
       snd answer = [p] /\
       SINTOMAS p = VStr s /\
       ANAMNESE p =
         or_else (default anamnese (VStr [])) (VStr (js "(não informada)")))
  /\
  (status (fst answer) = 400%Z ->
     blank_or_absent sintomas /\ blank_or_absent anamnese).
Proof.
  intros sintomas anamnese exames_resumo answer. subst answer.
  rewrite triage_unfold. fold sintomas. fold anamnese. fold exames_resumo.
  split; [|split; [|split]].
  - intros Hs. now rewrite (call_trim_non_string _ Hs).
  - intros Hs Ha. rewrite (call_trim_blank _ Hs). simpl.
    now rewrite (call_trim_non_string _ Ha).
  - intros s Hs Hne Hr Ha. rewrite Hs.
    change (default (Some (VStr s)) (VStr [])) with (VStr s).
    change (call_trim (VStr s)) with (Ok (trim s)). cbv beta iota.
    assert (E1 : is_empty (trim s) = false).
    { unfold is_empty. destruct (str_eqb (trim s) []) eqn:X; [|reflexivity].
      apply str_eqb_eq in X. congruence. }
    assert (E2 : or_else (VStr s) (VStr (js "(não informado)")) = VStr s).
    { destruct s as [|c t]; [now elim Hne | reflexivity]. }
    rewrite E1, E2. cbv beta iota.
    assert (Hp : forall bloco,
      exists p,
        snd match template
                    {| SINTOMAS := VStr s;
                       ANAMNESE := or_else (default anamnese (VStr []))
                                     (VStr (js "(não informada)"));
                       EXAMES := bloco |} with
            | Ok q => after_prompt OLLAMA_HOST OLLAMA_MODEL fetch q
            | Throw e => (bad_gateway OLLAMA_HOST OLLAMA_MODEL e, [])
            end = [p] /\
        SINTOMAS p = VStr s /\
        ANAMNESE p =
          or_else (default anamnese (VStr [])) (VStr (js "(não informada)"))).
    { intros bloco. unfold template. cbn [SINTOMAS ANAMNESE].
      assert (T : to_string_throws
                    (or_else (default anamnese (VStr []))
                       (VStr (js "(não informada)"))) = false)
        by (unfold or_else; destruct (truthy _); [exact Ha | reflexivity]).
      rewrite T. cbn [to_string_throws orb].
      eexists. split; [apply snd_after_prompt|]. split; reflexivity. }
    destruct exames_resumo as [[| | |x| |]|]; try (now elim Hr);
      cbn [default truthy call_trim].
    + destruct (negb (str_eqb x [])); cbv beta iota.
      * destruct (negb (is_empty (trim x))); cbv beta iota; [apply Hp|].
        destruct (truthy _); apply Hp.
      * destruct (truthy _); apply Hp.
    + change (negb (str_eqb [] [])) with false. cbv beta iota.
      destruct (truthy _); apply Hp.
  - destruct (call_trim (default sintomas (VStr []))) as [s|e] eqn:Es;
      [|discriminate].
    assert (after : forall p,
      status (fst (after_prompt OLLAMA_HOST OLLAMA_MODEL fetch p)) <> 400%Z).
    { intros p.
      destruct (status_after_prompt OLLAMA_HOST OLLAMA_MODEL fetch p)
        as [E | E]; rewrite E; discriminate. }
    destruct (is_empty s) eqn:Ee.
    + destruct (call_trim (default anamnese (VStr []))) as [a|e] eqn:Ea;
        [|discriminate].
      destruct (is_empty a) eqn:Eb.
      * intros _. split; eapply call_trim_ok; eassumption.
      * repeat match goal with
               | |- context [match (if ?c then _ else _) with _ => _ end] =>
                 destruct c
               | |- context [match call_trim ?v with _ => _ end] =>
                 destruct (call_trim v)
               | |- context [match template ?q with _ => _ end] =>
                 destruct (template q)
               end; try discriminate; intros H; now apply after in H.
    + repeat match goal with
             | |- context [match (if ?c then _ else _) with _ => _ end] =>
               destruct c
             | |- context [match call_trim ?v with _ => _ end] =>
               destruct (call_trim v)
             | |- context [match template ?q with _ => _ end] =>
               destruct (template q)
             end; try discriminate; intros H; now apply after in H.
Qed.

End Validation.

Lemma triage_missing_input_witness :
  ai_diagnostico key_eq_decimal default_host default_model
    (answering (jq "{}")) empty_db
    (Some (VObj [(js "sintomas", VStr (js "   "))])) =
  (json_error 400 (js "Informe ao menos sintomas ou anamnese."), []).
Proof.
  apply (triage_missing_input key_eq_decimal default_host default_model
           (answering (jq "{}")) empty_db
           (Some (VObj [(js "sintomas", VStr (js "   "))]))).
  - reflexivity.
  - exact I.
Defined.

Lemma triage_non_string_input_witness :
  ai_diagnostico key_eq_decimal default_host default_model
    (answering (jq "{}")) empty_db
    (Some (VObj [(js "sintomas", VNum (js "5"))])) =
  (bad_gateway default_host default_model TypeError, []).
Proof.
  refine (proj1
    (triage_non_string_input key_eq_decimal default_host default_model
       (answering (jq "{}")) empty_db
       (Some (VObj [(js "sintomas", VNum (js "5"))]))) _).
  exact I.
Defined.

(** C10, as stated, fails when [sintomas] is a string that is not blank:
    the validation stops at it, an [anamnese] that is a number is never
    trimmed, and the request goes through. *)
Lemma triage_non_string_anamnese_200 :
  let body := VObj [(js "sintomas", VStr (js "febre"));
                    (js "anamnese", VNum (js "5"))] in
  non_string (get body (js "anamnese")) /\
  ai_diagnostico key_eq_decimal default_host default_model
    (answering (jq "{}")) empty_db (Some body) =
  (reply default_host default_model (VObj []),
   [{| SINTOMAS := VStr (js "febre");
       ANAMNESE := VNum (js "5");
       EXAMES := js "(sem exames disponíveis)" |}]).
Proof. vm_compute. split; [exact I | reflexivity]. Qed.

(* ================================================================== *)
(** * The exam summary (C4) *)

Lemma summary_parts_spec r : summary_parts r = line_parts r.
Proof.
  unfold summary_parts, line_parts, push, col_or.
  destruct r as [i pid [[|? ?]|] [[|? ?]|] [[|? ?]|] [[|? ?]|] [[|? ?]|] c];
    reflexivity.
Qed.

Lemma not_in_labelled label c note :
  hd_error label <> None -> hd_error label <> hd_error note ->
  ~ In note (labelled label c).
Proof.
  intros Hl Hn. destruct c as [[|x s]|]; simpl; try tauto.
  intros [E | []]. apply Hn. rewrite <- E.
  destruct label; [now elim Hl | reflexivity].
Qed.

Lemma laudo_note_in_parts r :
  In laudo_note (line_parts r) <->
  present (Exame.arquivo_path r) = true /\
  present (Exame.resultado_texto r) = false.
Proof.
  unfold line_parts. rewrite !in_app_iff.
  assert (N : forall label c,
             hd_error label <> None ->
             hd_error label <> hd_error laudo_note ->
             In laudo_note (labelled label c) <-> False)
    by (intros; split; [now apply not_in_labelled | tauto]).
  rewrite !N by (vm_compute; discriminate).
  destruct (present (Exame.arquivo_path r)),
           (present (Exame.resultado_texto r)); simpl; intuition congruence.
Qed.

Lemma join_contains sep parts p :
  In p parts -> contains (join sep parts) p.
Proof.
  induction parts as [|q t IH]; [intros []|].
  intros [-> | H].
  - destruct t as [|q' t']; [exists [], []; now rewrite app_nil_r|].
    exists [], (sep ++ join sep (q' :: t')). reflexivity.
  - destruct (IH H) as (pre & post & E).
    destruct t as [|q' t']; [destruct H|].
    exists (q ++ sep ++ pre), post.
    change (join sep (q :: q' :: t')) with (q ++ sep ++ join sep (q' :: t')).
    rewrite E. now rewrite <- !app_assoc.
Qed.

Section Summary.

Variable key_eq : value -> Z -> bool.

(** C4, as amended.  The summary of a record is made of one line for
    each of its exams, joined by line feeds, in the descending order of
    their creation stamps; exams created in the same second keep the
    order of their insertion, the oldest first.  Each line is the parts
    of the exam joined by [ | ]; a record without exams gives the empty
    text.  The note is the last part of the line of an exam with a file
    and no textual result, so that the line contains it; the parts of
    the line of an exam with a textual result are its attributes alone,
    the note not among them. *)
Theorem exams_summary d prontuario_id :
  let own e := key_eq prontuario_id (Exame.prontuario_id e) in
  (exists rows,
     Permutation rows (filter own (exames d)) /\
     StronglySorted
       (fun a b => text_leb (Exame.created_at b) (Exame.created_at a) = true)
       rows /\
     (forall stamp,
        filter (fun e => str_eqb (Exame.created_at e) stamp) rows =
        filter (fun e => str_eqb (Exame.created_at e) stamp)
               (filter own (exames d))) /\
     fetchExamsSummary key_eq d prontuario_id =
     join [10] (map line_spec rows)) /\
  (filter own (exames d) = [] ->
     fetchExamsSummary key_eq d prontuario_id = []) /\
  (forall r, summary_line r = js "- " ++ join (js " | ") (summary_parts r)) /\
  (forall r, present (Exame.arquivo_path r) = true ->
             present (Exame.resultado_texto r) = false ->
             In laudo_note (summary_parts r) /\
             contains (summary_line r) laudo_note /\
             summary_parts r =
               labelled (js "Tipo: ") (Exame.tipo r) ++
               labelled (js "Data de anexo: ") (Exame.data_resultado r) ++
               labelled (js "Obs: ") (Exame.observacoes r) ++
               labelled (js "Arquivo: ") (Exame.arquivo_path r) ++
               [laudo_note]) /\
  (forall r, present (Exame.resultado_texto r) = true ->
             ~ In laudo_note (summary_parts r) /\
             summary_parts r =
               labelled (js "Tipo: ") (Exame.tipo r) ++
               labelled (js "Data de anexo: ") (Exame.data_resultado r) ++
               labelled (js "Resultado textual: ") (Exame.resultado_texto r) ++
               labelled (js "Obs: ") (Exame.observacoes r) ++
               labelled (js "Arquivo: ") (Exame.arquivo_path r)).
Proof.
  intros own. split; [|split; [|split; [|split]]].
  - exists (select_exames key_eq d prontuario_id).
    split; [|split; [|split]].
    + apply order_by_desc_perm.
    + apply order_by_desc_sorted.
      * intros a b. apply text_leb_total.
      * intros a b c Hab Hbc. eapply text_leb_trans; eassumption.
    + intros stamp. apply order_by_desc_stable.
      intros x y Hx Hy. apply str_eqb_eq in Hx, Hy. rewrite Hx, Hy.
      pose proof (text_leb_total stamp stamp) as T.
      destruct (text_leb stamp stamp); [reflexivity | exact (T eq_refl)].
    + unfold fetchExamsSummary. f_equal. apply map_ext.
      intros r. unfold summary_line, line_spec.
      now rewrite summary_parts_spec.
  - intros Hnone. unfold fetchExamsSummary, select_exames.
    fold own. now rewrite Hnone.
  - reflexivity.
  - intros r Hf Ht.
    assert (Hin : In laudo_note (summary_parts r))
      by (rewrite summary_parts_spec; now apply laudo_note_in_parts).
    split; [exact Hin|]. split.
    + destruct (join_contains (js " | ") _ _ Hin) as (pre & post & E).
      exists (js "- " ++ pre), post. unfold summary_line.
      rewrite E. now rewrite <- app_assoc.
    + rewrite summary_parts_spec. unfold line_parts. rewrite Hf, Ht.
      destruct (Exame.resultado_texto r) as [[|? ?]|];
        try discriminate; reflexivity.
  - intros r Ht. split.
    + intros Hin. rewrite summary_parts_spec in Hin.
      apply laudo_note_in_parts in Hin. destruct Hin as [_ Hin]. congruence.
    + rewrite summary_parts_spec. unfold line_parts. rewrite Ht.
      rewrite andb_false_r. now rewrite !app_nil_r.
Qed.

End Summary.

Lemma exams_summary_witness :
  In laudo_note (summary_parts upload_row) /\
  contains (summary_line upload_row) laudo_note.
Proof.
  destruct (proj1 (proj2 (proj2 (proj2
    (exams_summary key_eq_decimal empty_db (VNum (js "1"))))))
    upload_row) as (H1 & H2 & _); [reflexivity | reflexivity |].
  split; assumption.
Defined.

(** C4, as stated, fails on two counts.  Two exams created in the same
    second are summarized the older first, not the most recent first;
    and the line of an exam whose textual result is the text of the note
    contains the note. *)
Lemma exams_summary_same_second_oldest_first :
  map Exame.id (exames two_exams_db) = [1; 2]%Z /\
  map Exame.resultado_texto (exames two_exams_db) =
    [Some (js "primeiro"); Some (js "segundo")] /\
  fetchExamsSummary key_eq_decimal two_exams_db (VStr (js "1")) =
    js "- Resultado textual: primeiro" ++ [10] ++
    js "- Resultado textual: segundo" /\
  present (Exame.resultado_texto note_row) = true /\
  contains (summary_line note_row) laudo_note.
Proof.
  split; [vm_compute; reflexivity|].
  split; [vm_compute; reflexivity|]. split; [vm_compute; reflexivity|].
  split; [reflexivity|].
  exists (js "- Resultado textual: "), []. vm_compute. reflexivity.
Qed.

(* ================================================================== *)
(** * Creating and listing records (C5) *)

Lemma fold_max_ge ids y :
  In y ids -> (y <= fold_right Z.max 0 ids)%Z.
Proof.
  induction ids as [|x t IH]; simpl; [tauto|].
  intros [-> | H]; [lia|]. specialize (IH H). lia.
Qed.

Lemma truthy_bound_not_null o :
  truthy_opt o = true -> is_null (sql_text (bound o)) = false.
Proof. destruct o as [[]|]; simpl; congruence. Qed.

Lemma post_prontuario_required d req :
  required_fields req ->
  exists r d1,
    post_prontuario d req = (created (Prontuario.id r), d1) /\
    Prontuario.id r = (high_water d + 1)%Z /\
    Prontuario.exames_solicitados r =
      Some (match get (body_of req) (js "exames_solicitados") with
            | Some (VArr items) => JSON.stringify (VArr items)
            | _ => js "[]"
            end) /\
    prontuarios d1 = prontuarios d ++ [r] /\
    seq_prontuarios d1 = Prontuario.id r.
Proof.
  intros (Hn & Hc & Hd & Hg).
  unfold post_prontuario, insert_prontuario.
  rewrite Hn, Hc, Hd, Hg. cbv beta iota. simpl negb. simpl orb.
  rewrite !truthy_bound_not_null by assumption.
  cbv beta iota. simpl orb. cbv beta iota.
  match goal with |- context [prontuarios d ++ [?row]] => exists row end.
  eexists. split; [reflexivity|]. simpl. repeat split.
  destruct (get (body_of req) (js "exames_solicitados")) as [[]|];
    reflexivity.
Qed.

Lemma select_prontuarios_newest d d1 r :
  prontuarios d1 = prontuarios d ++ [r] ->
  (high_water d < Prontuario.id r)%Z ->
  select_prontuarios d1 = r :: select_prontuarios d.
Proof.
  intros Hp Hr. unfold select_prontuarios. rewrite Hp.
  apply order_by_desc_newest. apply Forall_forall. intros y Hy.
  apply Z.leb_gt.
  assert (In (Prontuario.id y) (map Prontuario.id (prontuarios d)))
    by now apply in_map.
  apply fold_max_ge in H. unfold high_water in Hr. lia.
Qed.

Lemma high_water_after d d1 r :
  prontuarios d1 = prontuarios d ++ [r] ->
  seq_prontuarios d1 = Prontuario.id r ->
  (Prontuario.id r <= high_water d1)%Z.
Proof. intros _ Hs. unfold high_water. rewrite Hs. lia. Qed.

Lemma view_id r :
  get (prontuario_view r) (js "id") = Some (VNum (dec (Prontuario.id r))).
Proof. reflexivity. Qed.

Lemma view_exames_decoded r :
  get (prontuario_view r) (js "exames_solicitados") =
    Some (decode_exames (Prontuario.exames_solicitados r)).
Proof. reflexivity. Qed.

Lemma decode_strings requested :
  decode_exames (Some (JSON.stringify (VArr (map VStr requested)))) =
    VArr (map VStr requested).
Proof.
  unfold decode_exames.
  replace (col_or (Some (JSON.stringify (VArr (map VStr requested))))
                  (Some (js "[]")))
    with (Some (JSON.stringify (VArr (map VStr requested))))
    by (destruct requested; reflexivity).
  unfold col_text. now rewrite JSONFacts.parse_stringify_strings.
Qed.

(** C5.  The keys answered to a sequence of valid creations, which are
    the creations that carry the four required fields, strictly
    increase, and the listing that follows gives the new records newest
    first, before the older ones.  In the listing the
    [exames_solicitados] of a record is the list of strings of its
    request, and the empty list when the request had none or had
    something else than a list there. *)
Theorem create_then_list creations :
  forall d,
  Forall required_fields creations ->
  exists rows d',
    create_all d creations =
      (map (fun r => created (Prontuario.id r)) rows, d') /\
    StronglySorted Z.lt (map Prontuario.id rows) /\
    Forall (fun r => high_water d < Prontuario.id r)%Z rows /\
    get_prontuarios d' =
      json 200 (VArr (map prontuario_view
                          (rev rows ++ select_prontuarios d))) /\
    Forall2 (fun r req =>
               let supplied := get (body_of req) (js "exames_solicitados") in
               let listed :=
                 get (prontuario_view r) (js "exames_solicitados") in
               get (prontuario_view r) (js "id") =
                 Some (VNum (dec (Prontuario.id r))) /\
               (forall requested,
                  supplied = Some (VArr (map VStr requested)) ->
                  listed = Some (VArr (map VStr requested))) /\
               (supplied = None -> listed = Some (VArr [])) /\
               (forall v, supplied = Some v -> Array_isArray v = false ->
                  listed = Some (VArr [])))
            rows creations.
Proof.
  induction creations as [|req cs IH]; intros d Hv.
  - exists [], d. simpl. repeat split; constructor.
  - inversion Hv as [|? ? Hc Hcs]; subst.
    destruct (post_prontuario_required d req Hc)
      as (r & d1 & Hpost & Hid & Hex & Hrows & Hseq).
    destruct (IH d1 Hcs) as (rows & d' & Hall & Hsorted & Hnew & Hlist & Hview).
    assert (Hhw : (Prontuario.id r <= high_water d1)%Z)
      by (eapply high_water_after; eassumption).
    exists (r :: rows), d'. split; [|split; [|split; [|split]]].
    + simpl. rewrite Hpost, Hall. reflexivity.
    + simpl. constructor; [exact Hsorted|].
      apply Forall_map. eapply Forall_impl; [|exact Hnew].
      intros x Hx. simpl in Hx. lia.
    + constructor; [lia|].
      eapply Forall_impl; [|exact Hnew]. intros x Hx. simpl in Hx. lia.
    + rewrite Hlist. do 3 f_equal. simpl rev. rewrite <- app_assoc.
      f_equal. simpl. eapply select_prontuarios_newest; [eassumption|lia].
    + constructor; [|exact Hview]. cbv zeta.
      rewrite view_exames_decoded, Hex.
      split; [apply view_id|]. split; [|split].
      * intros requested ->. now rewrite decode_strings.
      * intros ->. reflexivity.
      * intros v -> Hv'. destruct v; try discriminate; reflexivity.
Qed.

Lemma create_then_list_witness :
  exists rows d',
    create_all empty_db four_creations =
      (map (fun r => created (Prontuario.id r)) rows, d') /\
    StronglySorted Z.lt (map Prontuario.id rows) /\
    get_prontuarios d' =
      json 200 (VArr (map prontuario_view
                          (rev rows ++ select_prontuarios empty_db))).
Proof.
  destruct (create_then_list four_creations empty_db)
    as (rows & d' & H1 & H2 & _ & H3 & _).
  - repeat constructor.
  - exists rows, d'. repeat split; assumption.
Defined.

(* ================================================================== *)
(** * Updating and deleting records (C6, C7) *)

Lemma filter_none {A} (f : A -> bool) l :
  (forall x, In x l -> f x = false) -> filter f l = [].
Proof.
  induction l as [|x t IH]; intros H; simpl; [reflexivity|].
  rewrite (H x) by now left. apply IH. intros y Hy. apply H. now right.
Qed.

Lemma filter_all {A} (f : A -> bool) l :
  (forall x, In x l -> f x = true) -> filter f l = l.
Proof.
  induction l as [|x t IH]; intros H; simpl; [reflexivity|].
  rewrite (H x) by now left. f_equal. apply IH. intros y Hy. apply H.
  now right.
Qed.

Lemma map_unchanged {A} (f : A -> A) l :
  (forall x, In x l -> f x = x) -> map f l = l.
Proof.
  induction l as [|x t IH]; intros H; simpl; [reflexivity|].
  rewrite (H x) by now left. f_equal. apply IH. intros y Hy. apply H.
  now right.
Qed.

Lemma filter_some {A} (f : A -> bool) l x :
  In x l -> f x = true -> Nat.eqb (List.length (filter f l)) 0 = false.
Proof.
  intros Hin Hx.
  assert (H : In x (filter f l)) by (apply filter_In; now split).
  destruct (filter f l); [destruct H | reflexivity].
Qed.

Section Records.

Variable key_eq : value -> Z -> bool.

(** C6, as amended.  With the required fields and an [exames_solicitados]
    that is present and is not an array, a creation succeeds and stores
    the text of the empty list; so does an update whose id is the key of
    a stored record, in every record it updates. *)
Theorem non_array_exams_stored_empty d req_body v :
  required_fields req_body ->
  get (body_of req_body) (js "exames_solicitados") = Some v ->
  Array_isArray v = false ->
  (exists r d',
     post_prontuario d req_body = (created (Prontuario.id r), d') /\
     prontuarios d' = prontuarios d ++ [r] /\
     Prontuario.exames_solicitados r = Some (js "[]")) /\
  (forall c rest,
     let id := c :: rest in
     (exists r, In r (prontuarios d) /\
                key_eq (VStr id) (Prontuario.id r) = true) ->
     exists d',
       put_prontuario key_eq d id req_body = (updated id, d') /\
       map Prontuario.id (prontuarios d') = map Prontuario.id (prontuarios d) /\
       Forall (fun r => key_eq (VStr id) (Prontuario.id r) = true ->
                        Prontuario.exames_solicitados r = Some (js "[]"))
              (prontuarios d') /\
       exists r, In r (prontuarios d') /\
                 key_eq (VStr id) (Prontuario.id r) = true).
Proof.
  intros (Hn & Hc & Hd & Hg) He Hv. split.
  - unfold post_prontuario, insert_prontuario.
    rewrite Hn, Hc, Hd, Hg, He. unfold default. rewrite Hv.
    cbv beta iota. simpl negb. simpl orb.
    rewrite !truthy_bound_not_null by assumption.
    cbv beta iota. simpl orb. cbv beta iota.
    match goal with |- context [prontuarios d ++ [?row]] => exists row end.
    eexists. split; [reflexivity|]. simpl. split; reflexivity.
  - intros c rest id (r & Hin & Hr).
    unfold put_prontuario, update_prontuario.
    assert (Ei : is_empty id = false) by reflexivity.
    rewrite Ei, Hn, Hc, Hd, Hg, He. unfold default. rewrite Hv.
    cbv beta iota. simpl negb. simpl orb.
    rewrite !truthy_bound_not_null by assumption.
    simpl orb. rewrite andb_false_r. cbv beta iota.
    rewrite (filter_some _ _ r Hin Hr).
    eexists. split; [reflexivity|]. simpl. split; [|split].
    + rewrite map_map. apply map_ext. intros x.
      now destruct (key_eq (VStr id) (Prontuario.id x)).
    + apply Forall_map. apply Forall_forall. intros x _.
      destruct (key_eq (VStr id) (Prontuario.id x)) eqn:Ex; simpl.
      * reflexivity.
      * congruence.
    + exists {| Prontuario.id := Prontuario.id r;
                Prontuario.nome :=
                  sql_text (bound (get (body_of req_body) (js "nome")));
                Prontuario.cpf :=
                  sql_text (bound (get (body_of req_body) (js "cpf")));
                Prontuario.data_consulta :=
                  sql_text (bound (get (body_of req_body)
                                       (js "data_consulta")));
                Prontuario.diagnostico :=
                  sql_text (bound (get (body_of req_body)
                                       (js "diagnostico")));
                Prontuario.sintomas :=
                  sql_text (match get (body_of req_body) (js "sintomas") with
                            | Some x => x
                            | None => VStr []
                            end);
                Prontuario.anamnese :=
                  sql_text (match get (body_of req_body) (js "anamnese") with
                            | Some x => x
                            | None => VStr []
                            end);
                Prontuario.exames_solicitados := Some (js "[]") |}.
      split; [|exact Hr].
      apply in_map_iff. exists r. rewrite Hr. split; [reflexivity | exact Hin].
Qed.

(** C7.  For an id that is the key of no stored record, an update that
    carries the required fields and a deletion are both answered 404,
    and the database is left as it was. *)
Theorem absent_id_not_found d c rest req_body :
  let id := c :: rest in
  (forall r, In r (prontuarios d) ->
             key_eq (VStr id) (Prontuario.id r) = false) ->
  (required_fields req_body ->
     put_prontuario key_eq d id req_body = (not_found, d)) /\
  delete_prontuario_route key_eq d id = (not_found, d).
Proof.
  intros id Habsent. split.
  - intros (Hn & Hc & Hd & Hg).
    unfold put_prontuario, update_prontuario.
    rewrite Hn, Hc, Hd, Hg. simpl is_empty. cbv beta iota. simpl negb.
    simpl orb. cbv beta iota.
    rewrite (filter_none _ _ Habsent). simpl.
    unfold not_found. f_equal. destruct d as [ps es sp se]. simpl in *.
    f_equal. apply map_unchanged. intros x Hx. now rewrite (Habsent x Hx).
  - unfold delete_prontuario_route, delete_prontuario. simpl is_empty.
    cbv beta iota. rewrite (filter_none _ _ Habsent). simpl.
    unfold not_found. f_equal. destruct d as [ps es sp se]. simpl in *.
    f_equal.
    + apply filter_all. intros x Hx. now rewrite (Habsent x Hx).
    + now apply filter_all.
Qed.

End Records.

Lemma non_array_exams_stored_empty_witness :
  exists r d',
    post_prontuario empty_db (Some string_exams_body) =
      (created (Prontuario.id r), d') /\
    prontuarios d' = prontuarios empty_db ++ [r] /\
    Prontuario.exames_solicitados r = Some (js "[]").
Proof.
  refine (proj1 (non_array_exams_stored_empty key_eq_decimal empty_db
                   (Some string_exams_body) (VStr (js "Hemograma")) _ _ _)).
  - repeat split.
  - reflexivity.
  - reflexivity.
Defined.

(** C6, as stated, fails for an update whose id is the key of no record:
    it is answered 404 and nothing is stored. *)
Lemma put_non_array_exams_absent_id_404 :
  required_fields (Some string_exams_body) /\
  get (body_of (Some string_exams_body)) (js "exames_solicitados") =
    Some (VStr (js "Hemograma")) /\
  put_prontuario key_eq_decimal empty_db (js "7") (Some string_exams_body) =
    (send 404 (js "Prontuário não encontrado"), empty_db).
Proof. vm_compute. repeat split. Qed.

Lemma absent_id_not_found_witness :
  put_prontuario key_eq_decimal empty_db (js "7") (Some string_exams_body) =
    (not_found, empty_db) /\
  delete_prontuario_route key_eq_decimal empty_db (js "7") =
    (not_found, empty_db).
Proof.
  destruct (absent_id_not_found key_eq_decimal empty_db (ch "7") []
              (Some string_exams_body)) as [Hput Hdel].
  - intros r [].
  - split; [apply Hput; repeat split | exact Hdel].
Defined.

(* ================================================================== *)
(** * Exam attachments (C8, C9) *)

Section Attachments.

Variable key_eq : value -> Z -> bool.

(** C8.  An upload without a file is answered 400 and inserts nothing; a
    textual result that is absent or blank is answered 400 and inserts
    nothing; and on both routes so is a request without a
    [prontuario_id]. *)
Theorem exam_ingest_rejections ts now d req_body :
  let body := body_of req_body in
  (exists message,
     post_exames_upload key_eq ts now d req_body None =
       (json_error 400 message, d)) /\
  (blank_or_absent (get body (js "resultado_texto")) ->
   exists message,
     post_exames_texto key_eq now d req_body = (json_error 400 message, d)) /\
  (truthy_opt (get body (js "prontuario_id")) = false ->
   (forall part,
      post_exames_upload key_eq ts now d req_body part =
        (json_error 400 (js "Informe prontuario_id"), d)) /\
   post_exames_texto key_eq now d req_body =
     (json_error 400 (js "Informe prontuario_id"), d)).
Proof.
  intros body. split; [|split].
  - unfold post_exames_upload. fold body. simpl upload_single.
    destruct (truthy_opt (get body (js "prontuario_id"))); simpl;
      eexists; reflexivity.
  - intros Hblank. unfold post_exames_texto. fold body.
    rewrite (call_trim_blank _ Hblank).
    destruct (truthy_opt (get body (js "prontuario_id"))); simpl;
      eexists; reflexivity.
  - intros Hno. split.
    + intros part. unfold post_exames_upload. fold body. now rewrite Hno.
    + unfold post_exames_texto. fold body. now rewrite Hno.
Qed.

Lemma safe_digit_or_minus c : digit_or_minus c -> is_safe c = true.
Proof.
  intros [H | ->]; [|reflexivity].
  unfold is_safe, is_word. rewrite H. now rewrite !orb_true_r.
Qed.

Lemma storage_filename_spec ts name :
  storage_filename ts name = dec ts ++ js "__" ++ replace_runs name.
Proof.
  unfold storage_filename. now rewrite (proj1 (replace_unsafe_runs name)).
Qed.

Lemma storage_filename_safe ts name :
  Forall (fun c => is_safe c = true) (storage_filename ts name).
Proof.
  unfold storage_filename. apply Forall_app. split.
  - eapply Forall_impl; [|apply dec_chars]. apply safe_digit_or_minus.
  - apply Forall_app. split; [repeat constructor|].
    apply replace_unsafe_safe.
Qed.

(** C9.  Whatever an upload stores, it stores one exam whose file
    reference is [/uploads/], the time stamp, two underscores and the
    original name with its runs of characters other than word
    characters, dots and hyphens each replaced by one underscore; the
    name after [/uploads/] is made of such characters only, so it holds
    no slash or backslash, and it is neither [.] nor [..].  An upload
    that is not answered 201 stores nothing. *)
Theorem upload_reference ts now d req_body name :
  let stored := dec ts ++ js "__" ++ replace_runs name in
  let answer :=
    fst (post_exames_upload key_eq ts now d req_body (Some name)) in
  let d' := snd (post_exames_upload key_eq ts now d req_body (Some name)) in
  (status answer = 201%Z ->
   exists e,
     exames d' = exames d ++ [e] /\
     Exame.arquivo_path e = Some (js "/uploads/" ++ stored)) /\
  (status answer <> 201%Z -> d' = d) /\
  Forall (fun c => is_safe c = true) stored /\
  ~ In (ch "/") stored /\ ~ In (ch "\") stored /\
  stored <> js "." /\ stored <> js "..".
Proof.
  intros stored answer d'. subst answer d'.
  assert (Hsafe : Forall (fun c => is_safe c = true) stored)
    by (unfold stored; rewrite <- storage_filename_spec;
        apply storage_filename_safe).
  assert (Hin : In (ch "_") stored)
    by (unfold stored; rewrite in_app_iff; right; now left).
  split; [|split; [|split; [|split; [|split; [|split]]]]].
  - unfold post_exames_upload, insert_exame, upload_single.
    rewrite storage_filename_spec. fold stored.
    destruct (truthy_opt _); simpl; [|discriminate].
    destruct (find _ _); simpl; [|discriminate].
    intros _. eexists. split; reflexivity.
  - unfold post_exames_upload, insert_exame, upload_single.
    destruct (truthy_opt _); simpl; [|reflexivity].
    destruct (find _ _); simpl; [|reflexivity]. congruence.
  - exact Hsafe.
  - intros H. rewrite Forall_forall in Hsafe. now apply Hsafe in H.
  - intros H. rewrite Forall_forall in Hsafe. now apply Hsafe in H.
  - intros E. rewrite E in Hin. vm_compute in Hin. intuition discriminate.
  - intros E. rewrite E in Hin. vm_compute in Hin. intuition discriminate.
Qed.

End Attachments.

Lemma exam_ingest_rejections_witness :
  exists message,
    post_exames_texto key_eq_decimal (js "2024-05-01 10:00:00") empty_db
      (Some (VObj [(js "prontuario_id", VNum (js "1"));
                   (js "resultado_texto", VStr (js "  "))])) =
    (json_error 400 message, empty_db).
Proof.
  refine (proj1 (proj2
    (exam_ingest_rejections key_eq_decimal 0 (js "2024-05-01 10:00:00")
       empty_db
       (Some (VObj [(js "prontuario_id", VNum (js "1"));
                    (js "resultado_texto", VStr (js "  "))])))) _).
  reflexivity.
Defined.

Lemma upload_reference_witness :
  exists e,
    exames (snd (post_exames_upload key_eq_decimal 1700000000000
                   (js "2024-05-01 10:00:00") one_record_db
                   (Some (VObj [(js "prontuario_id", VStr (js "1"))]))
                   (Some (js "../../etc/raio x (1).png")))) =
      exames one_record_db ++ [e] /\
    Exame.arquivo_path e =
      Some (js "/uploads/" ++ dec 1700000000000 ++ js "__" ++
            replace_runs (js "../../etc/raio x (1).png")).
Proof.
  refine (proj1
    (upload_reference key_eq_decimal 1700000000000 (js "2024-05-01 10:00:00")
       one_record_db (Some (VObj [(js "prontuario_id", VStr (js "1"))]))
       (js "../../etc/raio x (1).png")) _).
  vm_compute. reflexivity.
Defined.

(** The reference stored for a name that tries to climb out of the
    directory. *)
Example sanitized_name_example :
  map Exame.arquivo_path
    (exames (snd (post_exames_upload key_eq_decimal 1700000000000
                    (js "2024-05-01 10:00:00") one_record_db
                    (Some (VObj [(js "prontuario_id", VStr (js "1"))]))
                    (Some (js "../../etc/raio x (1).png"))))) =
  [Some (js "/uploads/1700000000000__.._.._etc_raio_x_1_.png")].
Proof. vm_compute. reflexivity. Qed.

(* ================================================================== *)
(** * Records: rejected requests, updates, deletions *)

Lemma not_required_fields req_body :
  ~ required_fields req_body ->
  let body := body_of req_body in
  negb (truthy_opt (get body (js "nome"))) ||
  negb (truthy_opt (get body (js "cpf"))) ||
  negb (truthy_opt (get body (js "data_consulta"))) ||
  negb (truthy_opt (get body (js "diagnostico"))) = true.
Proof.
  unfold required_fields. cbv zeta. intros H.
  destruct (truthy_opt (get (body_of req_body) (js "nome")));
    destruct (truthy_opt (get (body_of req_body) (js "cpf")));
    destruct (truthy_opt (get (body_of req_body) (js "data_consulta")));
    destruct (truthy_opt (get (body_of req_body) (js "diagnostico")));
    try reflexivity.
  exfalso. apply H. repeat split.
Qed.

Lemma required_fields_ok req_body :
  required_fields req_body ->
  let body := body_of req_body in
  negb (truthy_opt (get body (js "nome"))) ||
  negb (truthy_opt (get body (js "cpf"))) ||
  negb (truthy_opt (get body (js "data_consulta"))) ||
  negb (truthy_opt (get body (js "diagnostico"))) = false /\
  is_null (sql_text (bound (get body (js "nome")))) ||
  is_null (sql_text (bound (get body (js "cpf")))) ||
  is_null (sql_text (bound (get body (js "data_consulta")))) ||
  is_null (sql_text (bound (get body (js "diagnostico")))) = false.
Proof.
  unfold required_fields. cbv zeta. intros (Hn & Hc & Hd & Hg).
  rewrite Hn, Hc, Hd, Hg.
  rewrite !truthy_bound_not_null by assumption. split; reflexivity.
Qed.

Section RecordRoutes.

Variable key_eq : value -> Z -> bool.

(** X1.  A creation or an update that lacks one of the four required
    fields, or carries it with a falsy value, is answered 400 and leaves
    the database as it was. *)
Theorem required_field_missing d c rest req_body :
  ~ required_fields req_body ->
  post_prontuario d req_body = (send 400 required_msg, d) /\
  put_prontuario key_eq d (c :: rest) req_body = (send 400 required_msg, d).
Proof.
  intros H. apply not_required_fields in H. cbv zeta in H.
  unfold post_prontuario, put_prontuario. rewrite H. split; reflexivity.
Qed.

(** X2.  An update whose id is the key of a stored record is answered
    200; it keeps the keys, the order and the number of the records, the
    records it does not match and every exam.  In a record it matches,
    a required field sent as a string is stored as that string, and the
    optional fields the request leaves out are lost: [sintomas] and
    [anamnese] become the empty text and [exames_solicitados] the text
    of the empty list. *)
Theorem put_replaces_every_field d c rest req_body :
  let id := c :: rest in
  let body := body_of req_body in
  let hit r := key_eq (VStr id) (Prontuario.id r) in
  required_fields req_body ->
  (exists r, In r (prontuarios d) /\ hit r = true) ->
  exists d',
    put_prontuario key_eq d id req_body = (updated id, d') /\
    exames d' = exames d /\
    seq_prontuarios d' = seq_prontuarios d /\
    Forall2 (fun old new =>
               Prontuario.id new = Prontuario.id old /\
               (hit old = false -> new = old) /\
               (hit old = true ->
                (forall s, get body (js "nome") = Some (VStr s) ->
                 Prontuario.nome new = Some s) /\
                (forall s, get body (js "cpf") = Some (VStr s) ->
                 Prontuario.cpf new = Some s) /\
                (forall s, get body (js "data_consulta") = Some (VStr s) ->
                 Prontuario.data_consulta new = Some s) /\
                (forall s, get body (js "diagnostico") = Some (VStr s) ->
                 Prontuario.diagnostico new = Some s) /\
                (get body (js "sintomas") = None ->
                 Prontuario.sintomas new = Some []) /\
                (get body (js "anamnese") = None ->
                 Prontuario.anamnese new = Some []) /\
                (get body (js "exames_solicitados") = None ->
                 Prontuario.exames_solicitados new = Some (js "[]"))))
            (prontuarios d) (prontuarios d').
Proof.
  intros id body hit Hreq (r & Hin & Hr).
  destruct (required_fields_ok _ Hreq) as [H1 H2]. cbv zeta in H1, H2.
  fold body in H1, H2.
  unfold put_prontuario, update_prontuario. fold body.
  change (is_empty id) with false. cbv iota. rewrite H1, H2.
  rewrite andb_false_r. cbv iota.
  rewrite (filter_some (fun r => key_eq (VStr id) (Prontuario.id r))
             _ r Hin Hr).
  eexists. split; [reflexivity|]. simpl. repeat split.
  clear Hin. induction (prontuarios d) as [|x t IH]; simpl; constructor.
  - unfold hit. destruct (key_eq (VStr id) (Prontuario.id x)); simpl.
    + split; [reflexivity|]. split; [discriminate|]. intros _.
      repeat split; intros;
        match goal with E : get body _ = _ |- _ => rewrite E end;
        reflexivity.
    + split; [reflexivity|]. split; [reflexivity | discriminate].
  - exact IH.
Qed.

End RecordRoutes.

Lemma NoDup_map_filter {A B} (g : A -> B) (f : A -> bool) l :
  NoDup (map g l) -> NoDup (map g (filter f l)).
Proof.
  induction l as [|x t IH]; simpl; [trivial|].
  intros H. inversion H as [|? ? Hx Ht]; subst.
  destruct (f x); simpl; [|now apply IH].
  constructor; [|now apply IH].
  intros Hin. apply Hx. apply in_map_iff in Hin.
  destruct Hin as (y & Hy & Hyin). apply filter_In in Hyin.
  apply in_map_iff. exists y. tauto.
Qed.

Lemma fold_max_le ids m :
  (0 <= m)%Z -> Forall (fun i => i <= m)%Z ids ->
  (fold_right Z.max 0 ids <= m)%Z.
Proof. intros Hm. induction 1; simpl; lia. Qed.

Lemma next_id_wf seq ids :
  (0 <= seq)%Z -> Forall (fun i => i <= seq)%Z ids ->
  next_id seq ids = (seq + 1)%Z.
Proof.
  intros H0 H. unfold next_id. pose proof (fold_max_le ids seq H0 H). lia.
Qed.

Section Deletion.

Variable key_eq : value -> Z -> bool.

(** X3.  In a database the routes can produce, a deletion whose id is
    the key of a stored record is answered 200; the records left are
    the ones the id does not match; the exams left are the ones of the
    records left; and GET /exames for that id then lists nothing. *)
Theorem delete_cascades d c rest :
  let id := c :: rest in
  let hit r := key_eq (VStr id) (Prontuario.id r) in
  wf_db d ->
  (exists r, In r (prontuarios d) /\ hit r = true) ->
  exists d',
    delete_prontuario_route key_eq d id = (deleted id, d') /\
    (forall r, In r (prontuarios d') <->
               In r (prontuarios d) /\ hit r = false) /\
    (forall e, In e (exames d') <->
               In e (exames d) /\
               exists r, In r (prontuarios d') /\
                         Prontuario.id r = Exame.prontuario_id e) /\
    get_exames key_eq d' (exames_query id) = json 200 (VArr []).
Proof.
  intros id hit (_ & _ & _ & _ & Hfk & _) (r & Hin & Hr).
  unfold delete_prontuario_route, delete_prontuario.
  change (is_empty id) with false. cbv iota.
  rewrite length_map.
  rewrite (filter_some (fun r => key_eq (VStr id) (Prontuario.id r))
             _ r Hin Hr).
  eexists. split; [reflexivity|]. simpl.
  set (gone := map Prontuario.id (filter _ (prontuarios d))).
  assert (Hgone : forall z, In z gone <->
            exists x, In x (prontuarios d) /\ hit x = true /\
                      Prontuario.id x = z).
  { intros z. unfold gone. rewrite in_map_iff. split.
    - intros (x & <- & Hx). apply filter_In in Hx. exists x. tauto.
    - intros (x & Hx & Hh & <-). exists x. split; [reflexivity|].
      apply filter_In. tauto. }
  assert (Hleft : forall x, In x (filter (fun r => negb (hit r)) (prontuarios d))
                            <-> In x (prontuarios d) /\ hit x = false).
  { intros x. rewrite filter_In, negb_true_iff. reflexivity. }
  assert (Hex : forall e,
            In e (filter
                    (fun e => negb (existsb (Z.eqb (Exame.prontuario_id e)) gone))
                    (exames d)) <->
            In e (exames d) /\
            exists x, In x (filter (fun r => negb (hit r)) (prontuarios d)) /\
                      Prontuario.id x = Exame.prontuario_id e).
  { intros e. rewrite filter_In, negb_true_iff. split.
    - intros [He Hn]. split; [exact He|].
      rewrite Forall_forall in Hfk. specialize (Hfk e He).
      apply in_map_iff in Hfk. destruct Hfk as (x & Hx & Hxin).
      exists x. split; [|exact Hx]. apply Hleft. split; [exact Hxin|].
      destruct (hit x) eqn:Ehit; [|reflexivity].
      assert (In (Exame.prontuario_id e) gone)
        by (apply Hgone; exists x; tauto).
      assert (existsb (Z.eqb (Exame.prontuario_id e)) gone = true)
        by (apply existsb_exists; eexists; split;
            [eassumption | apply Z.eqb_refl]).
      congruence.
    - intros [He (x & Hx & Hid)]. split; [exact He|].
      apply Hleft in Hx. destruct Hx as [Hxin Hxh].
      destruct (existsb _ gone) eqn:Eg; [|reflexivity].
      apply existsb_exists in Eg. destruct Eg as (z & Hz & Ez).
      apply Z.eqb_eq in Ez. subst z. apply Hgone in Hz.
      destruct Hz as (y & _ & Hy & Hyid).
      unfold hit in Hy, Hxh. rewrite Hyid, <- Hid in Hy. congruence. }
  split; [exact Hleft|]. split; [exact Hex|].
  unfold get_exames, exames_query, select_exames. simpl.
  rewrite filter_none; [reflexivity|].
  intros e He. apply Hex in He. destruct He as [_ (x & Hx & Hid)].
  apply Hleft in Hx. rewrite <- Hid. apply Hx.
Qed.

End Deletion.

(* ================================================================== *)
(** * What every request keeps *)

(** ** The shape of the database after each route *)

Lemma post_prontuario_shape d req_body :
  snd (post_prontuario d req_body) = d \/
  exists r,
    snd (post_prontuario d req_body) =
      {| prontuarios := prontuarios d ++ [r]; exames := exames d;
         seq_prontuarios := Prontuario.id r; seq_exames := seq_exames d |} /\
    fst (post_prontuario d req_body) = created (Prontuario.id r) /\
    Prontuario.id r =
      next_id (seq_prontuarios d) (map Prontuario.id (prontuarios d)) /\
    exists items,
      Prontuario.exames_solicitados r = Some (JSON.stringify (VArr items)).
Proof.
  unfold post_prontuario, insert_prontuario.
  destruct (_ || _ || _ || _); [now left|].
  destruct (_ || _ || _ || _); [now left|].
  right.
  match goal with |- context [prontuarios d ++ [?row]] => exists row end.
  split; [reflexivity|]. split; [reflexivity|].
  split; [reflexivity|]. simpl.
  destruct (default _ _) as [| | | |items|]; simpl;
    try (exists []; reflexivity).
  exists items. reflexivity.
Qed.

Section Shapes.

Variable key_eq : value -> Z -> bool.

Lemma put_prontuario_shape d id req_body :
  snd (put_prontuario key_eq d id req_body) = d \/
  exists set,
    snd (put_prontuario key_eq d id req_body) =
      {| prontuarios := map set (prontuarios d); exames := exames d;
         seq_prontuarios := seq_prontuarios d; seq_exames := seq_exames d |} /\
    forall r,
      Prontuario.id (set r) = Prontuario.id r /\
      (set r = r \/
       exists items,
         Prontuario.exames_solicitados (set r) =
           Some (JSON.stringify (VArr items))).
Proof.
  unfold put_prontuario, update_prontuario.
  destruct (is_empty id); [now left|].
  destruct (_ || _ || _ || _); [now left|].
  destruct (_ && _); [now left|].
  right. eexists.
  split; [destruct (Nat.eqb _ 0); reflexivity|].
  intros r. simpl.
  destruct (key_eq (VStr id) (Prontuario.id r)); simpl;
    [|split; [reflexivity | now left]].
  split; [reflexivity|]. right.
  destruct (default _ _) as [| | | |items|]; simpl;
    try (exists []; reflexivity).
  exists items. reflexivity.
Qed.

Lemma delete_prontuario_shape d id :
  snd (delete_prontuario_route key_eq d id) = d \/
  exists gone,
    (forall z, In z gone <->
       exists r, In r (prontuarios d) /\
                 key_eq (VStr id) (Prontuario.id r) = true /\
                 Prontuario.id r = z) /\
    snd (delete_prontuario_route key_eq d id) =
      {| prontuarios :=
           filter (fun r => negb (key_eq (VStr id) (Prontuario.id r)))
                  (prontuarios d);
         exames :=
           filter (fun e => negb (existsb (Z.eqb (Exame.prontuario_id e)) gone))
                  (exames d);
         seq_prontuarios := seq_prontuarios d; seq_exames := seq_exames d |}.
Proof.
  unfold delete_prontuario_route, delete_prontuario.
  destruct (is_empty id); [now left|].
  right. eexists. split; [|destruct (Nat.eqb _ 0); reflexivity].
  intros z. rewrite in_map_iff. split.
  - intros (x & <- & Hx). apply filter_In in Hx. exists x. tauto.
  - intros (x & Hx & Hh & <-). exists x. split; [reflexivity|].
    apply filter_In. tauto.
Qed.

Lemma insert_exame_shape now d pid tipo obs arq res data :
  match insert_exame key_eq now d pid tipo obs arq res data with
  | Failed message => message = FOREIGN_KEY_failed /\
      forall r, In r (prontuarios d) -> key_eq pid (Prontuario.id r) = false
  | Done lastID changes d' =>
    exists e parent,
      In parent (prontuarios d) /\
      key_eq pid (Prontuario.id parent) = true /\
      Exame.prontuario_id e = Prontuario.id parent /\
      Exame.id e = lastID /\
      lastID = next_id (seq_exames d) (map Exame.id (exames d)) /\
      Exame.tipo e = sql_text tipo /\
      Exame.observacoes e = sql_text obs /\
      Exame.arquivo_path e = sql_text arq /\
      Exame.resultado_texto e = sql_text res /\
      Exame.data_resultado e = sql_text data /\
      Exame.created_at e = now /\
      d' = {| prontuarios := prontuarios d; exames := exames d ++ [e];
              seq_prontuarios := seq_prontuarios d; seq_exames := lastID |}
  end.
Proof.
  unfold insert_exame.
  destruct (find _ _) as [parent|] eqn:E.
  - apply find_some in E. destruct E as [Hin Hk].
    match goal with |- context [exames d ++ [?row]] => exists row end.
    exists parent. repeat split; assumption.
  - split; [reflexivity|]. intros r Hr. now apply (find_none _ _ E).
Qed.

Lemma post_exames_upload_shape ts now d req_body part :
  snd (post_exames_upload key_eq ts now d req_body part) = d \/
  exists e parent,
    In parent (prontuarios d) /\
    Exame.prontuario_id e = Prontuario.id parent /\
    Exame.id e = next_id (seq_exames d) (map Exame.id (exames d)) /\
    snd (post_exames_upload key_eq ts now d req_body part) =
      {| prontuarios := prontuarios d; exames := exames d ++ [e];
         seq_prontuarios := seq_prontuarios d; seq_exames := Exame.id e |}.
Proof.
  unfold post_exames_upload.
  destruct (negb _); [now left|].
  destruct (upload_single ts part) as [f|]; [|now left].
  match goal with |- context [insert_exame ?k ?n ?d ?a ?b ?c ?x ?y ?z] =>
    pose proof (insert_exame_shape n d a b c x y z) as H;
    destruct (insert_exame k n d a b c x y z) as [lastID ch d'|m] end;
    [|now left].
  destruct H as (e & parent & Hin & _ & Hp & Hid & Hl & _ & _ & _ & _ & _ & _ & ->).
  right. exists e, parent. simpl. rewrite Hid. repeat split; auto.
Qed.

Lemma post_exames_texto_shape now d req_body :
  snd (post_exames_texto key_eq now d req_body) = d \/
  exists e parent,
    In parent (prontuarios d) /\
    Exame.prontuario_id e = Prontuario.id parent /\
    Exame.id e = next_id (seq_exames d) (map Exame.id (exames d)) /\
    snd (post_exames_texto key_eq now d req_body) =
      {| prontuarios := prontuarios d; exames := exames d ++ [e];
         seq_prontuarios := seq_prontuarios d; seq_exames := Exame.id e |}.
Proof.
  unfold post_exames_texto.
  destruct (negb _); [now left|].
  destruct (call_trim _) as [t|]; [|now left].
  destruct (is_empty t); [now left|].
  match goal with |- context [insert_exame ?k ?n ?d ?a ?b ?c ?x ?y ?z] =>
    pose proof (insert_exame_shape n d a b c x y z) as H;
    destruct (insert_exame k n d a b c x y z) as [lastID ch d'|m] end;
    [|now left].
  destruct H as (e & parent & Hin & _ & Hp & Hid & Hl & _ & _ & _ & _ & _ & _ & ->).
  right. exists e, parent. simpl. rewrite Hid. repeat split; auto.
Qed.

End Shapes.

Lemma NoDup_snoc {A} (l : list A) x : NoDup l -> ~ In x l -> NoDup (l ++ [x]).
Proof.
  induction l as [|y t IH]; simpl; intros Hl Hx.
  - repeat constructor. intros [].
  - inversion Hl as [|? ? Hy Ht]; subst. constructor.
    + rewrite in_app_iff. simpl. intros [H | [H | []]]; [tauto|].
      subst. tauto.
    + apply IH; tauto.
Qed.

Lemma fresh_not_in (l : list Z) m x :
  Forall (fun i => i <= m)%Z l -> (m < x)%Z -> ~ In x l.
Proof.
  intros H Hx Hin. rewrite Forall_forall in H. apply H in Hin. lia.
Qed.

Lemma Forall_filter_keep {A} (P : A -> Prop) (f : A -> bool) l :
  Forall P l -> Forall P (filter f l).
Proof.
  intros H. apply Forall_forall. intros x Hx. apply filter_In in Hx.
  rewrite Forall_forall in H. now apply H.
Qed.

Section Invariants.

Variable key_eq : value -> Z -> bool.

Lemma dispatch_keeps_wf req d :
  wf_db d -> wf_db (snd (dispatch key_eq req d)).
Proof.
  intros Hwf. pose proof Hwf as (Hnd & Hle & Hnde & Hlee & Hfk & H0 & H0e).
  assert (Hids : Forall (fun i => i <= seq_prontuarios d)%Z
                   (map Prontuario.id (prontuarios d)))
    by now apply Forall_map.
  assert (Heids : Forall (fun i => i <= seq_exames d)%Z
                    (map Exame.id (exames d)))
    by now apply Forall_map.
  assert (Exam : forall d' e parent,
    In parent (prontuarios d) ->
    Exame.prontuario_id e = Prontuario.id parent ->
    Exame.id e = next_id (seq_exames d) (map Exame.id (exames d)) ->
    d' = {| prontuarios := prontuarios d; exames := exames d ++ [e];
            seq_prontuarios := seq_prontuarios d;
            seq_exames := Exame.id e |} ->
    wf_db d').
  { intros d' e parent Hin Hp Hid ->.
    rewrite (next_id_wf _ _ H0e Heids) in Hid.
    unfold wf_db; simpl. repeat split; try assumption; try lia.
    - rewrite map_app. simpl. apply NoDup_snoc; [assumption|].
      eapply fresh_not_in; [exact Heids | lia].
    - apply Forall_app. split; [|repeat constructor; lia].
      eapply Forall_impl; [|exact Hlee]. intros x Hx. simpl in Hx. lia.
    - apply Forall_app. split; [assumption|]. repeat constructor.
      rewrite Hp. now apply in_map. }
  destruct req as [b | id b | id | ts now b part | now b]; simpl.
  - destruct (post_prontuario_shape d b) as [-> | (r & -> & _ & Hid & _)];
      [assumption|].
    rewrite (next_id_wf _ _ H0 Hids) in Hid.
    unfold wf_db; simpl. repeat split; try assumption; try lia.
    + rewrite map_app. simpl. apply NoDup_snoc; [assumption|].
      eapply fresh_not_in; [exact Hids | lia].
    + apply Forall_app. split; [|repeat constructor; lia].
      eapply Forall_impl; [|exact Hle]. intros x Hx. simpl in Hx. lia.
    + eapply Forall_impl; [|exact Hfk]. intros e He. simpl in He.
      rewrite map_app. apply in_or_app. now left.
  - destruct (put_prontuario_shape key_eq d id b) as [-> | (set & -> & Hset)];
      [assumption|].
    assert (Emap : map Prontuario.id (map set (prontuarios d)) =
                   map Prontuario.id (prontuarios d))
      by (rewrite map_map; apply map_ext; intros x; apply Hset).
    unfold wf_db; simpl. rewrite Emap. repeat split; try assumption.
    apply Forall_map. eapply Forall_impl; [|exact Hle].
    intros x Hx. simpl in *. now rewrite (proj1 (Hset x)).
  - destruct (delete_prontuario_shape key_eq d id)
      as [-> | (gone & Hgone & ->)]; [assumption|].
    unfold wf_db; simpl. repeat split; try assumption.
    + now apply NoDup_map_filter.
    + now apply Forall_filter_keep.
    + now apply NoDup_map_filter.
    + now apply Forall_filter_keep.
    + apply Forall_forall. intros e He. apply filter_In in He.
      destruct He as [He Hn]. apply negb_true_iff in Hn.
      rewrite Forall_forall in Hfk. specialize (Hfk e He).
      apply in_map_iff in Hfk. destruct Hfk as (x & Hx & Hxin).
      apply in_map_iff. exists x. split; [exact Hx|].
      apply filter_In. split; [exact Hxin|]. apply negb_true_iff.
      destruct (key_eq (VStr id) (Prontuario.id x)) eqn:Eh; [|reflexivity].
      assert (In (Exame.prontuario_id e) gone)
        by (apply Hgone; exists x; tauto).
      assert (existsb (Z.eqb (Exame.prontuario_id e)) gone = true)
        by (apply existsb_exists; eexists; split;
            [eassumption | apply Z.eqb_refl]).
      congruence.
  - destruct (post_exames_upload_shape key_eq ts now d b part)
      as [-> | (e & parent & Hin & Hp & Hid & E)]; [assumption|].
    eapply Exam; eassumption.
  - destruct (post_exames_texto_shape key_eq now d b)
      as [-> | (e & parent & Hin & Hp & Hid & E)]; [assumption|].
    eapply Exam; eassumption.
Qed.

Lemma run_wf reqs :
  forall d, wf_db d -> wf_db (run key_eq reqs d).
Proof.
  induction reqs as [|req rest IH]; intros d Hwf; simpl; [exact Hwf|].
  apply IH. now apply dispatch_keeps_wf.
Qed.

Lemma dispatch_seq_mono req d :
  wf_db d ->
  (seq_prontuarios d <= seq_prontuarios (snd (dispatch key_eq req d)))%Z.
Proof.
  intros (Hnd & Hle & Hnde & Hlee & Hfk & H0 & H0e).
  assert (Hids : Forall (fun i => i <= seq_prontuarios d)%Z
                   (map Prontuario.id (prontuarios d)))
    by now apply Forall_map.
  destruct req as [b | id b | id | ts now b part | now b]; simpl.
  - destruct (post_prontuario_shape d b) as [-> | (r & -> & _ & Hid & _)];
      [lia|].
    rewrite (next_id_wf _ _ H0 Hids) in Hid. simpl. lia.
  - destruct (put_prontuario_shape key_eq d id b) as [-> | (set & -> & _)];
      simpl; lia.
  - destruct (delete_prontuario_shape key_eq d id) as [-> | (gone & _ & ->)];
      simpl; lia.
  - destruct (post_exames_upload_shape key_eq ts now d b part)
      as [-> | (e & parent & _ & _ & _ & ->)]; simpl; lia.
  - destruct (post_exames_texto_shape key_eq now d b)
      as [-> | (e & parent & _ & _ & _ & ->)]; simpl; lia.
Qed.

Lemma run_seq_mono reqs :
  forall d, wf_db d ->
  (seq_prontuarios d <= seq_prontuarios (run key_eq reqs d))%Z.
Proof.
  induction reqs as [|req rest IH]; intros d Hwf; simpl; [lia|].
  pose proof (dispatch_seq_mono req d Hwf).
  pose proof (IH _ (dispatch_keeps_wf req d Hwf)). lia.
Qed.

(** X4.  Whatever the requests, a database the routes can produce stays
    one: no key is stored twice, no key is above the table's sequence
    entry, and every exam belongs to a stored record; and the sequence
    entry of the records never goes down. *)
Theorem run_keeps_wf reqs d :
  wf_db d ->
  wf_db (run key_eq reqs d) /\
  (seq_prontuarios d <= seq_prontuarios (run key_eq reqs d))%Z.
Proof.
  intros Hwf. split; [now apply run_wf | now apply run_seq_mono].
Qed.

(** X5.  Keys are never given twice: after any sequence of requests, a
    creation that is answered 201 gets a key above every key that was
    stored before the sequence, deleted since or not, and above every
    key stored now. *)
Theorem keys_never_reused d reqs req_body :
  let d1 := run key_eq reqs d in
  wf_db d ->
  status (fst (post_prontuario d1 req_body)) = 201%Z ->
  exists r,
    fst (post_prontuario d1 req_body) = created (Prontuario.id r) /\
    prontuarios (snd (post_prontuario d1 req_body)) = prontuarios d1 ++ [r] /\
    Forall (fun old => Prontuario.id old < Prontuario.id r)%Z (prontuarios d) /\
    Forall (fun old => Prontuario.id old < Prontuario.id r)%Z (prontuarios d1).
Proof.
  intros d1 Hwf Hst.
  pose proof (run_wf reqs d Hwf) as Hwf1. fold d1 in Hwf1.
  pose proof (run_seq_mono reqs d Hwf) as Hmono. fold d1 in Hmono.
  destruct Hwf as (_ & Hle & _).
  destruct Hwf1 as (_ & Hle1 & _ & _ & _ & H01 & _).
  assert (Hids : Forall (fun i => i <= seq_prontuarios d1)%Z
                   (map Prontuario.id (prontuarios d1)))
    by now apply Forall_map.
  unfold post_prontuario, insert_prontuario in *.
  destruct (_ || _ || _ || _); [discriminate|].
  destruct (_ || _ || _ || _); [discriminate|].
  match goal with |- context [prontuarios d1 ++ [?row]] => exists row end.
  simpl. rewrite (next_id_wf _ _ H01 Hids).
  repeat split.
  - eapply Forall_impl; [|exact Hle]. intros x Hx. simpl in Hx. lia.
  - eapply Forall_impl; [|exact Hle1]. intros x Hx. simpl in Hx. lia.
Qed.

(** X6.  No request changes an exam: after any request the exams are
    the ones of before, in the same order, without the ones a deletion
    took with their record, and with at most one new exam at the end. *)
Theorem exams_are_immutable req d :
  exists keep added,
    exames (snd (dispatch key_eq req d)) =
      filter keep (exames d) ++ added /\
    (List.length added <= 1)%nat /\
    ((forall id, req <> DELETE_prontuario id) ->
     filter keep (exames d) = exames d).
Proof.
  assert (Same : forall d', exames d' = exames d ->
    exists keep added,
      exames d' = filter keep (exames d) ++ added /\
      (List.length added <= 1)%nat /\
      ((forall id, req <> DELETE_prontuario id) ->
       filter keep (exames d) = exames d)).
  { intros d' E. exists (fun _ => true), []. rewrite E, app_nil_r.
    assert (F : filter (fun _ : Exame.row => true) (exames d) = exames d)
      by now apply filter_all.
    rewrite F. repeat split; auto. }
  assert (Added : forall d' e, exames d' = exames d ++ [e] ->
    exists keep added,
      exames d' = filter keep (exames d) ++ added /\
      (List.length added <= 1)%nat /\
      ((forall id, req <> DELETE_prontuario id) ->
       filter keep (exames d) = exames d)).
  { intros d' e E. exists (fun _ => true), [e]. rewrite E.
    assert (F : filter (fun _ : Exame.row => true) (exames d) = exames d)
      by now apply filter_all.
    rewrite F. repeat split; auto. }
  destruct req as [b | id b | id | ts now b part | now b]; simpl.
  - destruct (post_prontuario_shape d b) as [-> | (r & -> & _)];
      now apply Same.
  - destruct (put_prontuario_shape key_eq d id b) as [-> | (set & -> & _)];
      now apply Same.
  - destruct (delete_prontuario_shape key_eq d id)
      as [E | (gone & _ & E)]; rewrite E.
    + exists (fun _ => true), []. rewrite app_nil_r.
      assert (F : filter (fun _ : Exame.row => true) (exames d) = exames d)
        by now apply filter_all.
      rewrite F. repeat split; auto.
    + eexists. exists []. simpl. rewrite app_nil_r.
      split; [reflexivity|]. split; [lia|]. intros Hne.
      now elim (Hne id).
  - destruct (post_exames_upload_shape key_eq ts now d b part)
      as [-> | (e & parent & _ & _ & _ & ->)];
      [now apply Same | now apply (Added _ e)].
  - destruct (post_exames_texto_shape key_eq now d b)
      as [-> | (e & parent & _ & _ & _ & ->)];
      [now apply Same | now apply (Added _ e)].
Qed.

(** The column [exames_solicitados] of every record is the JSON text of
    a list, whatever requests were served. *)
Lemma run_keeps_lists reqs :
  forall d,
  Forall (fun r => exists items,
            Prontuario.exames_solicitados r =
              Some (JSON.stringify (VArr items))) (prontuarios d) ->
  Forall (fun r => exists items,
            Prontuario.exames_solicitados r =
              Some (JSON.stringify (VArr items)))
         (prontuarios (run key_eq reqs d)).
Proof.
  induction reqs as [|req rest IH]; intros d H; simpl; [exact H|].
  apply IH.
  destruct req as [b | id b | id | ts now b part | now b]; simpl.
  - destruct (post_prontuario_shape d b) as [-> | (r & -> & _ & _ & Hr)];
      [assumption|].
    simpl. apply Forall_app. split; [assumption | now repeat constructor].
  - destruct (put_prontuario_shape key_eq d id b) as [-> | (set & -> & Hset)];
      [assumption|].
    simpl. apply Forall_map. eapply Forall_impl; [|exact H].
    intros x Hx. simpl in Hx.
    destruct (proj2 (Hset x)) as [E | E]; [now rewrite E | exact E].
  - destruct (delete_prontuario_shape key_eq d id)
      as [-> | (gone & _ & ->)]; [assumption|].
    simpl. now apply Forall_filter_keep.
  - destruct (post_exames_upload_shape key_eq ts now d b part)
      as [-> | (e & parent & _ & _ & _ & ->)]; assumption.
  - destruct (post_exames_texto_shape key_eq now d b)
      as [-> | (e & parent & _ & _ & _ & ->)]; assumption.
Qed.

End Invariants.

(* ================================================================== *)
(** * More on the triage route *)

Lemma or_else_truthy a b : truthy b = true -> truthy (or_else a b) = true.
Proof. intros H. unfold or_else. destruct (truthy a) eqn:E; assumption. Qed.

Lemma trim_start_head c t :
  is_js_space c = false -> trim_start (c :: t) = c :: t.
Proof. intros H. simpl. now rewrite H. Qed.

Lemma trim_start_shape s :
  trim_start s = [] \/
  exists c t, trim_start s = c :: t /\ is_js_space c = false.
Proof.
  induction s as [|c t IH]; simpl; [now left|].
  destruct (is_js_space c) eqn:E; [exact IH|]. right. now exists c, t.
Qed.

Lemma trim_start_suffix_of s :
  exists pre, s = pre ++ trim_start s.
Proof.
  induction s as [|c t [pre IH]]; simpl; [now exists []|].
  destruct (is_js_space c); [|now exists []].
  exists (c :: pre). simpl. now rewrite <- IH.
Qed.

Lemma trim_start_idem s : trim_start (trim_start s) = trim_start s.
Proof.
  destruct (trim_start_shape s) as [-> | (c & t & -> & Hc)];
    [reflexivity | now apply trim_start_head].
Qed.

(** A trimmed text has nothing left to trim. *)
Lemma trim_idem s : trim (trim s) = trim s.
Proof.
  unfold trim.
  set (a := trim_start s).
  assert (Ha : trim_start a = a) by apply trim_start_idem.
  set (b := trim_start (rev a)).
  assert (Hb : trim_start b = b) by apply trim_start_idem.
  assert (Hrb : trim_start (rev b) = rev b).
  { destruct (trim_start_suffix_of (rev a)) as [pre E]. fold b in E.
    assert (Ea : a = rev b ++ rev pre)
      by (rewrite <- rev_app_distr, <- E; now rewrite rev_involutive).
    destruct (rev b) as [|c t] eqn:Erb; [reflexivity|].
    rewrite Ea in Ha. simpl in Ha.
    destruct (is_js_space c) eqn:Ec; [|now apply trim_start_head].
    exfalso. remember (t ++ rev pre) as x.
    destruct (trim_start_suffix_of x) as [pre' E'].
    rewrite Ha in E'.
    apply (f_equal (@List.length N)) in E'.
    rewrite length_app in E'. simpl in E'. lia. }
  rewrite Hrb, rev_involutive. now rewrite Hb.
Qed.





Section TriageMore.

Variable key_eq : value -> Z -> bool.
Variables OLLAMA_HOST OLLAMA_MODEL : jsstring.
Variable fetch : prompt -> fetch_result.


(** X7.  The triage route always answers, and with one of three
    statuses: 200 after exactly one call to the endpoint, 400 after
    none, 502 after at most one.  No exception leaves the route. *)
Theorem triage_always_answers d req_body :
  let answer :=
    fst (ai_diagnostico key_eq OLLAMA_HOST OLLAMA_MODEL fetch d req_body) in
  let sent :=
    snd (ai_diagnostico key_eq OLLAMA_HOST OLLAMA_MODEL fetch d req_body) in
  (status answer = 200%Z /\ List.length sent = 1%nat) \/
  (status answer = 400%Z /\ sent = []) \/
  (status answer = 502%Z /\ (List.length sent <= 1)%nat).
Proof.
  intros answer sent. subst answer sent. rewrite triage_unfold.
  assert (After : forall p,
    let r := after_prompt OLLAMA_HOST OLLAMA_MODEL fetch p in
    (status (fst r) = 200%Z /\ List.length (snd r) = 1%nat) \/
    (status (fst r) = 400%Z /\ snd r = []) \/
    (status (fst r) = 502%Z /\ (List.length (snd r) <= 1)%nat)).
  { intros p. cbv zeta. rewrite snd_after_prompt.
    destruct (status_after_prompt OLLAMA_HOST OLLAMA_MODEL fetch p) as [E | E];
      rewrite E; [left | right; right]; split; simpl; auto. }
  repeat match goal with
         | |- context [match ?x with _ => _ end] =>
           lazymatch x with
           | after_prompt _ _ _ _ => fail
           | _ => destruct x
           end
         end;
    try apply After;
    try (right; left; split; reflexivity);
    right; right; split; simpl; auto.
Qed.

(** X8.  When the endpoint fails the route answers 502 and says why:
    the message of the rejected [fetch], or the status and the body of a
    response that is not a success; a success whose body is not JSON is
    a 502 as well. *)
Theorem triage_endpoint_failure d req_body p :
  snd (ai_diagnostico key_eq OLLAMA_HOST OLLAMA_MODEL fetch d req_body) = [p] ->
  let answer :=
    fst (ai_diagnostico key_eq OLLAMA_HOST OLLAMA_MODEL fetch d req_body) in
  (forall message, fetch p = Rejected message ->
     answer = bad_gateway OLLAMA_HOST OLLAMA_MODEL (Error message)) /\
  (forall st txt, fetch p = Responded st txt ->
     (st < 200 \/ 299 < st)%Z ->
     answer = bad_gateway OLLAMA_HOST OLLAMA_MODEL
                (Error (js "Ollama HTTP " ++ dec st ++ js " - " ++ txt))) /\
  (forall st txt, fetch p = Responded st txt ->
     (200 <= st <= 299)%Z -> JSON.parse txt = None ->
     answer = bad_gateway OLLAMA_HOST OLLAMA_MODEL SyntaxError).
Proof.
  intros Hsent answer. subst answer.
  rewrite (triage_sent _ _ _ _ _ _ _ Hsent).
  unfold after_prompt, askOllama. split; [|split].
  - intros m E. now rewrite E.
  - intros st txt E Hst. rewrite E.
    assert (R : resp_ok st = false)
      by (unfold resp_ok; apply andb_false_iff;
          destruct Hst; [left; apply Z.leb_gt | right; apply Z.leb_gt]; lia).
    now rewrite R.
  - intros st txt E Hst Hp. rewrite E.
    assert (R : resp_ok st = true)
      by (unfold resp_ok; apply andb_true_iff; split; apply Z.leb_le; lia).
    now rewrite R, Hp.
Qed.


(** X10.  A summary sent with the request wins over the record id: when
    [exames_resumo] is a string that is not blank, or when there is no
    truthy [prontuario_id], the route does not read the database. *)
Theorem triage_reads_exams_only_on_demand req_body :
  let body := body_of req_body in
  (exists s, get body (js "exames_resumo") = Some (VStr s) /\ trim s <> []) \/
  truthy (default (get body (js "prontuario_id")) VNull) = false ->
  forall d1 d2,
    ai_diagnostico key_eq OLLAMA_HOST OLLAMA_MODEL fetch d1 req_body =
    ai_diagnostico key_eq OLLAMA_HOST OLLAMA_MODEL fetch d2 req_body.
Proof.
  intros body H d1 d2. rewrite !triage_unfold. fold body.
  destruct H as [(s & E & Hs) | E].
  - rewrite E.
    assert (Hne : is_empty (trim s) = false).
    { unfold is_empty. destruct (str_eqb (trim s) []) eqn:X; [|reflexivity].
      apply str_eqb_eq in X. congruence. }
    assert (Ht : truthy (VStr s) = true).
    { simpl. destruct s; [now elim Hs | reflexivity]. }
    change (default (Some (VStr s)) (VStr [])) with (VStr s).
    change (call_trim (VStr s)) with (Ok (trim s)).
    rewrite Ht, Hne. reflexivity.
  - rewrite E. reflexivity.
Qed.

(** X11.  The summary that is sent is the trimmed [exames_resumo] of
    the request when that is a string that is not blank. *)
Theorem triage_sends_given_summary d req_body s p :
  get (body_of req_body) (js "exames_resumo") = Some (VStr s) ->
  trim s <> [] ->
  In p (snd (ai_diagnostico key_eq OLLAMA_HOST OLLAMA_MODEL fetch d
               req_body)) ->
  EXAMES p = trim s.
Proof.
  intros E Hs. rewrite triage_unfold. rewrite E.
  assert (Hne : is_empty (trim s) = false).
  { unfold is_empty. destruct (str_eqb (trim s) []) eqn:X; [|reflexivity].
    apply str_eqb_eq in X. congruence. }
  assert (Ht : truthy (VStr s) = true).
  { simpl. destruct s; [now elim Hs | reflexivity]. }
  change (default (Some (VStr s)) (VStr [])) with (VStr s).
  change (call_trim (VStr s)) with (Ok (trim s)).
  rewrite Ht, Hne. simpl negb. cbv iota.
  repeat match goal with
         | |- context [match ?x with _ => _ end] =>
           lazymatch x with
           | after_prompt _ _ _ _ => fail
           | template _ => fail
           | _ => destruct x
           end
         end;
    try (intros []);
    unfold template; destruct (_ || _); try (intros []);
    rewrite snd_after_prompt; intros [<- | []];
    first [reflexivity | discriminate].
Qed.

(** X12.  The text [askOllama] returns is trimmed. *)
Theorem askOllama_trimmed p log raw :
  fst (askOllama fetch p log) = Ok raw -> trim raw = raw.
Proof.
  unfold askOllama. destruct (fetch p) as [m|st txt]; [discriminate|].
  destruct (negb (resp_ok st)); [discriminate|].
  destruct (JSON.parse txt) as [data|]; [|discriminate].
  assert (G : forall v, call_trim v = Ok raw -> trim raw = raw).
  { intros [] E; try discriminate. injection E as <-. apply trim_idem. }
  destruct data; cbn [fst]; solve [discriminate | apply G].
Qed.

End TriageMore.

(** X13.  The interpreter throws in one case only: the text is not JSON,
    it has a brace-delimited end, and that end is not JSON either.  In
    particular a text that does not end with a closing brace is always
    given a suggestion. *)
Theorem interpret_throws_only_on_braces raw :
  (forall e, interpret raw = Throw e <->
     e = SyntaxError /\ JSON.parse raw = None /\
     exists m, brace_suffix raw m /\ JSON.parse m = None) /\
  (ends_with (ch "}") raw = false -> exists v, interpret raw = Ok v).
Proof.
  split.
  - intros e. unfold interpret. split.
    + destruct (JSON.parse raw) as [v|]; [discriminate|].
      destruct (match_braces raw) as [m|] eqn:Em; [|discriminate].
      destruct (JSON.parse m) as [v|] eqn:Ep; [discriminate|].
      intros H. injection H as <-. repeat split.
      exists m. split; [now apply match_braces_spec | exact Ep].
    + intros (-> & Hr & m & Hm & Hp). apply match_braces_spec in Hm.
      now rewrite Hr, Hm, Hp.
  - intros Hend. unfold interpret.
    destruct (JSON.parse raw) as [v|]; [now exists v|].
    destruct (match_braces raw) as [m|] eqn:Em; [|eexists; reflexivity].
    exfalso. apply match_braces_spec in Em.
    destruct Em as (pre & mid & -> & -> & _).
    rewrite ends_with_app in Hend by discriminate.
    change (ch "{" :: mid ++ [ch "}"])
      with ((ch "{" :: mid) ++ [ch "}"]) in Hend.
    now rewrite ends_with_last in Hend.
Qed.

(* ================================================================== *)
(** * More on exam attachments *)

Lemma contains_trans a b c : contains a b -> contains b c -> contains a c.
Proof.
  intros (p1 & q1 & ->) (p2 & q2 & ->).
  exists (p1 ++ p2), (q2 ++ q1). now rewrite <- !app_assoc.
Qed.

(** The date that is stored: [data_anexo || data_resultado || ''], then
    [|| null]. *)
Lemma stored_date a b :
  sql_text (or_else (or_else (or_else a b) (VStr [])) VNull) =
  if truthy a then sql_text a
  else if truthy b then sql_text b else None.
Proof.
  unfold or_else. destruct (truthy a) eqn:Ea.
  - cbv iota. rewrite Ea. cbv iota. now rewrite Ea.
  - cbv iota. destruct (truthy b) eqn:Eb.
    + cbv iota. now rewrite Eb.
    + reflexivity.
Qed.

Section AttachmentsMore.

Variable key_eq : value -> Z -> bool.

(** X14.  A textual result for a record that exists is answered 201 and
    stored as one new exam, after the others and under a new key above
    theirs: it belongs to the record the id matches, holds the text as
    it was sent, not trimmed, and has no file.  Its date is [data_anexo]
    when that is a string that is not empty; when [data_anexo] is falsy
    it is [data_resultado] if that is a string that is not empty, and
    NULL if that is falsy too. *)
Theorem texto_is_stored now d req_body s :
  let body := body_of req_body in
  let prontuario_id := bound (get body (js "prontuario_id")) in
  let data_anexo := default (get body (js "data_anexo")) (VStr []) in
  let data_resultado := default (get body (js "data_resultado")) (VStr []) in
  wf_db d ->
  truthy prontuario_id = true ->
  (exists r, In r (prontuarios d) /\
             key_eq prontuario_id (Prontuario.id r) = true) ->
  get body (js "resultado_texto") = Some (VStr s) ->
  trim s <> [] ->
  exists e parent,
    status (fst (post_exames_texto key_eq now d req_body)) = 201%Z /\
    exames (snd (post_exames_texto key_eq now d req_body)) =
      exames d ++ [e] /\
    prontuarios (snd (post_exames_texto key_eq now d req_body)) =
      prontuarios d /\
    In parent (prontuarios d) /\
    key_eq prontuario_id (Prontuario.id parent) = true /\
    Exame.prontuario_id e = Prontuario.id parent /\
    Forall (fun old => Exame.id old < Exame.id e)%Z (exames d) /\
    Exame.resultado_texto e = Some s /\
    Exame.arquivo_path e = None /\
    Exame.created_at e = now /\
    (forall a, data_anexo = VStr a -> a <> [] ->
       Exame.data_resultado e = Some a) /\
    (truthy data_anexo = false ->
       forall b, data_resultado = VStr b -> b <> [] ->
       Exame.data_resultado e = Some b) /\
    (truthy data_anexo = false -> truthy data_resultado = false ->
       Exame.data_resultado e = None).
Proof.
  intros body pid data_anexo data_resultado Hwf Hpid (r & Hin & Hr) Hs Hne.
  destruct Hwf as (_ & _ & _ & Hlee & _ & _ & H0e).
  assert (Heids : Forall (fun i => i <= seq_exames d)%Z
                    (map Exame.id (exames d)))
    by now apply Forall_map.
  unfold post_exames_texto. fold body. fold data_anexo. fold data_resultado.
  assert (Hp : truthy_opt (get body (js "prontuario_id")) = true).
  { unfold pid, bound in Hpid. destruct (get body (js "prontuario_id"));
      [exact Hpid | discriminate]. }
  rewrite Hp, Hs. simpl negb. cbv iota.
  change (call_trim (default (Some (VStr s)) (VStr []))) with (Ok (trim s)).
  cbv iota.
  assert (He : is_empty (trim s) = false).
  { unfold is_empty. destruct (str_eqb (trim s) []) eqn:X; [|reflexivity].
    apply str_eqb_eq in X. congruence. }
  rewrite He. fold pid.
  match goal with |- context [insert_exame ?k ?n ?d ?a ?b ?c ?x ?y ?z] =>
    pose proof (insert_exame_shape k n d a b c x y z) as H;
    destruct (insert_exame k n d a b c x y z) as [lastID ch d'|m] end.
  - destruct H as (e & parent & Hpin & Hk & Hpp & Hid & Hl & _ & _ & Ha & Hres
                   & Hdate & Hnow & ->).
    exists e, parent. simpl. repeat split; try assumption.
    + rewrite Hid, Hl, (next_id_wf _ _ H0e Heids).
      eapply Forall_impl; [|exact Hlee]. intros x Hx. simpl in Hx. lia.
    + intros a Ea Hna. rewrite Hdate, stored_date, Ea.
      destruct a; [now elim Hna | reflexivity].
    + intros Hf b Eb Hnb. rewrite Hdate, stored_date, Hf, Eb.
      destruct b; [now elim Hnb | reflexivity].
    + intros Hf1 Hf2. rewrite Hdate, stored_date, Hf1, Hf2. reflexivity.
  - destruct H as [_ H]. rewrite (H r Hin) in Hr. discriminate.
Qed.

(** X15.  An exam for a record that does not exist is refused by the
    foreign key: the upload that carries a file and the textual result
    that is not blank are both answered 500 with the message of the
    constraint, and nothing is stored. *)
Theorem exam_for_unknown_record ts now d req_body :
  let body := body_of req_body in
  let prontuario_id := bound (get body (js "prontuario_id")) in
  truthy prontuario_id = true ->
  (forall r, In r (prontuarios d) ->
             key_eq prontuario_id (Prontuario.id r) = false) ->
  (forall name,
     post_exames_upload key_eq ts now d req_body (Some name) =
       (json_error 500 FOREIGN_KEY_failed, d)) /\
  (forall s, get body (js "resultado_texto") = Some (VStr s) ->
     trim s <> [] ->
     post_exames_texto key_eq now d req_body =
       (json_error 500 FOREIGN_KEY_failed, d)).
Proof.
  intros body pid Hpid Hnone.
  assert (Hp : truthy_opt (get body (js "prontuario_id")) = true).
  { unfold pid, bound in Hpid. destruct (get body (js "prontuario_id"));
      [exact Hpid | discriminate]. }
  assert (Hfind : find (fun r => key_eq pid (Prontuario.id r))
                       (prontuarios d) = None).
  { destruct (find _ _) as [x|] eqn:E; [|reflexivity].
    apply find_some in E. destruct E as [Hx Hk].
    rewrite (Hnone x Hx) in Hk. discriminate. }
  split.
  - intros name. unfold post_exames_upload, insert_exame. fold body.
    rewrite Hp. simpl negb. cbv iota. simpl upload_single. cbv iota.
    fold pid. now rewrite Hfind.
  - intros s Hs Hne. unfold post_exames_texto, insert_exame. fold body.
    rewrite Hp, Hs. simpl negb. cbv iota.
    change (call_trim (default (Some (VStr s)) (VStr []))) with (Ok (trim s)).
    cbv iota.
    assert (He : is_empty (trim s) = false).
    { unfold is_empty. destruct (str_eqb (trim s) []) eqn:X; [|reflexivity].
      apply str_eqb_eq in X. congruence. }
    rewrite He. fold pid. now rewrite Hfind.
Qed.

(** X16.  After an upload for a record that exists, the summary of that
    record contains the reference of the file and the note that asks to
    interpret the file. *)
Theorem upload_then_summary ts now d req_body name :
  let body := body_of req_body in
  let prontuario_id := bound (get body (js "prontuario_id")) in
  let d' := snd (post_exames_upload key_eq ts now d req_body (Some name)) in
  truthy prontuario_id = true ->
  (exists r, In r (prontuarios d) /\
             key_eq prontuario_id (Prontuario.id r) = true) ->
  status (fst (post_exames_upload key_eq ts now d req_body (Some name))) =
    201%Z /\
  contains (fetchExamsSummary key_eq d' prontuario_id)
           (js "Arquivo: /uploads/" ++ storage_filename ts name) /\
  contains (fetchExamsSummary key_eq d' prontuario_id) laudo_note.
Proof.
  intros body pid d' Hpid (r & Hin & Hr). subst d'.
  assert (Hp : truthy_opt (get body (js "prontuario_id")) = true).
  { unfold pid, bound in Hpid. destruct (get body (js "prontuario_id"));
      [exact Hpid | discriminate]. }
  unfold post_exames_upload. fold body. rewrite Hp. simpl negb. cbv iota.
  simpl upload_single. cbv iota. fold pid.
  match goal with |- context [insert_exame ?k ?n ?d ?a ?b ?c ?x ?y ?z] =>
    pose proof (insert_exame_shape k n d a b c x y z) as H;
    destruct (insert_exame k n d a b c x y z) as [lastID ch d'|m] end.
  - destruct H as (e & parent & Hpin & Hk & Hpp & Hid & Hl & _ & _ & Ha & Hres
                   & _ & _ & ->).
    simpl in Ha, Hres. split; [reflexivity|]. simpl snd.
    assert (Hrow : In e (select_exames key_eq
                     {| prontuarios := prontuarios d;
                        exames := exames d ++ [e];
                        seq_prontuarios := seq_prontuarios d;
                        seq_exames := lastID |} pid)).
    { unfold select_exames. simpl.
      eapply Permutation_in; [symmetry; apply order_by_desc_perm|].
      apply filter_In. split; [apply in_or_app; right; now left|].
      now rewrite Hpp. }
    assert (Hline : contains
              (fetchExamsSummary key_eq
                 {| prontuarios := prontuarios d;
                    exames := exames d ++ [e];
                    seq_prontuarios := seq_prontuarios d;
                    seq_exames := lastID |} pid) (summary_line e)).
    { unfold fetchExamsSummary. apply join_contains. now apply in_map. }
    assert (Hparts : forall part, In part (summary_parts e) ->
                                  contains (summary_line e) part).
    { intros part Hpart.
      destruct (join_contains (js " | ") _ _ Hpart) as (pre & post & E).
      exists (js "- " ++ pre), post. unfold summary_line.
      rewrite E. now rewrite <- app_assoc. }
    split; (eapply contains_trans; [exact Hline|]; apply Hparts;
            rewrite summary_parts_spec; unfold line_parts;
            rewrite Ha, Hres; rewrite !in_app_iff; simpl).
    + do 4 right. left. now left.
    + do 5 right. now left.
  - destruct H as [_ H]. rewrite (H r Hin) in Hr. discriminate.
Qed.

(** X17.  GET /exames without a truthy [prontuario_id] is answered 400.
    Otherwise it lists the exams of the record, one object for each, in
    the descending order of their creation stamps, the exams created in
    the same second in the order of their insertion, the oldest first;
    and in every object [data_anexo] repeats [data_resultado]. *)
Theorem get_exames_lists d req_query :
  let prontuario_id := get (body_of req_query) (js "prontuario_id") in
  let own e := key_eq (bound prontuario_id) (Exame.prontuario_id e) in
  (truthy_opt prontuario_id = false ->
     get_exames key_eq d req_query =
       json_error 400 (js "Informe prontuario_id")) /\
  (truthy_opt prontuario_id = true ->
     exists rows,
       get_exames key_eq d req_query = json 200 (VArr (map exame_view rows)) /\
       Permutation rows (filter own (exames d)) /\
       StronglySorted
         (fun a b => text_leb (Exame.created_at b) (Exame.created_at a) = true)
         rows /\
       (forall stamp,
          filter (fun e => str_eqb (Exame.created_at e) stamp) rows =
          filter (fun e => str_eqb (Exame.created_at e) stamp)
                 (filter own (exames d))) /\
       Forall (fun r =>
                 get (exame_view r) (js "data_anexo") =
                   get (exame_view r) (js "data_resultado") /\
                 get (exame_view r) (js "data_anexo") =
                   Some (col_value (Exame.data_resultado r)) /\
                 get (exame_view r) (js "id") =
                   Some (VNum (dec (Exame.id r))))
              rows).
Proof.
  intros pid own. unfold get_exames. fold pid. split.
  - intros H. now rewrite H.
  - intros H. rewrite H. simpl negb. cbv iota.
    exists (select_exames key_eq d (bound pid)). split; [reflexivity|].
    split; [apply order_by_desc_perm|]. split; [|split].
    + apply order_by_desc_sorted.
      * intros a b. apply text_leb_total.
      * intros a b c Hab Hbc. eapply text_leb_trans; eassumption.
    + intros stamp. apply order_by_desc_stable.
      intros x y Hx Hy. apply str_eqb_eq in Hx, Hy. rewrite Hx, Hy.
      pose proof (text_leb_total stamp stamp) as T.
      destruct (text_leb stamp stamp); [reflexivity | exact (T eq_refl)].
    + apply Forall_forall. intros r _. repeat split.
Qed.

End AttachmentsMore.

(* ================================================================== *)
(** * More on upload names *)

Lemma replace_unsafe_fixed s :
  all_safe s -> forall b, replace_unsafe b s = s.
Proof.
  induction 1 as [|c t Hc Ht IH]; intros b; simpl; [reflexivity|].
  now rewrite Hc, IH.
Qed.

Lemma replace_unsafe_length s :
  forall b, (List.length (replace_unsafe b s) <= List.length s)%nat.
Proof.
  induction s as [|c t IH]; intros b; simpl; [lia|].
  destruct (is_safe c); simpl.
  - specialize (IH false). lia.
  - destruct b; simpl; specialize (IH true); lia.
Qed.

(** X18.  The name the storage keeps for a file: a name made of word
    characters, dots and hyphens only is kept as it is; replacing twice
    is replacing once; and the result is never longer than the original
    name. *)
Theorem sanitized_name_properties name :
  (all_safe name -> replace_unsafe false name = name) /\
  replace_unsafe false (replace_unsafe false name) =
    replace_unsafe false name /\
  (List.length (replace_unsafe false name) <= List.length name)%nat.
Proof.
  split; [|split].
  - intros H. now apply replace_unsafe_fixed.
  - apply replace_unsafe_fixed. apply replace_unsafe_safe.
  - apply replace_unsafe_length.
Qed.

Lemma dec_bytes z :
  dec z = map N_of_ascii
            (list_ascii_of_string (NilZero.string_of_int (Z.to_int z))).
Proof.
  unfold dec, js. apply utf16_ascii.
  assert (U : forall d, Forall (fun b => b < 128)
                (map N_of_ascii
                   (list_ascii_of_string (NilZero.string_of_uint d)))).
  { intros d.
    assert (G : Forall (fun b => b < 128)
                  (map N_of_ascii
                     (list_ascii_of_string (NilEmpty.string_of_uint d)))).
    { eapply Forall_impl; [|apply uint_chars].
      intros c Hc. unfold is_digit in Hc. bprop. charvals. lia. }
    destruct d; simpl in *; try exact G. repeat constructor. }
  destruct (Z.to_int z) as [d|d]; simpl; [apply U|].
  constructor; [reflexivity | apply U].
Qed.

Lemma to_int_not_nil z : Z.to_int z <> Decimal.Pos Decimal.Nil /\
                         Z.to_int z <> Decimal.Neg Decimal.Nil.
Proof.
  split; intros E; pose proof (DecimalZ.of_to z) as H; rewrite E in H;
    simpl in H; subst z; discriminate.
Qed.

Lemma N_of_ascii_inj a b : N_of_ascii a = N_of_ascii b -> a = b.
Proof.
  intros H. rewrite <- (ascii_N_embedding a), <- (ascii_N_embedding b).
  now rewrite H.
Qed.

Lemma map_N_of_ascii_inj l1 :
  forall l2, map N_of_ascii l1 = map N_of_ascii l2 -> l1 = l2.
Proof.
  induction l1 as [|a t IH]; intros [|b u] H; simpl in H;
    try discriminate; [reflexivity|].
  injection H as Ha Ht. f_equal; [now apply N_of_ascii_inj | now apply IH].
Qed.

(** Two integers with the same decimal text are equal. *)
Lemma dec_inj a b : dec a = dec b -> a = b.
Proof.
  rewrite !dec_bytes. intros H. apply map_N_of_ascii_inj in H.
  apply (f_equal string_of_list_ascii) in H.
  rewrite !string_of_list_ascii_of_string in H.
  apply DecimalZ.to_int_inj.
  destruct (to_int_not_nil a) as [A1 A2], (to_int_not_nil b) as [B1 B2].
  pose proof (NilZero.isi _ A1 A2) as Ia.
  pose proof (NilZero.isi _ B1 B2) as Ib.
  rewrite H in Ia. congruence.
Qed.

Lemma split_at_first {A} (c : A) l1 :
  forall l2 r1 r2,
  ~ In c l1 -> ~ In c l2 -> l1 ++ c :: r1 = l2 ++ c :: r2 ->
  l1 = l2 /\ r1 = r2.
Proof.
  induction l1 as [|x t IH]; intros [|y u] r1 r2 H1 H2 E; simpl in *.
  - injection E as ->. now split.
  - injection E as <- _. tauto.
  - injection E as -> _. tauto.
  - injection E as -> E.
    destruct (IH u r1 r2) as [-> ->]; [tauto | tauto | exact E |].
    now split.
Qed.

(** X19.  Two uploads get the same stored name only at the same time
    stamp, and then only when their sanitized names are the same: files
    uploaded at different milliseconds never collide. *)
Theorem storage_filename_collisions ts1 name1 ts2 name2 :
  storage_filename ts1 name1 = storage_filename ts2 name2 <->
  ts1 = ts2 /\ replace_unsafe false name1 = replace_unsafe false name2.
Proof.
  unfold storage_filename. split.
  - intros E.
    assert (No : forall z, ~ In (ch "_") (dec z)).
    { intros z Hin. pose proof (dec_chars z) as H.
      rewrite Forall_forall in H. apply H in Hin.
      destruct Hin as [Hd | Hm]; [|discriminate].
      vm_compute in Hd. discriminate. }
    change (js "__" ++ ?x) with (ch "_" :: ch "_" :: x) in E.
    apply split_at_first in E; try apply No.
    destruct E as [Ed Er]. injection Er as Er.
    split; [now apply dec_inj | exact Er].
  - intros [-> ->]. reflexivity.
Qed.

(* ================================================================== *)
(** * The 404 middleware *)

Lemma starts_with_spec prefix :
  forall s, starts_with prefix s = true <-> exists t, s = prefix ++ t.
Proof.
  induction prefix as [|a p IH]; intros s; simpl.
  - split; [intros _; now exists s | trivial].
  - destruct s as [|b s']; [split; [discriminate | intros (t & E); discriminate]|].
    rewrite andb_true_iff, N.eqb_eq, IH. split.
    + intros [-> (t & ->)]. now exists t.
    + intros (t & E). injection E as -> ->. split; [reflexivity | now exists t].
Qed.

(** X20.  The last middleware answers 404, with the method and the path
    in the message, exactly for the paths that begin with [/api],
    [/prontuario], [/ai-] or [/exames], whatever follows the prefix; the
    test on [/prontuarios] decides nothing.  Any other path is passed
    on. *)
Theorem not_found_middleware_spec method path :
  let reserved := [js "/api"; js "/prontuario"; js "/ai-"; js "/exames"] in
  let message := js "Rota não encontrada: " ++ method ++ js " " ++ path in
  ((exists prefix t, In prefix reserved /\ path = prefix ++ t) ->
     not_found_middleware method path = Some (send 404 message)) /\
  ((forall prefix t, In prefix reserved -> path <> prefix ++ t) ->
     not_found_middleware method path = None).
Proof.
  intros reserved message.
  assert (P : starts_with (js "/prontuarios") path = true ->
              starts_with (js "/prontuario") path = true).
  { rewrite !starts_with_spec. intros (t & ->).
    exists (ch "s" :: t). reflexivity. }
  unfold not_found_middleware. split.
  - intros (prefix & t & Hin & E).
    assert (S : starts_with prefix path = true)
      by (apply starts_with_spec; now exists t).
    simpl in Hin.
    destruct Hin as [<- | [<- | [<- | [<- | []]]]]; rewrite S;
      rewrite ?orb_true_r; reflexivity.
  - intros H.
    assert (N : forall prefix, In prefix reserved ->
                               starts_with prefix path = false).
    { intros prefix Hin. destruct (starts_with prefix path) eqn:E;
        [|reflexivity].
      apply starts_with_spec in E. destruct E as (t & E).
      now elim (H prefix t Hin). }
    rewrite (N (js "/api")), (N (js "/prontuario")), (N (js "/ai-")),
      (N (js "/exames")) by (simpl; tauto).
    destruct (starts_with (js "/prontuarios") path) eqn:E; [|reflexivity].
    specialize (P eq_refl).
    rewrite (N (js "/prontuario")) in P by (simpl; tauto).
    discriminate.
Qed.

(* ================================================================== *)
(** * The first revision *)

Lemma is_empty_false s : s <> [] -> is_empty s = false.
Proof.
  intros H. unfold is_empty. destruct (str_eqb s []) eqn:E; [|reflexivity].
  apply str_eqb_eq in E. congruence.
Qed.

(** X21.  The first [askOllama] never throws and never returns the
    empty text: a failure of the endpoint, of whatever kind, gives the
    fixed text that says the model is not available, and an answer
    without text gives the fixed text that says there is none. *)
Theorem rev1_askOllama_always_answers fetch prompt :
  Rev1.askOllama fetch prompt <> [] /\
  (forall message, fetch prompt = Rejected message ->
     Rev1.askOllama fetch prompt = Rev1.unavailable) /\
  (forall st txt, fetch prompt = Responded st txt ->
     (st < 200 \/ 299 < st)%Z ->
     Rev1.askOllama fetch prompt = Rev1.unavailable) /\
  (forall st txt, fetch prompt = Responded st txt ->
     JSON.parse txt = None ->
     Rev1.askOllama fetch prompt = Rev1.unavailable).
Proof.
  unfold Rev1.askOllama, Rev1.ask. split; [|split; [|split]].
  - destruct (fetch prompt) as [m|st txt]; [discriminate|].
    destruct (negb (Rev1.resp_ok st)); [discriminate|].
    destruct (JSON.parse txt) as [data|]; [|discriminate].
    assert (G : match
                  match get data (js "response") with
                  | Some (VStr s) =>
                    Ok (if is_empty (trim s) then Rev1.no_answer else trim s)
                  | Some VNull | None => Ok Rev1.no_answer
                  | Some _ => Throw TypeError
                  end
                with
                | Ok answer => answer
                | Throw _ => Rev1.unavailable
                end <> []).
    { destruct (get data (js "response")) as [[| | |s| |]|];
        try discriminate.
      destruct (is_empty (trim s)) eqn:E; [discriminate|].
      intros H. rewrite H in E. discriminate. }
    destruct data; [discriminate | exact G ..].
  - intros m E. now rewrite E.
  - intros st txt E Hst. rewrite E.
    assert (R : Rev1.resp_ok st = false)
      by (unfold Rev1.resp_ok; apply andb_false_iff;
          destruct Hst; [left; apply Z.leb_gt | right; apply Z.leb_gt]; lia).
    now rewrite R.
  - intros st txt E Hp. rewrite E, Hp.
    destruct (negb (Rev1.resp_ok st)); reflexivity.
Qed.

Lemma rev1_interpret_unavailable :
  Rev1.interpret Rev1.unavailable =
  VObj [(js "texto", VStr Rev1.unavailable)].
Proof. vm_compute. reflexivity. Qed.

(** X22.  The first triage route never answers an error of the
    endpoint: symptoms that are a string that is not blank are always
    answered 200 with a suggestion, which is the wrapped text that says
    the model is not available when [fetch] is rejected; blank or absent
    symptoms in a body are answered 400. *)
Theorem rev1_triage_never_fails_upstream fetch body :
  (forall s, get body (js "sintomas") = Some (VStr s) -> trim s <> [] ->
     (exists sugestao,
        Rev1.ai_diagnostico fetch (Some body) =
          Ok (json 200 (VObj [(js "sugestao", sugestao)]))) /\
     (forall message, fetch (Rev1.trim_end s) = Rejected message ->
        Rev1.ai_diagnostico fetch (Some body) =
          Ok (json 200
                (VObj [(js "sugestao",
                        VObj [(js "texto", VStr Rev1.unavailable)])])))) /\
  (body <> VNull -> blank_or_absent (get body (js "sintomas")) ->
     Rev1.ai_diagnostico fetch (Some body) =
       Ok (json_error 400 (js "Informe os sintomas para análise."))).
Proof.
  assert (U : body <> VNull ->
    Rev1.ai_diagnostico fetch (Some body) =
    match call_trim (default (get body (js "sintomas")) (VStr [])) with
    | Throw e => Throw e
    | Ok trimmed =>
      if is_empty trimmed
      then Ok (json_error 400 (js "Informe os sintomas para análise."))
      else
        match default (get body (js "sintomas")) (VStr []) with
        | VStr s =>
          Ok (json 200
                (VObj [(js "sugestao",
                        Rev1.interpret
                          (Rev1.askOllama fetch (Rev1.trim_end s)))]))
        | _ => Throw TypeError
        end
    end).
  { intros B. destruct body; try (now elim B); reflexivity. }
  split.
  - intros s E Hs.
    assert (B : body <> VNull) by (intros ->; discriminate).
    rewrite (U B), E.
    change (call_trim (default (Some (VStr s)) (VStr []))) with (Ok (trim s)).
    cbv beta iota. rewrite (is_empty_false _ Hs).
    change (default (Some (VStr s)) (VStr [])) with (VStr s). cbv beta iota.
    split; [eexists; reflexivity|].
    intros m Hm. unfold Rev1.askOllama. rewrite Hm.
    change (Rev1.ask (Rejected m)) with (@Throw jsstring (Error m)).
    cbv iota. now rewrite rev1_interpret_unavailable.
  - intros B H. rewrite (U B), (call_trim_blank _ H). reflexivity.
Qed.

(* ================================================================== *)
(** * JSON: every value reads back *)

Module JSONRoundTrip.
Import JSON JSONFacts.

(** ** More fuel changes nothing *)

Lemma fuel_stable f :
  (forall s g, (f <= g)%nat -> parse_value f s <> OutOfFuel ->
     parse_value g s = parse_value f s) /\
  (forall s acc g, (f <= g)%nat -> parse_elements f s acc <> OutOfFuel ->
     parse_elements g s acc = parse_elements f s acc) /\
  (forall s acc g, (f <= g)%nat -> parse_members f s acc <> OutOfFuel ->
     parse_members g s acc = parse_members f s acc).
Proof.
  induction f as [|f (IHv & IHe & IHm)];
    [repeat split; intros; simpl in *; congruence|].
  repeat split.
  - intros s g Hg H. destruct g as [|g]; [lia|].
    rewrite (parse_value_S g s), (parse_value_S f s) in *.
    destruct (skip_ws s) as [|c t]; [reflexivity|].
    destruct (c =? ch "{").
    { destruct (skip_ws t) as [|c' t']; [reflexivity|].
      destruct (c' =? ch "}"); [reflexivity|]. apply IHm; [lia | exact H]. }
    destruct (c =? ch "[").
    { destruct (skip_ws t) as [|c' t']; [reflexivity|].
      destruct (c' =? ch "]"); [reflexivity|]. apply IHe; [lia | exact H]. }
    reflexivity.
  - intros s acc g Hg H. destruct g as [|g]; [lia|].
    rewrite (parse_elements_S g s acc), (parse_elements_S f s acc) in *.
    destruct (parse_value f s) as [v rest| |] eqn:E; [| |congruence].
    + rewrite (IHv s g) by (lia || congruence). rewrite E.
      destruct (skip_ws rest) as [|c t]; [reflexivity|].
      destruct (c =? ch ","); [|reflexivity]. apply IHe; [lia | exact H].
    + rewrite (IHv s g) by (lia || congruence). now rewrite E.
  - intros s acc g Hg H. destruct g as [|g]; [lia|].
    rewrite (parse_members_S g s acc), (parse_members_S f s acc) in *.
    destruct (skip_ws s) as [|q t]; [reflexivity|].
    destruct (q =? dquote); [|reflexivity].
    destruct (parse_chars t) as [[key rest]|]; [|reflexivity].
    destruct (skip_ws rest) as [|c t']; [reflexivity|].
    destruct (c =? ch ":"); [|reflexivity].
    destruct (parse_value f t') as [v rest'| |] eqn:E; [| |congruence].
    + rewrite (IHv t' g) by (lia || congruence). rewrite E.
      destruct (skip_ws rest') as [|c' t'']; [reflexivity|].
      destruct (c' =? ch ","); [|reflexivity]. apply IHm; [lia | exact H].
    + rewrite (IHv t' g) by (lia || congruence). now rewrite E.
Qed.

(** A result found with some fuel is the result of [parse]. *)
Lemma parse_with_any_fuel text f v :
  parse_value f text = Parsed v [] -> parse text = Some v.
Proof.
  intros H. unfold parse.
  set (F := (2 * List.length text + 2)%nat).
  pose proof (parse_fuel_enough text) as HF. fold F in HF.
  assert (E : parse_value F text = Parsed v []).
  { destruct (Nat.le_ge_cases f F) as [L | L].
    - rewrite (proj1 (fuel_stable f) text F L) by congruence. exact H.
    - rewrite <- (proj1 (fuel_stable F) text f L HF). exact H. }
  rewrite E. reflexivity.
Qed.

(** ** Number tokens followed by a separator *)

Lemma sep_not_digit rest :
  sep rest ->
  match rest with
  | [] => True
  | c :: _ => is_digit c = false /\ (c =? ch ".") = false /\
              ((c =? ch "e") || (c =? ch "E")) = false /\
              is_ws c = false
  end.
Proof.
  destruct rest as [|c t]; [trivial|]. simpl.
  intros [-> | [-> | ->]]; repeat split; reflexivity.
Qed.

Lemma digits_app s :
  forall ds s' rest, digits s = (ds, s') -> sep rest ->
  digits (s ++ rest) = (ds, s' ++ rest).
Proof.
  induction s as [|c t IH]; intros ds s' rest H Hsep; simpl in *.
  - injection H as <- <-. apply sep_not_digit in Hsep.
    destruct rest as [|c t]; [reflexivity|]. simpl.
    destruct Hsep as (-> & _). reflexivity.
  - destruct (is_digit c).
    + destruct (digits t) as [ds' r'] eqn:E. injection H as <- <-.
      now rewrite (IH _ _ rest eq_refl Hsep).
    + injection H as <- <-. reflexivity.
Qed.

Lemma parse_int_app s i s' rest :
  parse_int s = Some (i, s') -> sep rest ->
  parse_int (s ++ rest) = Some (i, s' ++ rest).
Proof.
  unfold parse_int. intros H Hsep.
  assert (G : forall sign s1,
    match s1 with
    | d :: t =>
      if d =? ch "0" then Some (sign ++ [d], t)
      else if is_digit d then
        let (ds, rest) := digits t in Some (sign ++ d :: ds, rest)
      else None
    | [] => None
    end = Some (i, s') ->
    match s1 ++ rest with
    | d :: t =>
      if d =? ch "0" then Some (sign ++ [d], t)
      else if is_digit d then
        let (ds, rest) := digits t in Some (sign ++ d :: ds, rest)
      else None
    | [] => None
    end = Some (i, s' ++ rest)).
  { intros sign [|d t] G; [discriminate|]. simpl.
    destruct (d =? ch "0"); [injection G as <- <-; reflexivity|].
    destruct (is_digit d); [|discriminate].
    destruct (digits t) as [ds r] eqn:E. injection G as <- <-.
    now rewrite (digits_app _ _ _ rest E Hsep). }
  destruct s as [|c t]; [discriminate|]. simpl.
  destruct (c =? ch "-"); [apply (G [c] t) | apply (G [] (c :: t))]; exact H.
Qed.

Lemma parse_frac_app s f s' rest :
  parse_frac s = Some (f, s') -> sep rest ->
  parse_frac (s ++ rest) = Some (f, s' ++ rest).
Proof.
  unfold parse_frac. intros H Hsep. destruct s as [|c t]; simpl.
  - injection H as <- <-. apply sep_not_digit in Hsep.
    destruct rest as [|c t]; [reflexivity|].
    destruct Hsep as (_ & -> & _). reflexivity.
  - destruct (c =? ch ".").
    + destruct (digits t) as [[|d ds] r] eqn:E; [discriminate|].
      injection H as <- <-. now rewrite (digits_app _ _ _ rest E Hsep).
    + injection H as <- <-. reflexivity.
Qed.

Lemma parse_exp_app s e s' rest :
  parse_exp s = Some (e, s') -> sep rest ->
  parse_exp (s ++ rest) = Some (e, s' ++ rest).
Proof.
  unfold parse_exp. intros H Hsep. destruct s as [|c t]; simpl.
  - injection H as <- <-. apply sep_not_digit in Hsep.
    destruct rest as [|c t]; [reflexivity|].
    destruct Hsep as (_ & _ & -> & _). reflexivity.
  - destruct ((c =? ch "e") || (c =? ch "E")).
    + destruct t as [|g u]; [simpl in H; discriminate|]. simpl.
      destruct ((g =? ch "+") || (g =? ch "-")).
      * destruct (digits u) as [[|d ds] r] eqn:E; [discriminate|].
        injection H as <- <-. now rewrite (digits_app _ _ _ rest E Hsep).
      * destruct (digits (g :: u)) as [[|d ds] r] eqn:E; [discriminate|].
        injection H as <- <-.
        change (g :: u ++ rest) with ((g :: u) ++ rest).
        now rewrite (digits_app _ _ _ rest E Hsep).
    + injection H as <- <-. reflexivity.
Qed.

Lemma parse_number_app tok rest :
  parse_number tok = Some (tok, []) -> sep rest ->
  parse_number (tok ++ rest) = Some (tok, rest).
Proof.
  unfold parse_number. intros H Hsep.
  destruct (parse_int tok) as [[i s1]|] eqn:E1; [|discriminate].
  destruct (parse_frac s1) as [[f s2]|] eqn:E2; [|discriminate].
  destruct (parse_exp s2) as [[e s3]|] eqn:E3; [|discriminate].
  injection H as Htok ->.
  rewrite (parse_int_app _ _ _ rest E1 Hsep).
  rewrite (parse_frac_app _ _ _ rest E2 Hsep).
  rewrite (parse_exp_app _ _ _ rest E3 Hsep).
  now rewrite Htok.
Qed.

(** A number token starts with a minus sign or a digit. *)
Lemma parse_number_head tok x rest :
  parse_number tok = Some (x, rest) ->
  exists c t, tok = c :: t /\ (c = ch "-" \/ is_digit c = true).
Proof.
  unfold parse_number, parse_int. intros H.
  destruct tok as [|c t]; [discriminate|]. exists c, t. split; [reflexivity|].
  destruct (c =? ch "-") eqn:Ec; [left; now apply N.eqb_eq|]. right.
  destruct (c =? ch "0") eqn:E0;
    [apply N.eqb_eq in E0; subst; reflexivity|].
  destruct (is_digit c); [reflexivity | discriminate].
Qed.

Lemma digits_all ds : forallb is_digit ds = true -> digits ds = (ds, []).
Proof.
  induction ds as [|c t IH]; simpl; [reflexivity|].
  intros H. apply andb_true_iff in H. destruct H as [-> H].
  now rewrite (IH H).
Qed.

Lemma canonical_integer_token tok :
  canonical_integer tok = true -> parse_number tok = Some (tok, []).
Proof.
  unfold canonical_integer, parse_number, parse_int. intros H.
  destruct tok as [|c t]; [discriminate|].
  destruct (c =? ch "-") eqn:Ec.
  - destruct t as [|h ds]; [discriminate|].
    destruct (h =? ch "0") eqn:E0; [discriminate|].
    apply andb_true_iff in H. destruct H as [H _].
    apply andb_true_iff in H. destruct H as [-> H].
    rewrite (digits_all _ H). simpl. rewrite ?app_nil_r. reflexivity.
  - destruct (c =? ch "0") eqn:E0.
    + destruct t; [reflexivity | discriminate].
    + apply andb_true_iff in H. destruct H as [H _].
      apply andb_true_iff in H. destruct H as [-> H].
      rewrite (digits_all _ H). simpl. rewrite ?app_nil_r. reflexivity.
Qed.

(** ** Nested induction on values *)

Lemma value_nested_ind (P : value -> Prop) :
  P VNull -> (forall b, P (VBool b)) -> (forall tok, P (VNum tok)) ->
  (forall s, P (VStr s)) ->
  (forall items, Forall P items -> P (VArr items)) ->
  (forall props, Forall (fun kv => P (snd kv)) props -> P (VObj props)) ->
  forall v, P v.
Proof.
  intros Hnull Hbool Hnum Hstr Harr Hobj. fix IH 1.
  intros [ | b | tok | s | items | props].
  - exact Hnull.
  - apply Hbool.
  - apply Hnum.
  - apply Hstr.
  - apply Harr. induction items as [|x t IHt]; constructor;
      [apply IH | exact IHt].
  - apply Hobj. induction props as [|[k x] t IHt]; constructor;
      [apply IH | exact IHt].
Qed.

Lemma wf_value_arr items : wf_value (VArr items) <-> Forall wf_value items.
Proof.
  induction items as [|x t IH]; simpl; split; intros H.
  - constructor.
  - exact I.
  - destruct H as [Hx Ht]. constructor; [exact Hx | now apply IH].
  - inversion H; subst. split; [assumption | now apply IH].
Qed.

Lemma wf_value_obj props :
  wf_value (VObj props) ->
  NoDup (map fst props) /\ Forall (fun kv => wf_value (snd kv)) props.
Proof.
  intros (Hnd & _ & H). split; [exact Hnd|]. clear Hnd.
  induction props as [|[k x] t IH]; constructor.
  - apply H.
  - apply IH, H.
Qed.

(** ** The first character of a text *)

Lemma stringify_head v :
  wf_value v ->
  exists c t, stringify v = c :: t /\ is_ws c = false /\
              (c =? ch "]") = false.
Proof.
  destruct v as [ | [|] | tok | s | items | props]; intros H;
    try (eexists _, _; repeat split; reflexivity).
  simpl in H. apply canonical_integer_token in H.
  destruct (parse_number_head _ _ _ H) as (c & t & -> & Hc).
  exists c, t. split; [reflexivity|].
  unfold is_ws, is_digit in *.
  destruct Hc as [-> | Hc]; [split; reflexivity|].
  bprop. charvals. repeat split; lia.
Qed.

Lemma skip_ws_head c t : is_ws c = false -> skip_ws (c :: t) = c :: t.
Proof. intros H. simpl. now rewrite H. Qed.

Lemma sep_head rest :
  sep rest -> skip_ws rest = rest.
Proof.
  intros H. apply sep_not_digit in H. destruct rest as [|c t]; [reflexivity|].
  apply skip_ws_head, H.
Qed.

(** ** Opening an array or an object *)

Lemma parse_value_open_array f c t :
  is_ws c = false -> (c =? ch "]") = false ->
  parse_value (S f) (ch "[" :: c :: t) = parse_elements f (c :: t) [].
Proof.
  intros Hw Hc. rewrite parse_value_S.
  change (skip_ws (ch "[" :: c :: t)) with (ch "[" :: c :: t). cbv iota.
  change (ch "[" =? ch "{") with false. cbv iota.
  change (ch "[" =? ch "[") with true. cbv iota.
  rewrite (skip_ws_head _ _ Hw), Hc. reflexivity.
Qed.

Lemma parse_value_open_object f t :
  parse_value (S f) (ch "{" :: dquote :: t) = parse_members f (dquote :: t) [].
Proof. reflexivity. Qed.

Lemma parse_members_step f k x R acc :
  parse_members (S f) (quote k ++ ch ":" :: stringify x ++ R) acc =
  match parse_value f (stringify x ++ R) with
  | Parsed v rest' =>
    match skip_ws rest' with
    | c' :: t'' =>
      if c' =? ch "," then parse_members f t'' (obj_set acc k v)
      else if c' =? ch "}" then Parsed (VObj (obj_set acc k v)) t''
      else Invalid
    | [] => Invalid
    end
  | Invalid => Invalid
  | OutOfFuel => OutOfFuel
  end.
Proof.
  rewrite parse_members_S.
  replace (quote k ++ ch ":" :: stringify x ++ R)
    with (dquote :: quote_chars k ++ dquote :: ch ":" :: stringify x ++ R)
    by (unfold quote; rewrite <- app_comm_cons, <- app_assoc; reflexivity).
  change (skip_ws (dquote :: ?r)) with (dquote :: r). cbv iota.
  change (dquote =? dquote) with true. cbv iota.
  rewrite parse_quote_chars.
  reflexivity.
Qed.

Lemma obj_set_fresh acc k v :
  ~ In k (map fst acc) -> obj_set acc k v = acc ++ [(k, v)].
Proof.
  induction acc as [|[k' v'] t IH]; simpl; intros H; [reflexivity|].
  destruct (str_eqb k' k) eqn:E.
  - apply str_eqb_eq in E. tauto.
  - rewrite IH by tauto. reflexivity.
Qed.

(** ** Elements and members *)

Lemma elements_read_back items :
  Forall reads_back items -> items <> [] ->
  forall acc rest, exists f0, forall f, (f0 <= f)%nat ->
    parse_elements f (join [ch ","] (map stringify items) ++ ch "]" :: rest)
                   acc
    = Parsed (VArr (acc ++ items)) rest.
Proof.
  induction items as [|x xs IH]; intros Hall Hne acc rest; [congruence|].
  inversion Hall as [|? ? Hx Hxs]; subst.
  destruct xs as [|y ys].
  - destruct (Hx (ch "]" :: rest)) as [fx Hfx]; [simpl; tauto|].
    exists (S fx). intros f Hf. destruct f as [|f]; [lia|].
    rewrite parse_elements_S. simpl join. simpl map.
    change (join [ch ","] [stringify x]) with (stringify x).
    rewrite Hfx by lia. reflexivity.
  - destruct (Hx (ch "," :: join [ch ","] (map stringify (y :: ys))
                    ++ ch "]" :: rest)) as [fx Hfx]; [simpl; tauto|].
    destruct (IH Hxs ltac:(discriminate) (acc ++ [x]) rest) as [fr Hfr].
    exists (S (Nat.max fx fr)). intros f Hf. destruct f as [|f]; [lia|].
    rewrite parse_elements_S.
    replace (join [ch ","] (map stringify (x :: y :: ys)) ++ ch "]" :: rest)
      with (stringify x ++ ch "," :: join [ch ","] (map stringify (y :: ys))
              ++ ch "]" :: rest)
      by (change (join [ch ","] (map stringify (x :: y :: ys)))
            with (stringify x ++ [ch ","]
                    ++ join [ch ","] (map stringify (y :: ys)));
          now rewrite <- !app_assoc).
    rewrite Hfx by lia.
    change (skip_ws (ch "," :: ?r)) with (ch "," :: r). cbv iota.
    change (ch "," =? ch ",") with true. cbv iota.
    rewrite Hfr by lia. now rewrite <- app_assoc.
Qed.

Lemma members_read_back props :
  Forall (fun kv => reads_back (snd kv)) props -> props <> [] ->
  forall acc rest, NoDup (map fst acc ++ map fst props) ->
  exists f0, forall f, (f0 <= f)%nat ->
    parse_members f (join [ch ","] (map member props) ++ ch "}" :: rest) acc
    = Parsed (VObj (acc ++ props)) rest.
Proof.
  induction props as [|[k x] ps IH]; intros Hall Hne acc rest Hnd;
    [congruence|].
  inversion Hall as [|? ? Hx Hps]; subst. simpl in Hx.
  assert (Hset : forall v, obj_set acc k v = acc ++ [(k, v)]).
  { intros v. apply obj_set_fresh. simpl in Hnd.
    apply NoDup_remove_2 in Hnd. intros Hin. apply Hnd.
    apply in_or_app. now left. }
  destruct ps as [|p ps'].
  - destruct (Hx (ch "}" :: rest)) as [fx Hfx]; [simpl; tauto|].
    exists (S fx). intros f Hf. destruct f as [|f]; [lia|].
    change (join [ch ","] (map member [(k, x)])) with (member (k, x)).
    unfold member. rewrite <- app_assoc, <- app_comm_cons.
    rewrite parse_members_step. rewrite Hfx by lia.
    change (skip_ws (ch "}" :: ?r)) with (ch "}" :: r). cbv iota.
    change (ch "}" =? ch ",") with false. cbv iota.
    change (ch "}" =? ch "}") with true. cbv iota.
    now rewrite Hset.
  - destruct (Hx (ch "," :: join [ch ","] (map member (p :: ps'))
                    ++ ch "}" :: rest)) as [fx Hfx]; [simpl; tauto|].
    destruct (IH Hps ltac:(discriminate) (acc ++ [(k, x)]) rest)
      as [fr Hfr].
    { rewrite map_app, <- app_assoc. exact Hnd. }
    exists (S (Nat.max fx fr)). intros f Hf. destruct f as [|f]; [lia|].
    replace (join [ch ","] (map member ((k, x) :: p :: ps'))
               ++ ch "}" :: rest)
      with (quote k ++ ch ":" :: stringify x ++
              ch "," :: join [ch ","] (map member (p :: ps'))
              ++ ch "}" :: rest)
      by (change (join [ch ","] (map member ((k, x) :: p :: ps')))
            with ((quote k ++ ch ":" :: stringify x) ++ [ch ","]
                    ++ join [ch ","] (map member (p :: ps')));
          rewrite <- !app_assoc; reflexivity).
    rewrite parse_members_step. rewrite Hfx by lia.
    change (skip_ws (ch "," :: ?r)) with (ch "," :: r). cbv iota.
    change (ch "," =? ch ",") with true. cbv iota.
    rewrite Hset, Hfr by lia. now rewrite <- app_assoc.
Qed.

(** ** Every well-formed value reads back *)

Lemma reads_back_all v : wf_value v -> reads_back v.
Proof.
  induction v as [ | b | tok | s | items IH | props IH]
    using value_nested_ind; intros Hwf rest Hsep.
  - exists 1%nat. intros [|f] Hf; [lia|]. reflexivity.
  - exists 1%nat. intros [|f] Hf; [lia|]. destruct b; reflexivity.
  - exists 1%nat. intros [|f] Hf; [lia|].
    simpl in Hwf. apply canonical_integer_token in Hwf.
    destruct (parse_number_head _ _ _ Hwf) as (c & t & -> & Hc).
    rewrite parse_value_S. simpl stringify.
    assert (Hcs : is_ws c = false /\ (c =? ch "{") = false /\
                  (c =? ch "[") = false /\ (c =? dquote) = false /\
                  (c =? ch "t") = false /\ (c =? ch "f") = false /\
                  (c =? ch "n") = false).
    { unfold is_ws, is_digit in *.
      destruct Hc as [-> | Hc]; [repeat split; reflexivity|].
      bprop. charvals. repeat split; lia. }
    destruct Hcs as (W & E1 & E2 & E3 & E4 & E5 & E6).
    rewrite <- app_comm_cons, (skip_ws_head _ _ W), E1, E2, E3, E4, E5, E6.
    rewrite app_comm_cons, (parse_number_app _ _ Hwf Hsep). reflexivity.
  - exists 1%nat. intros [|f] Hf; [lia|]. apply parse_value_quote.
  - apply wf_value_arr in Hwf.
    assert (Hall : Forall reads_back items).
    { apply Forall_forall. intros x Hx.
      rewrite Forall_forall in IH, Hwf. now apply IH, Hwf. }
    destruct items as [|x xs].
    { exists 1%nat. intros [|f] Hf; [lia|]. reflexivity. }
    destruct (elements_read_back (x :: xs) Hall ltac:(discriminate) [] rest)
      as [f0 Hf0].
    exists (S f0). intros [|f] Hf; [lia|].
    assert (Hx : wf_value x) by now inversion Hwf.
    destruct (stringify_head x Hx) as (c & t & Ex & Hw & Hc).
    change (stringify (VArr (x :: xs)))
      with (ch "[" :: join [ch ","] (map stringify (x :: xs)) ++ [ch "]"]).
    rewrite <- app_comm_cons, <- app_assoc.
    change ([ch "]"] ++ rest) with (ch "]" :: rest).
    specialize (Hf0 f ltac:(lia)).
    change ([] ++ x :: xs) with (x :: xs) in Hf0. rewrite <- Hf0.
    assert (Ej : exists t', join [ch ","] (map stringify (x :: xs))
                              ++ ch "]" :: rest = c :: t').
    { simpl map. destruct (map stringify xs); simpl join; rewrite Ex;
        eexists; reflexivity. }
    destruct Ej as [t' ->]. now apply parse_value_open_array.
  - apply wf_value_obj in Hwf. destruct Hwf as [Hnd Hwf].
    assert (Hall : Forall (fun kv => reads_back (snd kv)) props).
    { apply Forall_forall. intros x Hx.
      rewrite Forall_forall in IH, Hwf. now apply IH, Hwf. }
    destruct props as [|[k x] ps].
    { exists 1%nat. intros [|f] Hf; [lia|]. reflexivity. }
    destruct (members_read_back ((k, x) :: ps) Hall ltac:(discriminate)
                [] rest Hnd) as [f0 Hf0].
    exists (S f0). intros [|f] Hf; [lia|].
    change (stringify (VObj ((k, x) :: ps)))
      with (ch "{" :: join [ch ","] (map member ((k, x) :: ps)) ++ [ch "}"]).
    rewrite <- app_comm_cons, <- app_assoc.
    change ([ch "}"] ++ rest) with (ch "}" :: rest).
    specialize (Hf0 f ltac:(lia)).
    change ([] ++ (k, x) :: ps) with ((k, x) :: ps) in Hf0. rewrite <- Hf0.
    assert (Ej : exists t', join [ch ","] (map member ((k, x) :: ps))
                              ++ ch "}" :: rest = dquote :: t').
    { simpl map. destruct (map member ps); simpl join;
        eexists; reflexivity. }
    destruct Ej as [t' ->]. apply parse_value_open_object.
Qed.

Lemma parse_stringify v : wf_value v -> parse (stringify v) = Some v.
Proof.
  intros H. destruct (reads_back_all v H [] I) as [f0 Hf].
  specialize (Hf f0 (le_n _)). rewrite app_nil_r in Hf.
  eapply parse_with_any_fuel, Hf.
Qed.

End JSONRoundTrip.

(* ================================================================== *)
(** * Any list of requested exams is listed back *)

Lemma post_prontuario_array d req_body items :
  required_fields req_body ->
  get (body_of req_body) (js "exames_solicitados") = Some (VArr items) ->
  exists r d1,
    post_prontuario d req_body = (created (Prontuario.id r), d1) /\
    Prontuario.id r = (high_water d + 1)%Z /\
    Prontuario.exames_solicitados r = Some (JSON.stringify (VArr items)) /\
    prontuarios d1 = prontuarios d ++ [r].
Proof.
  intros (Hn & Hc & Hd & Hg) He.
  unfold post_prontuario, insert_prontuario.
  rewrite Hn, Hc, Hd, Hg, He. cbv beta iota. simpl negb. simpl orb.
  rewrite !truthy_bound_not_null by assumption.
  cbv beta iota. simpl orb. cbv beta iota.
  match goal with |- context [prontuarios d ++ [?row]] => exists row end.
  eexists. split; [reflexivity|]. simpl. repeat split.
Qed.

Lemma decode_exames_array items :
  Forall wf_value items ->
  decode_exames (Some (JSON.stringify (VArr items))) = VArr items.
Proof.
  intros H. unfold decode_exames.
  replace (col_or (Some (JSON.stringify (VArr items))) (Some (js "[]")))
    with (Some (JSON.stringify (VArr items))) by reflexivity.
  unfold col_text. rewrite JSONRoundTrip.parse_stringify; [reflexivity|].
  now apply JSONRoundTrip.wf_value_arr.
Qed.

(** X23.  A creation whose [exames_solicitados] is a list of any JSON
    values (canonical integers, strings, booleans, null, lists, objects
    without a key twice or a key made of digits) is answered 201, and the
    listing that follows starts with the new record, its
    [exames_solicitados] decoded back to that very list. *)
Theorem any_list_is_listed_back d req_body items :
  required_fields req_body ->
  get (body_of req_body) (js "exames_solicitados") = Some (VArr items) ->
  Forall wf_value items ->
  exists r d',
    post_prontuario d req_body = (created (Prontuario.id r), d') /\
    get_prontuarios d' =
      json 200 (VArr (map prontuario_view (r :: select_prontuarios d))) /\
    get (prontuario_view r) (js "exames_solicitados") = Some (VArr items).
Proof.
  intros Hreq He Hwf.
  destruct (post_prontuario_array d req_body items Hreq He)
    as (r & d1 & Hpost & Hid & Hex & Hrows).
  exists r, d1. split; [exact Hpost|]. split.
  - unfold get_prontuarios.
    rewrite (select_prontuarios_newest d d1 r Hrows) by lia. reflexivity.
  - unfold prontuario_view, prontuario_props.
    change (get (VObj (obj_set ?props ?k ?v)) (js "exames_solicitados"))
      with (Some v).
    rewrite Hex. now rewrite decode_exames_array.
Qed.

(* ================================================================== *)
(** * The listing always shows lists *)

Lemma parse_elements_arr f :
  forall s acc v rest,
  JSON.parse_elements f s acc = JSON.Parsed v rest -> exists l, v = VArr l.
Proof.
  induction f as [|f IH]; intros s acc v rest H; [discriminate|].
  rewrite JSONFacts.parse_elements_S in H. JSONFacts.break H.
  - eapply IH, H.
  - injection H as <- _. eexists. reflexivity.
Qed.

Lemma parse_array_text t v :
  JSON.parse (ch "[" :: t) = Some v -> exists l, v = VArr l.
Proof.
  unfold JSON.parse.
  destruct (JSON.parse_value _ _) as [w rest| |] eqn:E; [|discriminate ..].
  intros H. assert (w = v) as -> by (destruct (JSON.skip_ws rest); congruence).
  clear H. revert E.
  generalize (2 * List.length (ch "[" :: t) + 2)%nat. intros [|f] E;
    [discriminate|].
  rewrite JSONFacts.parse_value_S in E.
  change (JSON.skip_ws (ch "[" :: t)) with (ch "[" :: t) in E. cbv iota in E.
  change (ch "[" =? ch "{") with false in E. cbv iota in E.
  change (ch "[" =? ch "[") with true in E. cbv iota in E.
  JSONFacts.break E.
  - injection E as <- _. eexists. reflexivity.
  - eapply parse_elements_arr, E.
Qed.

Lemma decode_exames_list items :
  exists l, decode_exames (Some (JSON.stringify (VArr items))) = VArr l.
Proof.
  unfold decode_exames.
  replace (col_or (Some (JSON.stringify (VArr items))) (Some (js "[]")))
    with (Some (JSON.stringify (VArr items))) by reflexivity.
  unfold col_text.
  destruct (JSON.parse (JSON.stringify (VArr items))) as [v|] eqn:E;
    [|exists []; reflexivity].
  apply (parse_array_text
           (join [ch ","] (map JSON.stringify items) ++ [ch "]"])), E.
Qed.

(** X24.  Whatever requests were served, starting from records whose
    [exames_solicitados] is the JSON text of a list, the listing is
    answered 200 with one object for each record, and in every object
    [exames_solicitados] is a list: the client never sees the stored
    text, [null] or another kind of value there. *)
Theorem listing_always_shows_lists key_eq reqs d :
  Forall (fun r => exists items,
            Prontuario.exames_solicitados r =
              Some (JSON.stringify (VArr items))) (prontuarios d) ->
  exists views,
    get_prontuarios (run key_eq reqs d) = json 200 (VArr views) /\
    List.length views = List.length (prontuarios (run key_eq reqs d)) /\
    Forall (fun v => exists items,
              get v (js "exames_solicitados") = Some (VArr items)) views.
Proof.
  intros H. apply (run_keeps_lists key_eq reqs) in H.
  set (d' := run key_eq reqs d) in *.
  exists (map prontuario_view (select_prontuarios d')).
  split; [reflexivity|]. split.
  - rewrite length_map. apply Permutation_length, order_by_desc_perm.
  - apply Forall_map.
    apply (Permutation_Forall (Permutation_sym (order_by_desc_perm _ _))).
    eapply Forall_impl; [|exact H].
    intros r (items & Hr). unfold prontuario_view, prontuario_props.
    change (get (VObj (obj_set ?props ?k ?v)) (js "exames_solicitados"))
      with (Some v).
    rewrite Hr. destruct (decode_exames_list items) as (l & ->).
    now exists l.
Qed.

(* ================================================================== *)
(** * The properties above on the sample deployment *)

Lemma wf_empty_db : wf_db empty_db.
Proof. unfold wf_db. simpl. repeat split; try constructor; lia. Qed.

Lemma wf_one_record_db : wf_db one_record_db.
Proof.
  change one_record_db
    with (run key_eq_decimal [POST_prontuario (Some string_exams_body)]
              empty_db).
  apply dispatch_keeps_wf, wf_empty_db.
Qed.

Lemma one_record_db_row :
  exists r, In r (prontuarios one_record_db) /\
            key_eq_decimal (VStr (js "1")) (Prontuario.id r) = true.
Proof. vm_compute. eexists. split; [left; reflexivity | reflexivity]. Qed.

Lemma required_field_missing_witness :
  post_prontuario empty_db (Some tiny_nome_body) =
    (send 400 required_msg, empty_db) /\
  put_prontuario key_eq_decimal empty_db (js "1") (Some tiny_nome_body) =
    (send 400 required_msg, empty_db).
Proof.
  apply (required_field_missing key_eq_decimal empty_db (ch "1") []
           (Some tiny_nome_body)).
  intros [H _]. vm_compute in H. discriminate H.
Defined.

Lemma put_replaces_every_field_witness :
  exists d',
    put_prontuario key_eq_decimal one_record_db (js "1")
      (Some string_exams_body) = (updated (js "1"), d') /\
    exames d' = exames one_record_db.
Proof.
  destruct (put_replaces_every_field key_eq_decimal one_record_db (ch "1") []
              (Some string_exams_body)) as (d' & H1 & H2 & _).
  - repeat split.
  - exact one_record_db_row.
  - exists d'. split; assumption.
Defined.

Lemma delete_cascades_witness :
  exists d',
    delete_prontuario_route key_eq_decimal one_record_db (js "1") =
      (deleted (js "1"), d') /\
    get_exames key_eq_decimal d' (exames_query (js "1")) = json 200 (VArr []).
Proof.
  destruct (delete_cascades key_eq_decimal one_record_db (ch "1") [])
    as (d' & H1 & _ & _ & H2).
  - exact wf_one_record_db.
  - exact one_record_db_row.
  - exists d'. split; assumption.
Defined.

Lemma run_keeps_wf_witness :
  wf_db (run key_eq_decimal
           [POST_prontuario (Some string_exams_body);
            POST_exames_texto sample_now (Some texto_body);
            DELETE_prontuario (js "1")] empty_db).
Proof.
  refine (proj1 (run_keeps_wf key_eq_decimal _ empty_db _)).
  exact wf_empty_db.
Defined.

Lemma listing_always_shows_lists_witness :
  exists views,
    get_prontuarios
      (run key_eq_decimal
         [POST_prontuario (Some string_exams_body);
          PUT_prontuario (js "1") (Some mixed_exams_body)] empty_db) =
      json 200 (VArr views) /\
    Forall (fun v => exists items,
              get v (js "exames_solicitados") = Some (VArr items)) views.
Proof.
  destruct (listing_always_shows_lists key_eq_decimal
              [POST_prontuario (Some string_exams_body);
               PUT_prontuario (js "1") (Some mixed_exams_body)] empty_db)
    as (views & H1 & _ & H2).
  - constructor.
  - exists views. split; assumption.
Defined.

Lemma keys_never_reused_witness :
  exists r,
    fst (post_prontuario
           (run key_eq_decimal [DELETE_prontuario (js "1")] one_record_db)
           (Some string_exams_body)) = created (Prontuario.id r) /\
    Forall (fun old => Prontuario.id old < Prontuario.id r)%Z
           (prontuarios one_record_db).
Proof.
  destruct (keys_never_reused key_eq_decimal one_record_db
              [DELETE_prontuario (js "1")] (Some string_exams_body))
    as (r & H1 & _ & H2 & _).
  - exact wf_one_record_db.
  - reflexivity.
  - exists r. split; assumption.
Defined.

Lemma triage_endpoint_failure_witness :
  fst (ai_diagnostico key_eq_decimal default_host default_model
         (refusing (js "fetch failed")) empty_db (Some febre_body)) =
  bad_gateway default_host default_model (Error (js "fetch failed")).
Proof.
  refine (proj1
    (triage_endpoint_failure key_eq_decimal default_host default_model
       (refusing (js "fetch failed")) empty_db (Some febre_body)
       febre_prompt _) (js "fetch failed") _).
  - vm_compute. reflexivity.
  - reflexivity.
Defined.


Lemma triage_reads_exams_only_on_demand_witness :
  ai_diagnostico key_eq_decimal default_host default_model
    (answering (jq "{}")) empty_db (Some resumo_body) =
  ai_diagnostico key_eq_decimal default_host default_model
    (answering (jq "{}")) one_record_db (Some resumo_body).
Proof.
  apply (triage_reads_exams_only_on_demand key_eq_decimal default_host
           default_model (answering (jq "{}")) (Some resumo_body)).
  left. exists (js "  Hb 12  "). split; [reflexivity|].
  vm_compute. discriminate.
Defined.

Lemma triage_sends_given_summary_witness :
  EXAMES resumo_prompt = trim (js "  Hb 12  ").
Proof.
  apply (triage_sends_given_summary key_eq_decimal default_host default_model
           (answering (jq "{}")) one_record_db (Some resumo_body)).
  - reflexivity.
  - vm_compute. discriminate.
  - vm_compute. left. reflexivity.
Defined.

Lemma askOllama_trimmed_witness : trim (js "gripe") = js "gripe".
Proof.
  apply (askOllama_trimmed (answering (js "  gripe  ")) febre_prompt []).
  vm_compute. reflexivity.
Defined.

Lemma texto_is_stored_witness :
  exists e,
    exames (snd (post_exames_texto key_eq_decimal sample_now one_record_db
                   (Some texto_body))) = exames one_record_db ++ [e] /\
    Exame.resultado_texto e = Some (js " Hb 12 ") /\
    Exame.arquivo_path e = None.
Proof.
  destruct (texto_is_stored key_eq_decimal sample_now one_record_db
              (Some texto_body) (js " Hb 12 "))
    as (e & parent & _ & H1 & _ & _ & _ & _ & _ & H2 & H3 & _).
  - exact wf_one_record_db.
  - reflexivity.
  - exact one_record_db_row.
  - reflexivity.
  - vm_compute. discriminate.
  - exists e. repeat split; assumption.
Defined.

Lemma exam_for_unknown_record_witness :
  post_exames_upload key_eq_decimal 1700000000000 sample_now empty_db
    (Some upload_body) (Some (js "rx.png")) =
  (json_error 500 FOREIGN_KEY_failed, empty_db).
Proof.
  refine (proj1
    (exam_for_unknown_record key_eq_decimal 1700000000000 sample_now empty_db
       (Some upload_body) _ _) (js "rx.png")).
  - reflexivity.
  - intros r [].
Defined.

Lemma upload_then_summary_witness :
  contains
    (fetchExamsSummary key_eq_decimal
       (snd (post_exames_upload key_eq_decimal 1700000000000 sample_now
               one_record_db (Some upload_body) (Some (js "rx.png"))))
       (VStr (js "1")))
    laudo_note.
Proof.
  refine (proj2 (proj2
    (upload_then_summary key_eq_decimal 1700000000000 sample_now
       one_record_db (Some upload_body) (js "rx.png") _ _))).
  - reflexivity.
  - exact one_record_db_row.
Defined.

Lemma any_list_is_listed_back_witness :
  exists r d',
    post_prontuario empty_db (Some mixed_exams_body) =
      (created (Prontuario.id r), d') /\
    get_prontuarios d' =
      json 200 (VArr (map prontuario_view (r :: select_prontuarios empty_db)))
    /\
    get (prontuario_view r) (js "exames_solicitados") =
      Some (VArr mixed_list).
Proof.
  apply (any_list_is_listed_back empty_db (Some mixed_exams_body) mixed_list).
  - repeat split.
  - reflexivity.
  - repeat constructor; try (intros [H | []]; discriminate H);
      try (intros []).
Defined.

Lemma interpret_throws_only_on_braces_witness :
  interpret (js "see {this}") = Throw SyntaxError.
Proof.
  apply (proj1 (interpret_throws_only_on_braces (js "see {this}"))).
  split; [reflexivity|]. split; [reflexivity|].
  exists (js "{this}"). split; [|reflexivity].
  exists (js "see "), (js "this"). split; [reflexivity|].
  split; [reflexivity|].
  vm_compute. intros H.
  repeat (destruct H as [H | H]; [discriminate H|]). exact H.
Defined.

Lemma get_exames_lists_witness :
  exists rows,
    get_exames key_eq_decimal two_exams_db (exames_query (js "1")) =
      json 200 (VArr (map exame_view rows)) /\
    filter (fun e => str_eqb (Exame.created_at e) sample_now) rows =
      exames two_exams_db.
Proof.
  destruct (proj2 (get_exames_lists key_eq_decimal two_exams_db
                     (exames_query (js "1"))) eq_refl)
    as (rows & H1 & _ & _ & H2 & _).
  exists rows. split; [exact H1|]. rewrite H2. vm_compute. reflexivity.
Defined.

Lemma sanitized_name_properties_witness :
  replace_unsafe false (js "rx-torax_1.png") = js "rx-torax_1.png".
Proof.
  apply (proj1 (sanitized_name_properties (js "rx-torax_1.png"))).
  repeat constructor.
Defined.

Lemma not_found_middleware_spec_witness :
  not_found_middleware (js "GET") (js "/api/pacientes") =
    Some (send 404 (js "Rota não encontrada: " ++ js "GET" ++ js " " ++
                    js "/api/pacientes")).
Proof.
  refine (proj1 (not_found_middleware_spec (js "GET") (js "/api/pacientes")) _).
  exists (js "/api"), (js "/pacientes"). split; [left; reflexivity|].
  reflexivity.
Defined.

Lemma rev1_askOllama_always_answers_witness :
  Rev1.askOllama (fun _ => Rejected (js "fetch failed")) (js "febre") =
    Rev1.unavailable.
Proof.
  refine (proj1 (proj2
    (rev1_askOllama_always_answers (fun _ => Rejected (js "fetch failed"))
       (js "febre"))) (js "fetch failed") _).
  reflexivity.
Defined.

Lemma rev1_triage_never_fails_upstream_witness :
  Rev1.ai_diagnostico (fun _ => Rejected (js "fetch failed"))
    (Some febre_body) =
  Ok (json 200
        (VObj [(js "sugestao", VObj [(js "texto", VStr Rev1.unavailable)])])).
Proof.
  refine (proj2 (proj1
    (rev1_triage_never_fails_upstream (fun _ => Rejected (js "fetch failed"))
       febre_body) (js "febre") _ _) (js "fetch failed") _).
  - reflexivity.
  - vm_compute. discriminate.
  - reflexivity.
Defined.
